(** * AIModelRouter: circuit breaker, selector, dispatcher and metrics

    A shallow embedding of [src/model_router.py].

    Modelling conventions.
    - Python [int] is [Z]; Python [float] (times, latencies, the backoff
      factor, the random draw) is idealised as an exact rational [Q]:
      rounding of binary64 arithmetic is not modelled.  The two float
      operations of the router that raise [OverflowError] are modelled:
      the conversion of an [int] to [float] inside [random.uniform], and
      the power [backoff_factor ** attempts].
    - [dict] and [defaultdict] are [gmap string _].  Indexing a plain
      [dict] with a missing key raises [KeyError]; reading a
      [defaultdict] with a missing key yields the default.  In Python
      such a read also stores the default under the key; the maps of the
      model leave these entries out, so a map stands for the defaultdict
      up to entries that hold the default.
    - The outside world (wall clock, random generator, transport I/O,
      health probes) is an oracle [World]: the n-th use of each facility
      gets the n-th value of the corresponding stream.  Theorems quantify
      over every oracle.
    - A coroutine runs to completion: one [inference] or [health_check]
      call is a state transformer in the monad [M], which threads the
      router object, the oracle cursors and the trace of externally
      visible events, and carries Python exceptions. *)

From stdpp Require Import gmap strings list fin_maps.
From Stdlib Require Import QArith Qabs Lqa.

Close Scope Q_scope.
Set Warnings "-register-all".
Local Open Scope Z_scope.

(** ** Values *)

(** Python values of type [Any]: metadata values and provider responses. *)
Inductive value :=
| VNone
| VBool (b : bool)
| VInt (z : Z)
| VFloat (q : Q)
| VStr (s : string)
| VList (l : list value)
| VDict (items : list (string * value)).

(** ** Configuration (pydantic models) *)

Record EndpointConfig := {
  name : string;
  url : string;
  type : string;      (* 'http' or 'websocket' *)
  weight : Z;
  timeout : Q;
}.

Record RetryConfig := {
  max_attempts : Z;
  backoff_factor : Q;
}.

Record CircuitBreakerConfig := {
  failure_threshold : Z;
  recovery_timeout : Z;
}.

Record AIModelRouterConfig := {
  endpoints : list EndpointConfig;
  retry_config : RetryConfig;
  circuit_breaker : CircuitBreakerConfig;
}.

(** ** Router object *)

(** The three strings stored in [circuit_states]:
    "closed", "open" and "half-open". *)
Inductive circuit := CLOSED | OPEN | HALF_OPEN.

Global Instance circuit_eq_dec : EqDecision circuit.
Proof. solve_decision. Defined.

Record Metrics := {
  request_count : Z;
  success_count : Z;
  error_count : Z;
  total_latency : Q;
  average_latency : Q;
}.

Record CacheEntry := {
  timestamp : Q;
  response : value;
}.

Record AIModelRouter := {
  config : AIModelRouterConfig;
  circuit_states : gmap string circuit;
  failure_counts : gmap string Z;        (* defaultdict(int) *)
  last_failure_time : gmap string Q;     (* defaultdict(float) *)
  cache : gmap string CacheEntry;
  total_weight : Z;
  metrics : gmap string Metrics;
}.

(** Reading a [defaultdict]. *)
Definition dd_int (d : gmap string Z) (k : string) : Z := default 0 (d !! k).
Definition dd_float (d : gmap string Q) (k : string) : Q := default 0%Q (d !! k).

(** ** The outside world *)

(** Outcome of one transport call: [Some r] is the decoded JSON body,
    [None] is any [Exception] raised by the I/O (connection error,
    non-2xx status, timeout, handshake failure, bad payload). *)
Record World := {
  clock : nat -> Q;               (* successive readings of time.time() *)
  entropy : nat -> Z;             (* successive raw draws of the generator *)
  reply : nat -> option value;    (* outcomes of successive transport calls *)
  probe_reply : nat -> bool;      (* health probe completed without exception *)
}.

Inductive event :=
| EvHttp (endpoint_name : string)       (* _make_http_request was awaited *)
| EvWebsocket (endpoint_name : string)  (* _make_websocket_request was awaited *)
| EvProbe (endpoint_name : string)      (* a health probe touched the network *)
| EvSleep (seconds : Q).                (* asyncio.sleep *)

Record Sys := {
  router : AIModelRouter;
  n_clock : nat;
  n_entropy : nat;
  n_reply : nat;
  n_probe : nat;
  trace : list event;    (* oldest first *)
}.

(** ** The monad of router coroutines *)

Inductive exn :=
| KeyError (key : string)
| ValueError
| IndexError
| TransportError
| OverflowError  (* int too large to convert to float; float power out of range *)
| LoopFuel.    (* the model of a while loop ran out of fuel; never happens *)

Inductive outcome (A : Type) :=
| Return (a : A)
| Raise (e : exn).
Arguments Return {A} a.
Arguments Raise {A} e.

Definition M (A : Type) : Type := Sys -> outcome A * Sys.

Definition ret {A} (a : A) : M A := fun s => (Return a, s).

Definition bind {A B} (m : M A) (k : A -> M B) : M B :=
  fun s => match m s with
           | (Return a, s') => k a s'
           | (Raise e, s') => (Raise e, s')
           end.

Definition raise {A} (e : exn) : M A := fun s => (Raise e, s).

(** [try: body except Exception: handler] *)
Definition try_except {A} (body : M A) (handler : exn -> M A) : M A :=
  fun s => match body s with
           | (Return a, s') => (Return a, s')
           | (Raise e, s') => handler e s'
           end.

Declare Scope router_scope.
Delimit Scope router_scope with router.
Notation "x <- m ;; k" := (bind m (fun x => k))
  (at level 100, m at next level, right associativity) : router_scope.
Notation "m ;;; k" := (bind m (fun _ => k))
  (at level 100, right associativity) : router_scope.
Local Open Scope router_scope.

(** State updates of the system. *)
Definition upd_router (f : AIModelRouter -> AIModelRouter) (s : Sys) : Sys :=
  {| router := f (router s); n_clock := n_clock s; n_entropy := n_entropy s;
     n_reply := n_reply s; n_probe := n_probe s; trace := trace s |}.

Definition tick_clock (s : Sys) : Sys :=
  {| router := router s; n_clock := S (n_clock s); n_entropy := n_entropy s;
     n_reply := n_reply s; n_probe := n_probe s; trace := trace s |}.

Definition tick_entropy (s : Sys) : Sys :=
  {| router := router s; n_clock := n_clock s; n_entropy := S (n_entropy s);
     n_reply := n_reply s; n_probe := n_probe s; trace := trace s |}.

Definition tick_reply (s : Sys) : Sys :=
  {| router := router s; n_clock := n_clock s; n_entropy := n_entropy s;
     n_reply := S (n_reply s); n_probe := n_probe s; trace := trace s |}.

Definition tick_probe (s : Sys) : Sys :=
  {| router := router s; n_clock := n_clock s; n_entropy := n_entropy s;
     n_reply := n_reply s; n_probe := S (n_probe s); trace := trace s |}.

Definition log_event (e : event) (s : Sys) : Sys :=
  {| router := router s; n_clock := n_clock s; n_entropy := n_entropy s;
     n_reply := n_reply s; n_probe := n_probe s; trace := trace s ++ [e] |}.

Definition get_router : M AIModelRouter := fun s => (Return (router s), s).

Definition modify_router (f : AIModelRouter -> AIModelRouter) : M unit :=
  fun s => (Return tt, upd_router f s).

Definition emit (e : event) : M unit := fun s => (Return tt, log_event e s).

(** [d[k]] on a plain dict. *)
Definition dict_get {V} (d : gmap string V) (k : string) : M V :=
  match d !! k with
  | Some v => ret v
  | None => raise (KeyError k)
  end.

(** Field updates of the router object. *)
Definition with_circuit_states (f : gmap string circuit -> gmap string circuit)
    (r : AIModelRouter) : AIModelRouter :=
  {| config := config r; circuit_states := f (circuit_states r);
     failure_counts := failure_counts r; last_failure_time := last_failure_time r;
     cache := cache r; total_weight := total_weight r; metrics := metrics r |}.

Definition with_failure_counts (f : gmap string Z -> gmap string Z)
    (r : AIModelRouter) : AIModelRouter :=
  {| config := config r; circuit_states := circuit_states r;
     failure_counts := f (failure_counts r); last_failure_time := last_failure_time r;
     cache := cache r; total_weight := total_weight r; metrics := metrics r |}.

Definition with_last_failure_time (f : gmap string Q -> gmap string Q)
    (r : AIModelRouter) : AIModelRouter :=
  {| config := config r; circuit_states := circuit_states r;
     failure_counts := failure_counts r; last_failure_time := f (last_failure_time r);
     cache := cache r; total_weight := total_weight r; metrics := metrics r |}.

Definition with_cache (f : gmap string CacheEntry -> gmap string CacheEntry)
    (r : AIModelRouter) : AIModelRouter :=
  {| config := config r; circuit_states := circuit_states r;
     failure_counts := failure_counts r; last_failure_time := last_failure_time r;
     cache := f (cache r); total_weight := total_weight r; metrics := metrics r |}.

Definition with_metrics (f : gmap string Metrics -> gmap string Metrics)
    (r : AIModelRouter) : AIModelRouter :=
  {| config := config r; circuit_states := circuit_states r;
     failure_counts := failure_counts r; last_failure_time := last_failure_time r;
     cache := cache r; total_weight := total_weight r; metrics := f (metrics r) |}.


(** ** Library functions used by the router *)

(** [random.random()] is [k * 2**-53] for a 53-bit integer [k]. *)
Definition unit_interval (raw : Z) : Q := (raw mod 2 ^ 53) # (2 ^ 53)%positive.

(** The value [random.uniform(a, b)], that is [a + (b - a) * random()],
    computes from a raw draw. *)
Definition uniform_value (a b raw : Z) : Q :=
  (inject_Z a + inject_Z (b - a) * unit_interval raw)%Q.

(** The integers that convert to a binary64 float: with rounding to
    nearest, [float(n)] raises [OverflowError] from [2**1024 - 2**970]
    on (half an ulp above the largest finite float). *)
Definition float_limit : Z := 2 ^ 1024 - 2 ^ 970.

Definition float_ok (z : Z) : bool := Z.abs z <? float_limit.

(** [x ** k] raises [OverflowError] when the result is out of the float
    range (the exact power stands in for the rounded one). *)
Definition pow_ok (x : Q) (k : Z) : bool :=
  negb (Qle_bool (inject_Z float_limit) (Qabs (Qpower x k))).

(** [str == Any]: equal only to a [str] with the same characters. *)
Definition str_eq_value (s : string) (v : value) : bool :=
  match v with
  | VStr s' => bool_decide (s = s')
  | _ => false
  end.

(** Truth value of an optional dict: [None] and [{}] are false. *)
Definition truthy (metadata : option (gmap string value)) : bool :=
  match metadata with
  | Some m => negb (Nat.eqb (size m) 0)
  | None => false
  end.

Definition sum_weights (l : list EndpointConfig) : Z :=
  foldl (fun acc e => acc + weight e) 0 l.

(** The two structured error results of [inference]. *)
Definition error_unavailable : value :=
  VDict [("error"%string, VStr "All endpoints are unavailable.")].
Definition error_retries : value :=
  VDict [("error"%string, VStr "Request failed after multiple retries.")].

(** [AIModelRouter.__init__] (the aiohttp session and the lock carry no
    state of their own in this model). *)
Definition init (cfg : AIModelRouterConfig) : AIModelRouter :=
  {| config := cfg;
     circuit_states :=
       foldl (fun d e => <[name e := CLOSED]> d) ∅ (endpoints cfg);
     failure_counts := ∅;
     last_failure_time := ∅;
     cache := ∅;
     total_weight := sum_weights (endpoints cfg);
     metrics :=
       foldl (fun d e =>
                <[name e := {| request_count := 0; success_count := 0;
                               error_count := 0; total_latency := 0%Q;
                               average_latency := 0%Q |}]> d)
             ∅ (endpoints cfg) |}.

Definition boot (cfg : AIModelRouterConfig) : Sys :=
  {| router := init cfg; n_clock := 0; n_entropy := 0; n_reply := 0;
     n_probe := 0; trace := [] |}.

Section Router.

(** [hashlib.sha256(...).hexdigest()] and [str(sorted(d.items()))]. *)
Variable sha256_hexdigest : string -> string.
Variable str_sorted_items : gmap string value -> string.
Variable w : World.

(** *** Oracle reads *)

Definition time_time : M Q :=
  fun s => (Return (clock w (n_clock s)), tick_clock s).

Definition random_raw : M Z :=
  fun s => (Return (entropy w (n_entropy s)), tick_entropy s).

Definition transport_io : M (option value) :=
  fun s => (Return (reply w (n_reply s)), tick_reply s).

Definition probe_io : M bool :=
  fun s => (Return (probe_reply w (n_probe s)), tick_probe s).

(** [random.uniform(a, b)] is [a + (b - a) * random()]: the draw is
    made, then the product converts the int [b - a] to a float and the
    sum converts the int [a]; either conversion can raise
    [OverflowError]. *)
Definition random_uniform (a b : Z) : M Q :=
  raw <- random_raw ;;
  if float_ok (b - a) && float_ok a
  then ret (uniform_value a b raw)
  else raise OverflowError.

(** [x ** k] for a float [x] and an int [k]. *)
Definition float_pow (x : Q) (k : Z) : M Q :=
  if pow_ok x k then ret (Qpower x k) else raise OverflowError.

(** [random.choice(seq)] is [seq[randbelow(len(seq))]]; it raises
    [IndexError] on an empty sequence.  The index is the raw draw reduced
    modulo the length, so every index is drawn by some raw value. *)
Definition random_choice {A} (seq : list A) : M A :=
  match seq with
  | [] => raise IndexError
  | _ =>
      raw <- random_raw ;;
      match seq !! Z.to_nat (raw mod Z.of_nat (length seq)) with
      | Some x => ret x
      | None => raise IndexError
      end
  end.

Definition asyncio_sleep (seconds : Q) : M unit := emit (EvSleep seconds).

(** *** get_metrics *)

Definition get_metrics : M (gmap string Metrics) :=
  r <- get_router ;; ret (metrics r).

(** *** _update_metrics (the body runs under [metrics_lock]) *)

(** The in-place update of one endpoint's metrics dict. *)
Definition bump_metrics (m : Metrics) (latency : Q) (success : bool) : Metrics :=
  let m1 :=
    {| request_count := request_count m + 1;
       success_count := if success then success_count m + 1 else success_count m;
       error_count := if success then error_count m else error_count m + 1;
       total_latency := (total_latency m + latency)%Q;
       average_latency := average_latency m |} in
  if 0 <? request_count m1 then
    {| request_count := request_count m1;
       success_count := success_count m1;
       error_count := error_count m1;
       total_latency := total_latency m1;
       average_latency :=
         (total_latency m1 / inject_Z (request_count m1))%Q |}
  else m1.

Definition _update_metrics (endpoint_name : string) (latency : Q) (success : bool)
    : M unit :=
  r <- get_router ;;
  m <- dict_get (metrics r) endpoint_name ;;
  modify_router
    (with_metrics (fun d => <[endpoint_name := bump_metrics m latency success]> d)).

(** *** _get_cache_key *)

Definition _get_cache_key (model_type data : string)
    (metadata : option (gmap string value)) : string :=
  sha256_hexdigest
    (model_type +:+ data +:+
     match metadata with
     | Some m => if truthy metadata then str_sorted_items m else EmptyString
     | None => EmptyString
     end)%string.

(** *** _select_endpoint *)

(** The list comprehension building [active_endpoints]. *)
Fixpoint active_endpoints (r : AIModelRouter) (exclude_names : list string)
    (l : list EndpointConfig) : M (list EndpointConfig) :=
  match l with
  | [] => ret []
  | endpoint :: rest =>
      st <- dict_get (circuit_states r) (name endpoint) ;;
      tl <- active_endpoints r exclude_names rest ;;
      if negb (bool_decide (st = OPEN))
         && negb (bool_decide (name endpoint ∈ exclude_names))
      then ret (endpoint :: tl) else ret tl
  end.

(** The [for] loop walking the cumulative weights. *)
Fixpoint walk_weights (selection : Q) (current_weight : Z)
    (l : list EndpointConfig) : option EndpointConfig :=
  match l with
  | [] => None      (* Should not be reached *)
  | endpoint :: rest =>
      let current_weight := current_weight + weight endpoint in
      if Qle_bool selection (inject_Z current_weight) then Some endpoint
      else walk_weights selection current_weight rest
  end.

Definition _select_endpoint (exclude_names : list string)
    : M (option EndpointConfig) :=
  r <- get_router ;;
  active <- active_endpoints r exclude_names (endpoints (config r)) ;;
  match active with
  | [] => ret None
  | _ =>
      let total_weight := sum_weights active in
      if total_weight =? 0 then
        e <- random_choice active ;; ret (Some e)
      else
        selection <- random_uniform 0 total_weight ;;
        ret (walk_weights selection 0 active)
  end.

(** *** Transport adapter

    Both request coroutines either return the decoded response or raise;
    the websocket wrapper logs and re-raises. *)

Definition _make_http_request (endpoint : EndpointConfig) (data : string)
    (metadata : option (gmap string value)) : M value :=
  emit (EvHttp (name endpoint)) ;;;
  o <- transport_io ;;
  match o with
  | Some response => ret response
  | None => raise TransportError
  end.

Definition _make_websocket_request (endpoint : EndpointConfig) (data : string)
    (metadata : option (gmap string value)) : M value :=
  try_except
    (emit (EvWebsocket (name endpoint)) ;;;
     o <- transport_io ;;
     match o with
     | Some response => ret response
     | None => raise TransportError
     end)
    (fun e => raise e).

(** *** Circuit breaker *)

Definition _trip_circuit (endpoint_name : string) : M unit :=
  modify_router (with_circuit_states (fun d => <[endpoint_name := OPEN]> d)) ;;;
  now <- time_time ;;
  modify_router (with_last_failure_time (fun d => <[endpoint_name := now]> d)).

Definition _reset_circuit (endpoint_name : string) : M unit :=
  r <- get_router ;;
  st <- dict_get (circuit_states r) endpoint_name ;;
  if negb (bool_decide (st = CLOSED)) then
    modify_router (with_circuit_states (fun d => <[endpoint_name := CLOSED]> d)) ;;;
    modify_router (with_failure_counts (fun d => <[endpoint_name := 0]> d))
  else ret tt.

Definition _handle_failure (endpoint_name : string) : M unit :=
  r <- get_router ;;
  st <- dict_get (circuit_states r) endpoint_name ;;
  if bool_decide (st = CLOSED) then
    modify_router
      (with_failure_counts
         (fun d => <[endpoint_name := dd_int d endpoint_name + 1]> d)) ;;;
    r <- get_router ;;
    if failure_threshold (circuit_breaker (config r))
         <=? dd_int (failure_counts r) endpoint_name
    then _trip_circuit endpoint_name
    else ret tt
  else
    st <- dict_get (circuit_states r) endpoint_name ;;
    if bool_decide (st = HALF_OPEN) then _trip_circuit endpoint_name
    else ret tt.

(** *** inference *)

(** Lines 242-251: the caller's preferred endpoint, looked up on the
    first attempt only. *)
Definition preferred_endpoint (r : AIModelRouter) (attempts : Z)
    (metadata : option (gmap string value)) : option EndpointConfig :=
  match metadata with
  | Some m =>
      if (attempts =? 0) && truthy metadata then
        match m !! "endpoint_pref"%string with
        | Some pref =>
            List.find (fun ep => str_eq_value (name ep) pref)
                      (endpoints (config r))
        | None => None
        end
      else None
  | None => None
  end.

(** Lines 242-254: the endpoint of one iteration. *)
Definition pick_endpoint (attempts : Z) (metadata : option (gmap string value))
    (tried_endpoints : list string) : M (option EndpointConfig) :=
  r <- get_router ;;
  match preferred_endpoint r attempts metadata with
  | Some endpoint => ret (Some endpoint)
  | None => _select_endpoint tried_endpoints
  end.

(** Lines 268-275: the request goes out over the endpoint's protocol. *)
Definition transport_call (endpoint : EndpointConfig) (data : string)
    (metadata : option (gmap string value)) : M value :=
  if bool_decide (type endpoint = "http"%string) then
    _make_http_request endpoint data metadata
  else if bool_decide (type endpoint = "websocket"%string) then
    _make_websocket_request endpoint data metadata
  else raise ValueError.

(** Lines 263-286: the body of the [try] block. *)
Definition dispatch_try (cache_key : string) (endpoint : EndpointConfig)
    (data : string) (metadata : option (gmap string value)) (start_time : Q)
    : M value :=
  r <- get_router ;;
  _st <- dict_get (circuit_states r) (name endpoint) ;;   (* half-open log line *)
  response <- transport_call endpoint data metadata ;;
  t <- time_time ;;
  let latency := (t - start_time)%Q in
  _update_metrics (name endpoint) latency true ;;;
  _reset_circuit (name endpoint) ;;;
  t <- time_time ;;
  modify_router
    (with_cache (fun d => <[cache_key := {| timestamp := t; response := response |}]> d)) ;;;
  ret response.

(** Lines 289-298: the [except] block, up to the end of the iteration;
    it yields the incremented attempt count. *)
Definition dispatch_except (endpoint : EndpointConfig) (start_time : Q)
    (attempts : Z) : M Z :=
  t <- time_time ;;
  let latency := (t - start_time)%Q in
  _update_metrics (name endpoint) latency false ;;;
  _handle_failure (name endpoint) ;;;
  let attempts := attempts + 1 in
  r <- get_router ;;
  (if attempts <? max_attempts (retry_config (config r)) then
     backoff_time <-
       float_pow (backoff_factor (retry_config (config r))) attempts ;;
     asyncio_sleep backoff_time
   else ret tt) ;;;
  ret attempts.

(** The [while attempts < max_attempts] loop.  Every iteration that
    does not return increments [attempts], so [fuel] bounds the
    iterations. *)
Fixpoint dispatch_loop (fuel : nat) (cache_key data : string)
    (metadata : option (gmap string value)) (attempts : Z)
    (tried_endpoints : list string) : M value :=
  match fuel with
  | O => raise LoopFuel
  | S fuel =>
      r <- get_router ;;
      if attempts <? max_attempts (retry_config (config r)) then
        endpoint <- pick_endpoint attempts metadata tried_endpoints ;;
        match endpoint with
        | None => ret error_unavailable
        | Some endpoint =>
            let tried_endpoints := tried_endpoints ++ [name endpoint] in
            start_time <- time_time ;;
            try_except
              (dispatch_try cache_key endpoint data metadata start_time)
              (fun _ =>
                 attempts <- dispatch_except endpoint start_time attempts ;;
                 dispatch_loop fuel cache_key data metadata attempts
                               tried_endpoints)
        end
      else ret error_retries
  end.

Definition inference (model_type data : string)
    (metadata : option (gmap string value)) : M value :=
  let cache_key := _get_cache_key model_type data metadata in
  r <- get_router ;;
  match cache r !! cache_key with
  | Some entry => ret (response entry)
  | None =>
      dispatch_loop (S (Z.to_nat (max_attempts (retry_config (config r)))))
                    cache_key data metadata 0 []
  end.

(** *** Health reconciler *)

Definition _check_endpoint_health (endpoint : EndpointConfig) : M bool :=
  if bool_decide (type endpoint = "http"%string)
     || bool_decide (type endpoint = "websocket"%string)
  then emit (EvProbe (name endpoint)) ;;; probe_io
  else ret false.

Record HealthStatus := {
  state : circuit;
  failures : Z;
}.

(** One iteration of the sweep over [self.endpoints]. *)
Definition health_check_endpoint (endpoint : EndpointConfig) : M unit :=
  r <- get_router ;;
  st <- dict_get (circuit_states r) (name endpoint) ;;
  (if bool_decide (st = OPEN) then
     now <- time_time ;;
     if negb (Qle_bool (now - dd_float (last_failure_time r) (name endpoint))
                       (inject_Z (recovery_timeout (circuit_breaker (config r)))))
     then modify_router
            (with_circuit_states (fun d => <[name endpoint := HALF_OPEN]> d))
     else ret tt
   else ret tt) ;;;
  r <- get_router ;;
  st <- dict_get (circuit_states r) (name endpoint) ;;
  if bool_decide (st = HALF_OPEN) then
    is_healthy <- _check_endpoint_health endpoint ;;
    if is_healthy then _reset_circuit (name endpoint)
    else _trip_circuit (name endpoint)
  else ret tt.

Fixpoint health_sweep (l : list EndpointConfig) : M unit :=
  match l with
  | [] => ret tt
  | endpoint :: rest => health_check_endpoint endpoint ;;; health_sweep rest
  end.

(** The dict comprehension of the return statement. *)
Fixpoint health_report (r : AIModelRouter) (l : list EndpointConfig)
    (acc : gmap string HealthStatus) : M (gmap string HealthStatus) :=
  match l with
  | [] => ret acc
  | endpoint :: rest =>
      st <- dict_get (circuit_states r) (name endpoint) ;;
      health_report r rest
        (<[name endpoint :=
             {| state := st;
                failures := dd_int (failure_counts r) (name endpoint) |}]> acc)
  end.

Definition health_check : M (gmap string HealthStatus) :=
  r <- get_router ;;
  health_sweep (endpoints (config r)) ;;;
  r <- get_router ;;
  health_report r (endpoints (config r)) ∅.

End Router.


(** ** Specification vocabulary *)

(** Every configured endpoint has its entries in [circuit_states] and
    [metrics]; [__init__] establishes this and nothing removes a key. *)
Definition has_entries (r : AIModelRouter) : Prop :=
  Forall (fun e => is_Some (circuit_states r !! name e)
                   /\ is_Some (metrics r !! name e))
         (endpoints (config r)).

(** The numbers of a configuration are within the float range: the
    weights (so that the total weight of any set of candidates converts
    to a float) and every backoff power the retry loop can compute. *)
Fixpoint total_abs_weight (l : list EndpointConfig) : Z :=
  match l with
  | [] => 0
  | e :: rest => Z.abs (weight e) + total_abs_weight rest
  end.

Definition weights_in_range (cfg : AIModelRouterConfig) : Prop :=
  total_abs_weight (endpoints cfg) < float_limit.

Definition backoff_in_range (rc : RetryConfig) : Prop :=
  forall k, 0 < k < max_attempts rc -> pow_ok (backoff_factor rc) k = true.

Definition in_float_range (cfg : AIModelRouterConfig) : Prop :=
  weights_in_range cfg /\ backoff_in_range (retry_config cfg).

(** A well-formed router: every configured endpoint has its entries, and
    the configuration's numbers are within the float range, so that no
    arithmetic of the router raises. *)
Definition wf (r : AIModelRouter) : Prop :=
  has_entries r /\ in_float_range (config r).

(** The candidate test of the Selector, as a pure function. *)
Definition is_candidate (r : AIModelRouter) (exclude_names : list string)
    (e : EndpointConfig) : bool :=
  match circuit_states r !! name e with
  | Some st => negb (bool_decide (st = OPEN))
               && negb (bool_decide (name e ∈ exclude_names))
  | None => false
  end.

Definition candidates (r : AIModelRouter) (exclude_names : list string)
    : list EndpointConfig :=
  List.filter (is_candidate r exclude_names) (endpoints (config r)).


(** What the Selector returns on a raw draw, as a pure function (when
    the draw does not raise). *)
Definition select_pure (r : AIModelRouter) (exclude_names : list string)
    (raw : Z) : option EndpointConfig :=
  let active := candidates r exclude_names in
  match active with
  | [] => None
  | _ =>
      if sum_weights active =? 0
      then active !! Z.to_nat (raw mod Z.of_nat (length active))
      else walk_weights (uniform_value 0 (sum_weights active) raw) 0 active
  end.

(** The outcome of the Selector on a raw draw: the draw raises when the
    candidates' total weight does not convert to a float. *)
Definition select_outcome (r : AIModelRouter) (exclude_names : list string)
    (raw : Z) : outcome (option EndpointConfig) :=
  if float_ok (sum_weights (candidates r exclude_names))
  then Return (select_pure r exclude_names raw)
  else Raise OverflowError.

(** ** Post-states of the router's operations

    Each function below is the state an operation leaves behind, written
    as a composition of the elementary state updates; the run lemmas of
    the second part prove that the code computes exactly these. *)

Definition tripped (w : World) (n : string) (s : Sys) : Sys :=
  upd_router (with_last_failure_time (fun d => <[n := clock w (n_clock s)]> d))
    (tick_clock (upd_router (with_circuit_states (fun d => <[n := OPEN]> d)) s)).

Definition reset_done (n : string) (st : circuit) (s : Sys) : Sys :=
  if bool_decide (st = CLOSED) then s
  else upd_router (with_failure_counts (fun d => <[n := 0]> d))
         (upd_router (with_circuit_states (fun d => <[n := CLOSED]> d)) s).

Definition failure_handled (w : World) (n : string) (st : circuit) (s : Sys) : Sys :=
  match st with
  | CLOSED =>
      let s1 := upd_router (with_failure_counts
                  (fun d => <[n := dd_int d n + 1]> d)) s in
      if failure_threshold (circuit_breaker (config (router s)))
           <=? dd_int (failure_counts (router s)) n + 1
      then tripped w n s1 else s1
  | HALF_OPEN => tripped w n s
  | OPEN => s
  end.

(** The transport event of an endpoint, if its protocol is supported. *)
Definition protocol_event (e : EndpointConfig) : option event :=
  if bool_decide (type e = "http"%string) then Some (EvHttp (name e))
  else if bool_decide (type e = "websocket"%string) then Some (EvWebsocket (name e))
  else None.

(** The request has gone out (or could not, for an unsupported protocol). *)
Definition attempt_sent (e : EndpointConfig) (s : Sys) : Sys :=
  match protocol_event e with
  | Some ev => tick_reply (log_event ev s)
  | None => s
  end.

Definition attempt_succeeded (w : World) (cache_key : string) (e : EndpointConfig)
    (start_time : Q) (resp : value) (st : circuit) (m : Metrics) (s : Sys) : Sys :=
  let s1 := attempt_sent e s in
  let latency := (clock w (n_clock s1) - start_time)%Q in
  let s2 := upd_router
              (with_metrics (fun d => <[name e := bump_metrics m latency true]> d))
              (tick_clock s1) in
  let s3 := reset_done (name e) st s2 in
  upd_router
    (with_cache (fun d => <[cache_key := {| timestamp := clock w (n_clock s3);
                                            response := resp |}]> d))
    (tick_clock s3).

(** The backoff that follows failure number [attempts] does not raise:
    no attempt remains, or the power is within the float range. *)
Definition backoff_ok (rc : RetryConfig) (attempts : Z) : bool :=
  negb (attempts <? max_attempts rc) || pow_ok (backoff_factor rc) attempts.

(** A failed attempt has been recorded: metrics and circuit breaker are
    updated; the backoff is still to come. *)
Definition attempt_recorded (w : World) (e : EndpointConfig) (start_time : Q)
    (st : circuit) (m : Metrics) (s : Sys) : Sys :=
  let s1 := attempt_sent e s in
  let latency := (clock w (n_clock s1) - start_time)%Q in
  let s2 := upd_router
              (with_metrics (fun d => <[name e := bump_metrics m latency false]> d))
              (tick_clock s1) in
  failure_handled w (name e) st s2.

Definition attempt_failed (w : World) (e : EndpointConfig) (start_time : Q)
    (attempts : Z) (st : circuit) (m : Metrics) (s : Sys) : Sys :=
  let s1 := attempt_sent e s in
  let latency := (clock w (n_clock s1) - start_time)%Q in
  let s2 := upd_router
              (with_metrics (fun d => <[name e := bump_metrics m latency false]> d))
              (tick_clock s1) in
  let s3 := failure_handled w (name e) st s2 in
  let rc := retry_config (config (router s3)) in
  if attempts + 1 <? max_attempts rc
  then log_event (EvSleep (Qpower (backoff_factor rc) (attempts + 1))) s3
  else s3.

(** ** Metrics invariants *)

Definition metrics_ok (m : Metrics) : Prop :=
  request_count m = success_count m + error_count m /\
  (0 < request_count m ->
   average_latency m = (total_latency m / inject_Z (request_count m))%Q).

Definition metrics_inv (d : gmap string Metrics) : Prop :=
  map_Forall (fun _ m => metrics_ok m) d.

(** ** Summary of one [inference] call that missed the cache *)

(** How the dispatch loop ended, with the endpoints whose attempts failed,
    in order. *)
Inductive verdict :=
| Served (failed : list EndpointConfig) (e : EndpointConfig) (resp : value)
| Unavailable (failed : list EndpointConfig)
| Exhausted (failed : list EndpointConfig).

Definition verdict_value (vd : verdict) : value :=
  match vd with
  | Served _ _ resp => resp
  | Unavailable _ => error_unavailable
  | Exhausted _ => error_retries
  end.

Definition verdict_failed (vd : verdict) : list EndpointConfig :=
  match vd with
  | Served failed _ _ => failed
  | Unavailable failed => failed
  | Exhausted failed => failed
  end.

Definition protocol_events (e : EndpointConfig) : list event :=
  match protocol_event e with
  | Some ev => [ev]
  | None => []
  end.

(** The backoff sleep that follows the failure number [attempts]
    (counted from 1), if attempts remain. *)
Definition backoff_events (rc : RetryConfig) (attempts : Z) : list event :=
  if attempts <? max_attempts rc
  then [EvSleep (Qpower (backoff_factor rc) attempts)]
  else [].

(** Events of a run of failed attempts, the first of which is attempt
    number [attempts + 1]. *)
Fixpoint failed_trace (rc : RetryConfig) (attempts : Z)
    (failed : list EndpointConfig) : list event :=
  match failed with
  | [] => []
  | e :: rest =>
      protocol_events e ++ backoff_events rc (attempts + 1)
        ++ failed_trace rc (attempts + 1) rest
  end.

Definition verdict_trace (rc : RetryConfig) (attempts : Z) (vd : verdict)
    : list event :=
  failed_trace rc attempts (verdict_failed vd)
    ++ match vd with
       | Served _ e _ => protocol_events e
       | _ => []
       end.

(** One more failed attempt in front of a run. *)
Definition verdict_cons (e : EndpointConfig) (vd : verdict) : verdict :=
  match vd with
  | Served failed e' resp => Served (e :: failed) e' resp
  | Unavailable failed => Unavailable (e :: failed)
  | Exhausted failed => Exhausted (e :: failed)
  end.

(** What a run of the loop ends with. *)
Definition loop_post (w : World) (key : string) (attempts : Z) (s s' : Sys)
    (vd : verdict) : Prop :=
  let rc := retry_config (config (router s)) in
  wf (router s') /\
  config (router s') = config (router s) /\
  (metrics_inv (metrics (router s)) -> metrics_inv (metrics (router s'))) /\
  trace s' = trace s ++ verdict_trace rc attempts vd /\
  Forall (fun e => e ∈ endpoints (config (router s))) (verdict_failed vd) /\
  match vd with
  | Served failed e resp =>
      attempts + Z.of_nat (length failed) < max_attempts rc /\
      (exists t, cache (router s')
                 = <[key := {| timestamp := t; response := resp |}]>
                     (cache (router s))) /\
      e ∈ endpoints (config (router s)) /\
      is_Some (protocol_event e) /\
      (exists n, n_reply s' = S n /\ reply w n = Some resp)
  | Unavailable failed =>
      attempts + Z.of_nat (length failed) < max_attempts rc /\
      cache (router s') = cache (router s)
  | Exhausted failed =>
      Z.of_nat (length failed) = Z.max 0 (max_attempts rc - attempts) /\
      cache (router s') = cache (router s)
  end.



(** ** Post-states of the health sweep *)

(** The time-based test of the sweep: the endpoint is OPEN and more than
    [recovery_timeout] has passed since its last failure. *)
Definition recovery_due (w : World) (e : EndpointConfig) (st : circuit)
    (s : Sys) : bool :=
  bool_decide (st = OPEN)
  && negb (Qle_bool
             (clock w (n_clock s) - dd_float (last_failure_time (router s)) (name e))
             (inject_Z (recovery_timeout (circuit_breaker (config (router s)))))).

(** The endpoint is probed: it was HALF_OPEN, or has just been promoted. *)
Definition probe_due (w : World) (e : EndpointConfig) (st : circuit)
    (s : Sys) : bool :=
  bool_decide (st = HALF_OPEN) || recovery_due w e st s.

(** State after the time-based step: the clock is read only for an OPEN
    endpoint. *)
Definition promoted (w : World) (e : EndpointConfig) (st : circuit)
    (s : Sys) : Sys :=
  if bool_decide (st = OPEN) then
    if recovery_due w e st s
    then upd_router
           (with_circuit_states (fun d => <[name e := HALF_OPEN]> d))
           (tick_clock s)
    else tick_clock s
  else s.

Definition probe_supported (e : EndpointConfig) : bool :=
  bool_decide (type e = "http"%string)
  || bool_decide (type e = "websocket"%string).

(** Result of [_check_endpoint_health] in state [s]. *)
Definition probe_healthy (w : World) (e : EndpointConfig) (s : Sys) : bool :=
  probe_supported e && probe_reply w (n_probe s).

(** State after probing a HALF_OPEN endpoint. *)
Definition probed (w : World) (e : EndpointConfig) (s : Sys) : Sys :=
  let s1 := if probe_supported e
            then tick_probe (log_event (EvProbe (name e)) s) else s in
  if probe_healthy w e s
  then reset_done (name e) HALF_OPEN s1
  else tripped w (name e) s1.

(** State after one iteration of the sweep on endpoint [e], whose
    circuit was [st]. *)
Definition health_checked (w : World) (e : EndpointConfig) (st : circuit)
    (s : Sys) : Sys :=
  if probe_due w e st s then probed w e (promoted w e st s)
  else promoted w e st s.

(** The three per-endpoint entries of the circuit breaker agree. *)
Definition same_entry (n : string) (a b : AIModelRouter) : Prop :=
  circuit_states a !! n = circuit_states b !! n /\
  failure_counts a !! n = failure_counts b !! n /\
  last_failure_time a !! n = last_failure_time b !! n.

(** State after the whole sweep: the iterations in registry order, each
    reading the circuit state its predecessors left. *)
Definition sweep_state (w : World) (l : list EndpointConfig) (s : Sys) : Sys :=
  foldl (fun s e =>
           match circuit_states (router s) !! name e with
           | Some st => health_checked w e st s
           | None => s
           end) s l.

(** What one iteration of the sweep, running from [sb] to [sa], does to
    the endpoint it visits (whose circuit was [st]): nothing if no probe
    is due; otherwise the endpoint is HALF_OPEN when the probe is issued
    (it was so already, or has just been promoted from OPEN), and ends
    CLOSED with its failure count reset (healthy), or OPEN with
    [last_failure_time] refreshed (unhealthy). *)
Definition health_outcome (w : World) (e : EndpointConfig) (st : circuit)
    (sb sa : Sys) : Prop :=
  if probe_due w e st sb then
    circuit_states (router (promoted w e st sb)) !! name e = Some HALF_OPEN /\
    trace sa = trace sb
                 ++ (if probe_supported e then [EvProbe (name e)] else []) /\
    if probe_healthy w e (promoted w e st sb) then
      circuit_states (router sa) !! name e = Some CLOSED /\
      failure_counts (router sa) !! name e = Some 0 /\
      last_failure_time (router sa) !! name e
        = last_failure_time (router sb) !! name e
    else
      circuit_states (router sa) !! name e = Some OPEN /\
      last_failure_time (router sa) !! name e
        = Some (clock w (n_clock (promoted w e st sb))) /\
      failure_counts (router sa) !! name e
        = failure_counts (router sb) !! name e
  else
    trace sa = trace sb /\ same_entry (name e) (router sa) (router sb).

(** The report of the sweep for the router [r]. *)
Definition report_of (r : AIModelRouter) (n : string) : option HealthStatus :=
  match circuit_states r !! n with
  | Some st => Some {| state := st; failures := dd_int (failure_counts r) n |}
  | None => None
  end.


(** ** Sequences of API calls *)

Inductive call :=
| CallInference (model_type data : string) (metadata : option (gmap string value))
| CallHealthCheck.

Section Calls.

Variable sha256_hexdigest : string -> string.
Variable str_sorted_items : gmap string value -> string.
Variable w : World.

(** The state a call leaves behind (also when it raises). *)
Definition run_call (c : call) (s : Sys) : Sys :=
  match c with
  | CallInference model_type data metadata =>
      snd (inference sha256_hexdigest str_sorted_items w model_type data metadata s)
  | CallHealthCheck => snd (health_check w s)
  end.

Definition run_calls (calls : list call) (s : Sys) : Sys :=
  foldl (fun s c => run_call c s) s calls.

End Calls.

(** What every API call preserves: well-formedness, the configuration,
    the metrics invariants and the entries already in the cache. *)
Definition stable (s s' : Sys) : Prop :=
  wf (router s') /\
  config (router s') = config (router s) /\
  (metrics_inv (metrics (router s)) -> metrics_inv (metrics (router s'))) /\
  cache (router s) ⊆ cache (router s').

(** ** Sample configurations and worlds

    The fixture of [tests/test_model_router.py] and small variations of
    it, used to run the model on concrete inputs. *)

Definition stt_primary : EndpointConfig :=
  {| name := "stt-primary"; url := "http://localhost:8080/stt";
     type := "http"; weight := 70; timeout := 5%Q |}.

Definition stt_backup : EndpointConfig :=
  {| name := "stt-backup"; url := "ws://localhost:8081/stt";
     type := "websocket"; weight := 30; timeout := 3%Q |}.

Definition test_config : AIModelRouterConfig :=
  {| endpoints := [stt_primary; stt_backup];
     retry_config := {| max_attempts := 3; backoff_factor := 1%Q |};
     circuit_breaker := {| failure_threshold := 2; recovery_timeout := 10 |} |}.

(** One HTTP endpoint of weight 100, threshold 2 (scenario of section 8). *)
Definition single_config : AIModelRouterConfig :=
  {| endpoints := [{| name := "only"; url := "http://localhost:8080/stt";
                      type := "http"; weight := 100; timeout := 5%Q |}];
     retry_config := {| max_attempts := 3; backoff_factor := 2%Q |};
     circuit_breaker := {| failure_threshold := 2; recovery_timeout := 30 |} |}.

(** Two candidates with weights 0 and 10. *)
Definition ep_zero : EndpointConfig :=
  {| name := "A"; url := "http://localhost:8080/a";
     type := "http"; weight := 0; timeout := 5%Q |}.

Definition ep_ten : EndpointConfig :=
  {| name := "B"; url := "http://localhost:8080/b";
     type := "http"; weight := 10; timeout := 5%Q |}.

Definition zero_ten_config : AIModelRouterConfig :=
  {| endpoints := [ep_zero; ep_ten];
     retry_config := {| max_attempts := 3; backoff_factor := 2%Q |};
     circuit_breaker := {| failure_threshold := 5; recovery_timeout := 30 |} |}.

(** A world where every transport call and every probe fails, the clock
    advances by one second per reading and the generator draws 0. *)
Definition world_down : World :=
  {| clock := fun n => inject_Z (Z.of_nat n);
     entropy := fun _ => 0;
     reply := fun _ => None;
     probe_reply := fun _ => false |}.

Definition ok_response : value := VDict [("result"%string, VStr "ok")].

(** A world where every transport call and every probe succeeds. *)
Definition world_up : World :=
  {| clock := fun n => inject_Z (Z.of_nat n);
     entropy := fun _ => 0;
     reply := fun _ => Some ok_response;
     probe_reply := fun _ => true |}.

(** The first transport call fails, all later ones succeed. *)
Definition world_flaky : World :=
  {| clock := fun n => inject_Z (Z.of_nat n);
     entropy := fun _ => 0;
     reply := fun n => match n with O => None | _ => Some ok_response end;
     probe_reply := fun _ => true |}.

(** The identity stands in for the hash and the renderer when running
    the model (any two functions do). *)
Definition run_inference (w : World) (model_type data : string)
    (metadata : option (gmap string value)) : M value :=
  inference (fun x => x) (fun _ => EmptyString) w model_type data metadata.

(** The single-endpoint router after two calls with a payload that
    always fails. *)
Definition after_two_failures : Sys :=
  run_calls (fun x => x) (fun _ => EmptyString) world_down
    [CallInference "stt" "payload" None; CallInference "stt" "payload" None]
    (boot single_config).

Definition only_endpoint : EndpointConfig :=
  {| name := "only"; url := "http://localhost:8080/stt";
     type := "http"; weight := 100; timeout := 5%Q |}.

(** Metadata naming the single endpoint as the preferred one. *)
Definition prefer_only : option (gmap string value) :=
  Some {[ "endpoint_pref"%string := VStr "only" ]}.

(** A world whose clock starts late enough for any recovery timeout of
    the sample configurations to have elapsed; probes succeed. *)
Definition world_later : World :=
  {| clock := fun n => inject_Z (1000 + Z.of_nat n);
     entropy := fun _ => 0;
     reply := fun _ => Some ok_response;
     probe_reply := fun _ => true |}.


(** ** The dispatch loop as a relation

    [loop_run w key md attempts tried s vd s'] : started with the given
    attempt count and tried-list in state [s], the [while] loop of
    [inference] ends in state [s'] with verdict [vd].  One constructor per
    way an iteration can go; the premises are the tests the code makes. *)
Inductive loop_run (w : World) (key : string)
    (md : option (gmap string value))
    : Z -> list string -> Sys -> verdict -> Sys -> Prop :=
| loop_exhausted attempts tried s :
    max_attempts (retry_config (config (router s))) <= attempts ->
    loop_run w key md attempts tried s (Exhausted []) s
| loop_unavailable attempts tried s s1 :
    wf (router s) ->
    attempts < max_attempts (retry_config (config (router s))) ->
    pick_endpoint w attempts md tried s = (Return None, s1) ->
    loop_run w key md attempts tried s (Unavailable []) s1
| loop_served attempts tried s s1 e st m ev resp :
    wf (router s) ->
    attempts < max_attempts (retry_config (config (router s))) ->
    pick_endpoint w attempts md tried s = (Return (Some e), s1) ->
    circuit_states (router s) !! name e = Some st ->
    metrics (router s) !! name e = Some m ->
    protocol_event e = Some ev ->
    reply w (n_reply s1) = Some resp ->
    loop_run w key md attempts tried s (Served [] e resp)
      (attempt_succeeded w key e (clock w (n_clock s1)) resp st m (tick_clock s1))
| loop_failed attempts tried s s1 e st m vd s' :
    wf (router s) ->
    attempts < max_attempts (retry_config (config (router s))) ->
    pick_endpoint w attempts md tried s = (Return (Some e), s1) ->
    circuit_states (router s) !! name e = Some st ->
    metrics (router s) !! name e = Some m ->
    protocol_event e = None \/ reply w (n_reply s1) = None ->
    loop_run w key md (attempts + 1) (tried ++ [name e])
      (attempt_failed w e (clock w (n_clock s1)) attempts st m (tick_clock s1))
      vd s' ->
    loop_run w key md attempts tried s (verdict_cons e vd) s'.

(** The endpoints a call sent (or tried to send) a request to, in order. *)
Definition attempted (vd : verdict) : list EndpointConfig :=
  verdict_failed vd
    ++ match vd with
       | Served _ e _ => [e]
       | _ => []
       end.

(** Number of [asyncio.sleep] events in a trace. *)
Definition count_sleeps (evs : list event) : nat :=
  length (List.filter (fun ev => match ev with EvSleep _ => true | _ => false end) evs).

(** The event is a transport call to, or a probe of, the named endpoint. *)
Definition event_endpoint (ev : event) : option string :=
  match ev with
  | EvHttp n | EvWebsocket n | EvProbe n => Some n
  | EvSleep _ => None
  end.

(** How many endpoints of the list carry the name [k]. *)
Definition hits (k : string) (l : list EndpointConfig) : Z :=
  Z.of_nat (length (List.filter (fun e => bool_decide (name e = k)) l)).

(** An event [inference] may emit: a sleep, or a transport call to one of
    the given endpoint names; never a probe. *)
Definition dispatch_event (names : list string) (ev : event) : Prop :=
  match ev with
  | EvHttp n | EvWebsocket n => n ∈ names
  | EvSleep _ => True
  | EvProbe _ => False
  end.

(** An event [health_check] may emit: a probe of one of the given names. *)
Definition probe_event (names : list string) (ev : event) : Prop :=
  match ev with
  | EvProbe n => n ∈ names
  | _ => False
  end.

(** ** Invariants of reachable router states *)

(** The router never gains or loses an endpoint: the configuration and
    the total weight are those of construction, and the keys of the
    per-endpoint dicts are endpoint names. *)
Definition shape_inv (cfg : AIModelRouterConfig) (r : AIModelRouter) : Prop :=
  config r = cfg /\
  total_weight r = sum_weights (endpoints cfg) /\
  (forall k, is_Some (circuit_states r !! k) <-> k ∈ map name (endpoints cfg)) /\
  (forall k, is_Some (metrics r !! k) <-> k ∈ map name (endpoints cfg)) /\
  (forall k, is_Some (failure_counts r !! k) -> k ∈ map name (endpoints cfg)) /\
  (forall k, is_Some (last_failure_time r !! k) -> k ∈ map name (endpoints cfg)).

(** A circuit that is not CLOSED has a recorded failure time. *)
Definition open_recorded (r : AIModelRouter) : Prop :=
  forall n st,
    circuit_states r !! n = Some st -> st <> CLOSED ->
    is_Some (last_failure_time r !! n).

(** Failure counts are never negative, and a CLOSED circuit has fewer
    recorded failures than the threshold. *)
Definition counts_bounded (r : AIModelRouter) : Prop :=
  1 <= failure_threshold (circuit_breaker (config r)) /\
  forall n,
    0 <= dd_int (failure_counts r) n /\
    (circuit_states r !! n = Some CLOSED ->
     dd_int (failure_counts r) n < failure_threshold (circuit_breaker (config r))).

(** The metrics dict of a freshly constructed endpoint. *)
Definition zero_metrics : Metrics :=
  {| request_count := 0; success_count := 0; error_count := 0;
     total_latency := 0%Q; average_latency := 0%Q |}.

(** No circuit is HALF_OPEN. *)
Definition settled (r : AIModelRouter) : Prop :=
  forall n, circuit_states r !! n <> Some HALF_OPEN.

(** A single endpoint whose weight is negative. *)
Definition ep_negative : EndpointConfig :=
  {| name := "N"; url := "http://localhost:8080/n";
     type := "http"; weight := -1; timeout := 5%Q |}.

Definition negative_config : AIModelRouterConfig :=
  {| endpoints := [ep_negative];
     retry_config := {| max_attempts := 3; backoff_factor := 2%Q |};
     circuit_breaker := {| failure_threshold := 5; recovery_timeout := 30 |} |}.

(** The fixture with [max_attempts = 0]. *)
Definition no_attempts_config : AIModelRouterConfig :=
  {| endpoints := [stt_primary; stt_backup];
     retry_config := {| max_attempts := 0; backoff_factor := 1%Q |};
     circuit_breaker := {| failure_threshold := 2; recovery_timeout := 10 |} |}.

(** An endpoint whose protocol the router does not implement. *)
Definition ep_grpc : EndpointConfig :=
  {| name := "G"; url := "grpc://localhost:8082/stt";
     type := "grpc"; weight := 10; timeout := 5%Q |}.

Definition grpc_config : AIModelRouterConfig :=
  {| endpoints := [ep_grpc];
     retry_config := {| max_attempts := 3; backoff_factor := 2%Q |};
     circuit_breaker := {| failure_threshold := 2; recovery_timeout := 30 |} |}.

(** The router of [grpc_config] with its endpoint's circuit tripped. *)
Definition grpc_tripped : Sys := tripped world_down "G" (boot grpc_config).


(** * Properties *)

Arguments dd_int _ _ /.
Arguments dd_float _ _ /.

(** Unfolds the monad's plumbing. *)
Ltac monad_unfold :=
  repeat progress
    (unfold bind, ret, raise, try_except, get_router, modify_router, emit,
       dict_get, asyncio_sleep in *;
     cbv beta iota in *).

Section CircuitBreaker.

Variable w : World.

(** ** Tripping and resetting *)

Lemma trip_circuit_run (n : string) (s : Sys) :
  _trip_circuit w n s = (Return tt, tripped w n s).
Proof. reflexivity. Qed.

Lemma reset_circuit_run (n : string) (s : Sys) (st : circuit) :
  circuit_states (router s) !! n = Some st ->
  _reset_circuit n s = (Return tt, reset_done n st s).
Proof.
  intros Hst. unfold _reset_circuit, reset_done. monad_unfold. rewrite Hst.
  destruct st; reflexivity.
Qed.

Lemma handle_failure_run (n : string) (s : Sys) (st : circuit) :
  circuit_states (router s) !! n = Some st ->
  _handle_failure w n s = (Return tt, failure_handled w n st s).
Proof.
  intros Hst. unfold _handle_failure, failure_handled. monad_unfold. rewrite Hst.
  destruct st; simpl; try reflexivity.
  rewrite lookup_insert_eq. simpl.
  destruct (_ <=? _); reflexivity.
Qed.

(** C10. A failure recorded for an endpoint whose circuit is already OPEN
    changes nothing: the handler returns normally and the whole system
    state, hence the circuit state, the failure count and the last
    failure time of that endpoint, is the one before the call. *)
Theorem handle_failure_open_noop (n : string) (s : Sys) :
  circuit_states (router s) !! n = Some OPEN ->
  exists s',
    _handle_failure w n s = (Return tt, s') /\
    s' = s /\
    circuit_states (router s') !! n = Some OPEN /\
    dd_int (failure_counts (router s')) n = dd_int (failure_counts (router s)) n /\
    failure_counts (router s') !! n = failure_counts (router s) !! n /\
    last_failure_time (router s') !! n = last_failure_time (router s) !! n.
Proof.
  intros Hopen. exists s.
  rewrite (handle_failure_run n s OPEN Hopen).
  repeat split; auto.
Qed.

End CircuitBreaker.

(** ** The float range *)

Lemma float_limit_pos : 0 < float_limit.
Proof. vm_compute. reflexivity. Qed.

Lemma float_ok_0 : float_ok 0 = true.
Proof. vm_compute. reflexivity. Qed.

Lemma float_ok_spec (z : Z) : float_ok z = true <-> Z.abs z < float_limit.
Proof. unfold float_ok. apply Z.ltb_lt. Qed.

Section Selector.

Variable w : World.

Lemma sum_weights_from (acc : Z) (l : list EndpointConfig) :
  foldl (fun a e => a + weight e) acc l = acc + sum_weights l.
Proof.
  unfold sum_weights. revert acc.
  induction l as [|e l IH]; intros acc; simpl; [lia|].
  rewrite (IH (acc + weight e)), (IH (0 + weight e)). lia.
Qed.

Lemma sum_weights_cons (e : EndpointConfig) (l : list EndpointConfig) :
  sum_weights (e :: l) = weight e + sum_weights l.
Proof. unfold sum_weights at 1. simpl. rewrite sum_weights_from. lia. Qed.

Lemma sum_weights_nonneg (l : list EndpointConfig) :
  Forall (fun e => 0 <= weight e) l -> 0 <= sum_weights l.
Proof.
  induction 1 as [|e l He _ IH]; [reflexivity|].
  rewrite sum_weights_cons. lia.
Qed.


(** *** The random draw *)

Lemma unit_interval_range (raw : Z) :
  (0 <= unit_interval raw)%Q /\ (unit_interval raw < 1)%Q.
Proof.
  unfold unit_interval, Qle, Qlt. simpl.
  pose proof (Z.mod_pos_bound raw (2 ^ 53) ltac:(lia)) as Hb.
  change (Z.pos (2 ^ 53)) with (2 ^ 53). lia.
Qed.

Lemma uniform_value_0 (total raw : Z) :
  (uniform_value 0 total raw == inject_Z total * unit_interval raw)%Q.
Proof. unfold uniform_value. rewrite Z.sub_0_r. ring. Qed.


(** *** The comprehension and the walk *)

Lemma active_endpoints_run (r : AIModelRouter) (ex : list string)
    (l : list EndpointConfig) (s : Sys) :
  Forall (fun e => is_Some (circuit_states r !! name e)) l ->
  active_endpoints r ex l s = (Return (List.filter (is_candidate r ex) l), s).
Proof.
  induction 1 as [|e l [st Hst] _ IH]; [reflexivity|].
  simpl. unfold is_candidate at 1. monad_unfold. rewrite Hst.
  monad_unfold. rewrite IH.
  destruct (negb (bool_decide (st = OPEN)) && negb (bool_decide (name e ∈ ex)));
    reflexivity.
Qed.

Lemma active_endpoints_keys (r : AIModelRouter) (ex : list string)
    (l : list EndpointConfig) (s s' : Sys) (act : list EndpointConfig) :
  active_endpoints r ex l s = (Return act, s') ->
  Forall (fun e => is_Some (circuit_states r !! name e)) l.
Proof.
  revert act s'. induction l as [|e l IH]; intros act s' Hrun; [constructor|].
  simpl in Hrun. monad_unfold.
  destruct (circuit_states r !! name e) as [st|] eqn:Hst; [|discriminate].
  destruct (active_endpoints r ex l s) as [[tl|x] s1] eqn:Htl; [|discriminate].
  constructor; [eauto | eapply IH; reflexivity].
Qed.

Lemma candidates_spec (r : AIModelRouter) (ex : list string) (e : EndpointConfig) :
  e ∈ candidates r ex <->
  e ∈ endpoints (config r) /\
  (exists st, circuit_states r !! name e = Some st /\ st <> OPEN) /\
  name e ∉ ex.
Proof.
  unfold candidates. rewrite !list_elem_of_In, filter_In, <- !list_elem_of_In.
  unfold is_candidate.
  destruct (circuit_states r !! name e) as [st|].
  - rewrite andb_true_iff, !negb_true_iff, !bool_decide_eq_false.
    split.
    + intros (? & ? & ?). eauto 6.
    + intros (? & (st' & [= <-] & ?) & ?). auto.
  - split; [intros [_ [=]] | intros (_ & (st & [=] & _) & _)].
Qed.


Lemma walk_weights_in (sel : Q) (l : list EndpointConfig) (cur : Z)
    (e : EndpointConfig) :
  walk_weights sel cur l = Some e -> e ∈ l.
Proof.
  revert cur. induction l as [|x l IH]; intros cur; simpl; [discriminate|].
  destruct (Qle_bool _ _).
  - intros [= ->]. constructor.
  - intros H. constructor. eapply IH, H.
Qed.


Lemma random_choice_run {A} (seq : list A) (s : Sys) :
  seq <> [] ->
  exists x,
    seq !! Z.to_nat (entropy w (n_entropy s) mod Z.of_nat (length seq)) = Some x /\
  random_choice w seq s = (Return x, tick_entropy s).
Proof.
  intros Hne.
  assert (0 < Z.of_nat (length seq)) as Hlen by (destruct seq; simpl; [congruence | lia]).
  pose proof (Z.mod_pos_bound (entropy w (n_entropy s)) _ Hlen) as Hb.
  destruct (seq !! Z.to_nat (entropy w (n_entropy s) mod Z.of_nat (length seq)))
    as [x|] eqn:Hx.
  - exists x. split; [reflexivity|].
    unfold random_choice. destruct seq; [congruence|].
    unfold random_raw. monad_unfold. cbv beta. rewrite Hx. reflexivity.
  - apply lookup_ge_None in Hx. lia.
Qed.

(** The Selector on a well-formed router: it never raises, consumes one
    raw draw exactly when there are candidates, and leaves the router
    untouched. *)
Lemma select_endpoint_outcome (ex : list string) (s : Sys) :
  Forall (fun e => is_Some (circuit_states (router s) !! name e))
         (endpoints (config (router s))) ->
  _select_endpoint w ex s =
    (select_outcome (router s) ex (entropy w (n_entropy s)),
     match candidates (router s) ex with [] => s | _ => tick_entropy s end).
Proof.
  intros Hkeys. unfold _select_endpoint, select_outcome, select_pure.
  unfold bind at 1, get_router. unfold bind at 1.
  rewrite (active_endpoints_run _ ex _ s Hkeys).
  fold (candidates (router s) ex).
  destruct (candidates (router s) ex) as [|c cs] eqn:Hact; [reflexivity|].
  destruct (sum_weights (c :: cs) =? 0) eqn:Hz.
  - apply Z.eqb_eq in Hz. rewrite Hz, float_ok_0.
    destruct (random_choice_run (c :: cs) s) as (x & Hx & Hrun); [congruence|].
    unfold bind. rewrite Hrun, Hx. reflexivity.
  - unfold random_uniform, bind, random_raw.
    rewrite Z.sub_0_r, float_ok_0, andb_true_r.
    destruct (float_ok (sum_weights (c :: cs))); reflexivity.
Qed.

Lemma select_endpoint_run (ex : list string) (s : Sys) :
  Forall (fun e => is_Some (circuit_states (router s) !! name e))
         (endpoints (config (router s))) ->
  float_ok (sum_weights (candidates (router s) ex)) = true ->
  _select_endpoint w ex s =
    (Return (select_pure (router s) ex (entropy w (n_entropy s))),
     match candidates (router s) ex with [] => s | _ => tick_entropy s end).
Proof.
  intros Hkeys Hok. rewrite (select_endpoint_outcome ex s Hkeys).
  unfold select_outcome. rewrite Hok. reflexivity.
Qed.

Lemma select_endpoint_inv (ex : list string) (s s' : Sys)
    (res : option EndpointConfig) :
  _select_endpoint w ex s = (Return res, s') ->
  res = select_pure (router s) ex (entropy w (n_entropy s)) /\
  s' = match candidates (router s) ex with [] => s | _ => tick_entropy s end.
Proof.
  intros Hrun.
  assert (Forall (fun e => is_Some (circuit_states (router s) !! name e))
                 (endpoints (config (router s)))) as Hkeys.
  { unfold _select_endpoint in Hrun. unfold bind at 1, get_router in Hrun.
    unfold bind at 1 in Hrun.
    destruct (active_endpoints (router s) ex (endpoints (config (router s))) s)
      as [[act|x] s1] eqn:Hact; [|discriminate].
    eapply active_endpoints_keys, Hact. }
  rewrite (select_endpoint_outcome ex s Hkeys) in Hrun.
  unfold select_outcome in Hrun.
  destruct (float_ok (sum_weights (candidates (router s) ex)));
    inversion Hrun; auto.
Qed.


Lemma select_pure_in (r : AIModelRouter) (ex : list string) (raw : Z)
    (e : EndpointConfig) :
  select_pure r ex raw = Some e -> e ∈ candidates r ex.
Proof.
  unfold select_pure.
  destruct (candidates r ex) as [|c cs] eqn:Hact; [discriminate|].
  destruct (sum_weights (c :: cs) =? 0).
  - intros Hx. eapply list_elem_of_lookup_2, Hx.
  - apply walk_weights_in.
Qed.


(** The total weight of any selection of the endpoints is bounded by the
    sum of the absolute weights. *)
Lemma sum_weights_filter_bound (f : EndpointConfig -> bool)
    (l : list EndpointConfig) :
  Z.abs (sum_weights (List.filter f l)) <= total_abs_weight l.
Proof.
  induction l as [|e l IH]; simpl; [reflexivity|].
  destruct (f e); [rewrite sum_weights_cons|]; lia.
Qed.

Lemma candidates_float_ok (r : AIModelRouter) (ex : list string) :
  weights_in_range (config r) ->
  float_ok (sum_weights (candidates r ex)) = true.
Proof.
  intros Hr. apply float_ok_spec. unfold candidates.
  pose proof (sum_weights_filter_bound (is_candidate r ex) (endpoints (config r))).
  unfold weights_in_range in Hr. lia.
Qed.

End Selector.

Lemma wf_entries (r : AIModelRouter) : wf r -> has_entries r.
Proof. intros [H _]. exact H. Qed.

Lemma wf_range (r : AIModelRouter) : wf r -> in_float_range (config r).
Proof. intros [_ H]. exact H. Qed.

Lemma has_entries_keys (r : AIModelRouter) :
  has_entries r ->
  Forall (fun e => is_Some (circuit_states r !! name e)) (endpoints (config r)).
Proof. intros H. eapply Forall_impl; [exact H | intros e [He _]; exact He]. Qed.

Section SelectorClaims.

Variable w : World.

(** C5. A failed dispatch recorded by [_handle_failure]: on a CLOSED
    circuit the failure count goes up by one, and if it thereby reaches
    [failure_threshold] the circuit becomes OPEN and [last_failure_time]
    is set to the current time, otherwise it stays CLOSED; on a HALF_OPEN
    circuit a single failure reopens it and records the time.  Whenever
    an endpoint's circuit is OPEN, the Selector does not return it. *)
Theorem handle_failure_spec (n : string) (s : Sys) (st : circuit) :
  circuit_states (router s) !! n = Some st ->
  exists s',
    _handle_failure w n s = (Return tt, s') /\
    (st = CLOSED ->
       dd_int (failure_counts (router s')) n
         = dd_int (failure_counts (router s)) n + 1 /\
       (failure_threshold (circuit_breaker (config (router s)))
          <= dd_int (failure_counts (router s)) n + 1 ->
        circuit_states (router s') !! n = Some OPEN /\
        last_failure_time (router s') !! n = Some (clock w (n_clock s))) /\
       (dd_int (failure_counts (router s)) n + 1
          < failure_threshold (circuit_breaker (config (router s))) ->
        circuit_states (router s') !! n = Some CLOSED /\
        last_failure_time (router s') = last_failure_time (router s))) /\
    (st = HALF_OPEN ->
       circuit_states (router s') !! n = Some OPEN /\
       last_failure_time (router s') !! n = Some (clock w (n_clock s)) /\
       failure_counts (router s') = failure_counts (router s)) /\
    (forall ex s1 s2 e,
       circuit_states (router s1) !! n = Some OPEN ->
       _select_endpoint w ex s1 = (Return (Some e), s2) ->
       name e <> n).
Proof.
  intros Hst. rewrite (handle_failure_run w n s st Hst).
  assert (forall ex s1 s2 e,
            circuit_states (router s1) !! n = Some OPEN ->
            _select_endpoint w ex s1 = (Return (Some e), s2) ->
            name e <> n) as Hsel.
  { intros ex s1 s2 e Hopen Hrun Hname.
    apply select_endpoint_inv in Hrun as [Hres _].
    symmetry in Hres. apply select_pure_in, candidates_spec in Hres.
    destruct Hres as (_ & (st' & Hst' & Hno) & _).
    rewrite Hname, Hopen in Hst'. congruence. }
  destruct st; unfold failure_handled.
  - (* CLOSED *)
    cbv zeta.
    destruct (failure_threshold _ <=? _) eqn:Hth.
    + apply Z.leb_le in Hth.
      eexists. split; [reflexivity|]. split; [|split; [discriminate | exact Hsel]].
      intros _. simpl. rewrite !lookup_insert_eq. simpl.
      split; [reflexivity|]. split; [auto | unfold dd_int in *; intros; lia].
    + apply Z.leb_gt in Hth.
      eexists. split; [reflexivity|]. split; [|split; [discriminate | exact Hsel]].
      intros _. simpl. rewrite !lookup_insert_eq. simpl.
      split; [reflexivity|]. split; [unfold dd_int in *; intros; lia | auto].
  - (* OPEN *)
    eexists. split; [reflexivity|]. repeat split; try discriminate. exact Hsel.
  - (* HALF_OPEN *)
    eexists. split; [reflexivity|]. split; [discriminate|]. split; [|exact Hsel].
    intros _. simpl. rewrite !lookup_insert_eq. auto.
Qed.

End SelectorClaims.

Lemma handle_failure_spec_witness :
  exists s',
    _handle_failure world_down "stt-primary" (boot test_config) = (Return tt, s') /\
    dd_int (failure_counts (router s')) "stt-primary" = 1.
Proof.
  destruct (handle_failure_spec world_down "stt-primary" (boot test_config) CLOSED)
    as (s' & Hrun & Hclosed & _); [reflexivity|].
  exists s'. split; [exact Hrun|].
  destruct (Hclosed eq_refl) as [Hcount _]. exact Hcount.
Defined.


Lemma handle_failure_open_noop_witness :
  circuit_states (router after_two_failures) !! "only"%string = Some OPEN /\
  fst (_handle_failure world_down "only" after_two_failures) = Return tt /\
  snd (_handle_failure world_down "only" after_two_failures) = after_two_failures.
Proof.
  assert (circuit_states (router after_two_failures) !! "only"%string = Some OPEN)
    as Hopen by (vm_compute; reflexivity).
  split; [exact Hopen|].
  destruct (handle_failure_open_noop world_down "only" after_two_failures Hopen)
    as (s' & Hrun & Heq & _).
  rewrite Hrun. simpl. auto.
Defined.

Section SelectorSpec.

Variable w : World.



End SelectorSpec.

Lemma has_entries_init (cfg : AIModelRouterConfig) : has_entries (init cfg).
Proof.
  unfold has_entries, init. simpl.
  assert (forall (l : list EndpointConfig) (A : Type) (v : EndpointConfig -> A)
                 (d : gmap string A) (k : string),
            (is_Some (d !! k) \/ k ∈ map name l) ->
            is_Some (foldl (fun d e => <[name e := v e]> d) d l !! k)) as Hfold.
  { induction l as [|e l IH]; intros A v d k Hk; simpl.
    - destruct Hk as [Hk|Hk]; [exact Hk | inversion Hk].
    - apply IH. destruct (decide (name e = k)) as [<-|Hne].
      + left. rewrite lookup_insert_eq. eauto.
      + rewrite lookup_insert_ne by exact Hne.
        destruct Hk as [Hk|Hk]; [auto|].
        inversion Hk; subst; [congruence | auto]. }
  apply Forall_forall. intros e He.
  split; apply Hfold; right; apply list_elem_of_fmap_2; exact He.
Qed.

Lemma wf_init (cfg : AIModelRouterConfig) :
  in_float_range cfg -> wf (init cfg).
Proof. intros Hr. split; [apply has_entries_init | exact Hr]. Qed.

(** The sample configurations are within the float range. *)
Lemma backoff_in_range_3 (bf : Q) :
  pow_ok bf 1 = true -> pow_ok bf 2 = true ->
  backoff_in_range {| max_attempts := 3; backoff_factor := bf |}.
Proof.
  intros H1 H2 k Hk. simpl in Hk.
  assert (k = 1 \/ k = 2) as [-> | ->] by lia; assumption.
Qed.

Lemma test_config_range : in_float_range test_config.
Proof.
  split; [vm_compute; reflexivity|].
  apply backoff_in_range_3; vm_compute; reflexivity.
Qed.

Lemma single_config_range : in_float_range single_config.
Proof.
  split; [vm_compute; reflexivity|].
  apply backoff_in_range_3; vm_compute; reflexivity.
Qed.

Lemma zero_ten_config_range : in_float_range zero_ten_config.
Proof.
  split; [vm_compute; reflexivity|].
  apply backoff_in_range_3; vm_compute; reflexivity.
Qed.



(** ** One dispatch attempt *)

Section Attempt.

Variable w : World.

Lemma update_metrics_run (n : string) (latency : Q) (success : bool)
    (s : Sys) (m : Metrics) :
  metrics (router s) !! n = Some m ->
  _update_metrics n latency success s =
    (Return tt,
     upd_router (with_metrics (fun d => <[n := bump_metrics m latency success]> d)) s).
Proof.
  intros Hm. unfold _update_metrics. monad_unfold. rewrite Hm. reflexivity.
Qed.

Lemma transport_call_run (e : EndpointConfig) (data : string)
    (md : option (gmap string value)) (s : Sys) :
  transport_call w e data md s =
    match protocol_event e with
    | Some _ =>
        match reply w (n_reply s) with
        | Some resp => (Return resp, attempt_sent e s)
        | None => (Raise TransportError, attempt_sent e s)
        end
    | None => (Raise ValueError, attempt_sent e s)
    end.
Proof.
  unfold transport_call, attempt_sent, protocol_event.
  unfold _make_http_request, _make_websocket_request, transport_io.
  destruct (bool_decide (type e = "http"%string)).
  - monad_unfold. simpl. destruct (reply w (n_reply s)); reflexivity.
  - destruct (bool_decide (type e = "websocket"%string)); [|reflexivity].
    monad_unfold. simpl. destruct (reply w (n_reply s)); reflexivity.
Qed.

(** The request leaves the router object alone. *)
Lemma attempt_sent_router (e : EndpointConfig) (s : Sys) :
  router (attempt_sent e s) = router s.
Proof. unfold attempt_sent. destruct (protocol_event e); reflexivity. Qed.

Lemma attempt_sent_clock (e : EndpointConfig) (s : Sys) :
  n_clock (attempt_sent e s) = n_clock s.
Proof. unfold attempt_sent. destruct (protocol_event e); reflexivity. Qed.

Lemma dispatch_try_ok (key : string) (e : EndpointConfig) (data : string)
    (md : option (gmap string value)) (t0 : Q) (s : Sys)
    (st : circuit) (m : Metrics) (resp : value) :
  circuit_states (router s) !! name e = Some st ->
  metrics (router s) !! name e = Some m ->
  is_Some (protocol_event e) ->
  reply w (n_reply s) = Some resp ->
  dispatch_try w key e data md t0 s
    = (Return resp, attempt_succeeded w key e t0 resp st m s).
Proof.
  intros Hst Hm [ev Hev] Hreply.
  unfold dispatch_try, attempt_succeeded.
  unfold bind at 1, get_router. unfold bind at 1, dict_get. rewrite Hst.
  unfold ret at 1. unfold bind at 1.
  rewrite transport_call_run, Hev, Hreply.
  unfold bind at 1, time_time. unfold bind at 1.
  rewrite (update_metrics_run _ _ _ _ m)
    by (simpl; rewrite attempt_sent_router; exact Hm).
  unfold bind at 1.
  rewrite (reset_circuit_run _ _ st)
    by (simpl; rewrite attempt_sent_router; exact Hst).
  reflexivity.
Qed.

Lemma dispatch_try_fail (key : string) (e : EndpointConfig) (data : string)
    (md : option (gmap string value)) (t0 : Q) (s : Sys) (st : circuit) :
  circuit_states (router s) !! name e = Some st ->
  protocol_event e = None \/ reply w (n_reply s) = None ->
  exists x, dispatch_try w key e data md t0 s = (Raise x, attempt_sent e s).
Proof.
  intros Hst Hfail.
  unfold dispatch_try.
  unfold bind at 1, get_router. unfold bind at 1, dict_get. rewrite Hst.
  unfold ret at 1. unfold bind at 1.
  rewrite transport_call_run.
  destruct (protocol_event e) as [ev|] eqn:Hev.
  - destruct Hfail as [?|Hreply]; [discriminate|]. rewrite Hreply. eauto.
  - eauto.
Qed.

Lemma dispatch_except_outcome (e : EndpointConfig) (t0 : Q) (attempts : Z)
    (s : Sys) (st : circuit) (m : Metrics) :
  circuit_states (router s) !! name e = Some st ->
  metrics (router s) !! name e = Some m ->
  dispatch_except w e t0 attempts (attempt_sent e s)
    = if backoff_ok
           (retry_config (config (router (attempt_recorded w e t0 st m s))))
           (attempts + 1)
      then (Return (attempts + 1), attempt_failed w e t0 attempts st m s)
      else (Raise OverflowError, attempt_recorded w e t0 st m s).
Proof.
  intros Hst Hm. unfold dispatch_except, attempt_failed, attempt_recorded, backoff_ok.
  unfold bind at 1, time_time. unfold bind at 1.
  rewrite (update_metrics_run _ _ _ _ m)
    by (simpl; rewrite attempt_sent_router; exact Hm).
  unfold bind at 1.
  rewrite (handle_failure_run _ _ _ st)
    by (simpl; rewrite attempt_sent_router; exact Hst).
  unfold bind at 1, get_router. cbv zeta.
  destruct (attempts + 1 <? _); [|reflexivity].
  unfold bind, float_pow. simpl negb. rewrite orb_false_l.
  destruct (pow_ok _ _); reflexivity.
Qed.

Lemma failure_handled_config (n : string) (st : circuit) (s : Sys) :
  config (router (failure_handled w n st s)) = config (router s).
Proof.
  unfold failure_handled. destruct st; [|reflexivity..].
  cbv zeta. destruct (_ <=? _); reflexivity.
Qed.

Lemma attempt_recorded_config (e : EndpointConfig) (t0 : Q) (st : circuit)
    (m : Metrics) (s : Sys) :
  config (router (attempt_recorded w e t0 st m s)) = config (router s).
Proof.
  unfold attempt_recorded. cbv zeta. rewrite failure_handled_config.
  simpl. rewrite attempt_sent_router. reflexivity.
Qed.

Lemma dispatch_except_run (e : EndpointConfig) (t0 : Q) (attempts : Z)
    (s : Sys) (st : circuit) (m : Metrics) :
  circuit_states (router s) !! name e = Some st ->
  metrics (router s) !! name e = Some m ->
  backoff_ok (retry_config (config (router s))) (attempts + 1) = true ->
  dispatch_except w e t0 attempts (attempt_sent e s)
    = (Return (attempts + 1), attempt_failed w e t0 attempts st m s).
Proof.
  intros Hst Hm Hok. rewrite (dispatch_except_outcome e t0 attempts s st m Hst Hm).
  rewrite attempt_recorded_config, Hok. reflexivity.
Qed.

End Attempt.

Section AttemptClaims.

Variable w : World.

(** C1 (amended). A successful dispatch to an endpoint leaves its circuit
    CLOSED.  If the circuit was not CLOSED before (HALF_OPEN, or OPEN when
    reached through the preference), the failure count is reset to 0; if
    it was already CLOSED, the failure counts are left as they were. *)
Theorem dispatch_success_circuit (key : string) (e : EndpointConfig)
    (data : string) (md : option (gmap string value)) (t0 : Q)
    (s s' : Sys) (resp : value) :
  dispatch_try w key e data md t0 s = (Return resp, s') ->
  exists st,
    circuit_states (router s) !! name e = Some st /\
    circuit_states (router s') !! name e = Some CLOSED /\
    (st <> CLOSED -> dd_int (failure_counts (router s')) (name e) = 0) /\
    (st = CLOSED -> failure_counts (router s') = failure_counts (router s)).
Proof.
  intros Hrun.
  destruct (circuit_states (router s) !! name e) as [st|] eqn:Hst.
  2:{ unfold dispatch_try in Hrun. unfold bind at 1, get_router in Hrun.
      unfold bind at 1, dict_get in Hrun. rewrite Hst in Hrun. discriminate. }
  destruct (protocol_event e) as [ev|] eqn:Hev.
  2:{ destruct (dispatch_try_fail w key e data md t0 s st Hst) as [x Hx]; [auto|].
      congruence. }
  destruct (reply w (n_reply s)) as [r|] eqn:Hreply.
  2:{ destruct (dispatch_try_fail w key e data md t0 s st Hst) as [x Hx]; [auto|].
      congruence. }
  destruct (metrics (router s) !! name e) as [m|] eqn:Hm.
  2:{ unfold dispatch_try in Hrun. unfold bind at 1, get_router in Hrun.
      unfold bind at 1, dict_get in Hrun. rewrite Hst in Hrun.
      unfold ret at 1 in Hrun. unfold bind at 1 in Hrun.
      rewrite transport_call_run, Hev, Hreply in Hrun.
      unfold bind at 1, time_time in Hrun. unfold bind at 1 in Hrun.
      unfold _update_metrics in Hrun. monad_unfold. simpl in Hrun.
      rewrite attempt_sent_router, Hm in Hrun. discriminate. }
  rewrite (dispatch_try_ok w key e data md t0 s st m r Hst Hm) in Hrun
    by (rewrite ?Hev; eauto).
  injection Hrun as _ <-.
  exists st. split; [reflexivity|].
  unfold attempt_succeeded, reset_done.
  destruct st; simpl; rewrite ?attempt_sent_router, ?lookup_insert_eq;
    repeat split; auto; congruence.
Qed.

Lemma find_never {A} (l : list A) : List.find (fun _ => false) l = None.
Proof. induction l; [reflexivity | exact IHl]. Qed.

(** C2 (amended). On the first attempt ([attempts = 0]) a preference
    naming a known endpoint is used directly: the first endpoint with that
    name is the endpoint of the attempt whatever its circuit state, and no
    random draw is made.  In every other case (a later attempt, no
    metadata, empty metadata, no [endpoint_pref] key, a preference that
    is not a string or that names no configured endpoint) the endpoint is
    the Selector's choice, which is never OPEN and never among the
    endpoints already tried. *)
Theorem pick_endpoint_spec (attempts : Z) (md : option (gmap string value))
    (tried : list string) (s : Sys) :
  (forall m p e,
     attempts = 0 -> md = Some m ->
     m !! "endpoint_pref"%string = Some (VStr p) ->
     List.find (fun ep => bool_decide (name ep = p))
               (endpoints (config (router s))) = Some e ->
     pick_endpoint w attempts md tried s = (Return (Some e), s) /\ name e = p) /\
  (preferred_endpoint (router s) attempts md = None ->
     pick_endpoint w attempts md tried s = _select_endpoint w tried s /\
     forall e s',
       _select_endpoint w tried s = (Return (Some e), s') ->
       circuit_states (router s) !! name e <> Some OPEN /\ name e ∉ tried) /\
  (attempts <> 0 -> preferred_endpoint (router s) attempts md = None) /\
  (forall m, md = Some m ->
     (forall e, e ∈ endpoints (config (router s)) ->
        m !! "endpoint_pref"%string <> Some (VStr (name e))) ->
     preferred_endpoint (router s) attempts md = None) /\
  (md = None -> preferred_endpoint (router s) attempts md = None) /\
  (forall e,
     preferred_endpoint (router s) attempts md = Some e <->
     attempts = 0 /\
     exists m p,
       md = Some m /\
       m !! "endpoint_pref"%string = Some (VStr p) /\
       List.find (fun ep => bool_decide (name ep = p))
                 (endpoints (config (router s))) = Some e) /\
  (forall e,
     preferred_endpoint (router s) attempts md = Some e ->
     pick_endpoint w attempts md tried s = (Return (Some e), s)).
Proof.
  assert (forall m p e,
            m !! "endpoint_pref"%string = Some (VStr p) ->
            List.find (fun ep => bool_decide (name ep = p))
                      (endpoints (config (router s))) = Some e ->
            preferred_endpoint (router s) 0 (Some m) = Some e) as Hknown.
  { intros m p e Hp Hfind. unfold preferred_endpoint, truthy. simpl.
    destruct (Nat.eqb_spec (size m) 0) as [Hz|_].
    - exfalso. apply (map_size_ne_0_lookup_2 m "endpoint_pref"%string); eauto.
    - simpl. rewrite Hp. exact Hfind. }
  split; [|split; [|split; [|split; [|split; [|split]]]]].
  5:{ intros ->. reflexivity. }
  5:{ intros e. split.
      - unfold preferred_endpoint. destruct md as [m|]; [|discriminate].
        destruct (Z.eqb_spec attempts 0) as [->|]; [|discriminate].
        destruct (truthy (Some m)); [|discriminate]. simpl.
        destruct (m !! "endpoint_pref"%string) as [pref|] eqn:Hp; [|discriminate].
        destruct pref as [| | | |p| |];
          try (simpl; rewrite find_never; discriminate).
        intros Hfind. split; [reflexivity|]. exists m, p. auto.
      - intros (-> & m & p & -> & Hp & Hfind). eapply Hknown; eassumption. }
  5:{ intros e Hpref. unfold pick_endpoint. monad_unfold. rewrite Hpref.
      reflexivity. }
  - intros m p e -> -> Hp Hfind.
    assert (preferred_endpoint (router s) 0 (Some m) = Some e) as Hpref.
    { unfold preferred_endpoint, truthy. simpl.
      destruct (Nat.eqb_spec (size m) 0) as [Hz|_].
      - exfalso. apply (map_size_ne_0_lookup_2 m "endpoint_pref"%string); eauto.
      - simpl. rewrite Hp. exact Hfind. }
    split.
    + unfold pick_endpoint. monad_unfold. rewrite Hpref. reflexivity.
    + apply find_some in Hfind as [_ Hn]. apply bool_decide_eq_true in Hn.
      exact Hn.
  - intros Hnone. split.
    + unfold pick_endpoint. monad_unfold. rewrite Hnone. reflexivity.
    + intros e s' Hrun. apply select_endpoint_inv in Hrun as [Hres _].
      symmetry in Hres. apply select_pure_in, candidates_spec in Hres.
      destruct Hres as (_ & (st & Hst & Hno) & Hex).
      split; [rewrite Hst; congruence | exact Hex].
  - intros Hne. unfold preferred_endpoint.
    destruct md as [m|]; [|reflexivity].
    destruct (Z.eqb_spec attempts 0); [contradiction | reflexivity].
  - intros m -> Hunknown. unfold preferred_endpoint.
    destruct (_ && _); [|reflexivity].
    destruct (m !! "endpoint_pref"%string) as [pref|] eqn:Hp; [|reflexivity].
    destruct (List.find _ _) as [e|] eqn:Hfind; [|reflexivity].
    apply find_some in Hfind as [Hin Hn].
    destruct pref; simpl in Hn; try discriminate.
    apply bool_decide_eq_true in Hn. subst.
    exfalso. eapply Hunknown; [apply list_elem_of_In; exact Hin | reflexivity].
Qed.

End AttemptClaims.

(** C1, the claim as stated fails: a success on an endpoint that is
    CLOSED with one recorded failure leaves the count at 1. *)
Lemma success_keeps_count_counterexample :
  let s1 := snd (run_inference world_flaky "stt" "payload" None
                   (boot single_config)) in
  let call2 := run_inference world_flaky "stt" "payload" None s1 in
  circuit_states (router s1) !! "only"%string = Some CLOSED /\
  dd_int (failure_counts (router s1)) "only" = 1 /\
  fst call2 = Return ok_response /\
  trace (snd call2) = trace s1 ++ [EvHttp "only"] /\
  circuit_states (router (snd call2)) !! "only"%string = Some CLOSED /\
  dd_int (failure_counts (router (snd call2))) "only" = 1.
Proof. vm_compute. repeat split; reflexivity. Qed.

Lemma dispatch_success_circuit_witness :
  exists st,
    circuit_states (router (boot single_config)) !! "only"%string = Some st /\
    circuit_states
      (router (snd (dispatch_try world_up "k" only_endpoint "payload" None 0%Q
                      (boot single_config)))) !! "only"%string = Some CLOSED.
Proof.
  destruct (dispatch_success_circuit world_up "k" only_endpoint "payload" None
              0%Q (boot single_config)
              (snd (dispatch_try world_up "k" only_endpoint "payload" None 0%Q
                      (boot single_config)))
              ok_response)
    as (st & Hst & Hclosed & _); [vm_compute; reflexivity|].
  exists st. split; [exact Hst | exact Hclosed].
Defined.

(** C2, the claim as stated fails: the single endpoint's circuit is OPEN
    after two failing calls, yet a third call that names it as preferred
    sends the request to it. *)
Lemma preference_contacts_open_counterexample :
  let call3 := run_inference world_up "stt" "payload" prefer_only
                 after_two_failures in
  circuit_states (router after_two_failures) !! "only"%string = Some OPEN /\
  fst (pick_endpoint world_up 0 prefer_only [] after_two_failures)
    = Return (Some only_endpoint) /\
  fst (_select_endpoint world_up [] after_two_failures) = Return None /\
  trace (snd call3) = trace after_two_failures ++ [EvHttp "only"] /\
  fst call3 = Return ok_response.
Proof. vm_compute. repeat split; reflexivity. Qed.

Lemma pick_endpoint_spec_witness :
  pick_endpoint world_up 0 prefer_only [] after_two_failures
    = (Return (Some only_endpoint), after_two_failures).
Proof.
  destruct (pick_endpoint_spec world_up 0 prefer_only [] after_two_failures)
    as (Hpref & _).
  apply (Hpref {[ "endpoint_pref"%string := VStr "only" ]} "only"%string
               only_endpoint); reflexivity.
Defined.

(** ** Facts about the post-states *)

Section PostStates.

Variable w : World.

Lemma has_entries_same_shape (r r' : AIModelRouter) :
  has_entries r ->
  config r' = config r ->
  (forall k, is_Some (circuit_states r !! k) -> is_Some (circuit_states r' !! k)) ->
  (forall k, is_Some (metrics r !! k) -> is_Some (metrics r' !! k)) ->
  has_entries r'.
Proof.
  unfold has_entries. intros Hwf Hcfg Hcs Hm. rewrite Hcfg.
  eapply Forall_impl; [exact Hwf|]. intros e [H1 H2]. auto.
Qed.

Lemma wf_same_shape (r r' : AIModelRouter) :
  wf r ->
  config r' = config r ->
  (forall k, is_Some (circuit_states r !! k) -> is_Some (circuit_states r' !! k)) ->
  (forall k, is_Some (metrics r !! k) -> is_Some (metrics r' !! k)) ->
  wf r'.
Proof.
  intros [Hwf Hr] Hcfg Hcs Hm. split.
  - eapply has_entries_same_shape; eassumption.
  - rewrite Hcfg. exact Hr.
Qed.

Lemma insert_keeps_keys {V} (d : gmap string V) (n k : string) (v : V) :
  is_Some (d !! k) -> is_Some (<[n := v]> d !! k).
Proof. intros H. apply lookup_insert_is_Some. destruct (decide (n = k)); auto. Qed.

Lemma bump_metrics_ok (m : Metrics) (latency : Q) (success : bool) :
  request_count m = success_count m + error_count m ->
  metrics_ok (bump_metrics m latency success).
Proof.
  intros Hm. unfold bump_metrics, metrics_ok. cbv zeta. simpl.
  destruct (0 <? request_count m + 1) eqn:Hpos; simpl.
  - split; [destruct success; lia | reflexivity].
  - apply Z.ltb_ge in Hpos. split; [destruct success; lia | lia].
Qed.

Lemma metrics_inv_insert (d : gmap string Metrics) (n : string) (m : Metrics)
    (latency : Q) (success : bool) :
  metrics_inv d -> d !! n = Some m ->
  metrics_inv (<[n := bump_metrics m latency success]> d).
Proof.
  intros Hinv Hm. apply map_Forall_insert_2; [|exact Hinv].
  apply bump_metrics_ok. apply (Hinv n m Hm).
Qed.

Lemma failure_handled_facts (n : string) (st : circuit) (s : Sys) :
  let s' := failure_handled w n st s in
  config (router s') = config (router s) /\
  cache (router s') = cache (router s) /\
  metrics (router s') = metrics (router s) /\
  trace s' = trace s /\
  n_reply s' = n_reply s /\
  (forall k, is_Some (circuit_states (router s) !! k) ->
             is_Some (circuit_states (router s') !! k)) /\
  (forall k, k <> n ->
             circuit_states (router s') !! k = circuit_states (router s) !! k).
Proof.
  unfold failure_handled. destruct st; cbv zeta.
  - destruct (_ <=? _); simpl; repeat split; auto.
    + intros k Hk. apply insert_keeps_keys, Hk.
    + intros k Hk. apply lookup_insert_ne. congruence.
  - repeat split; auto.
  - simpl. repeat split; auto.
    + intros k Hk. apply insert_keeps_keys, Hk.
    + intros k Hk. apply lookup_insert_ne. congruence.
Qed.

Lemma reset_done_facts (n : string) (st : circuit) (s : Sys) :
  let s' := reset_done n st s in
  config (router s') = config (router s) /\
  cache (router s') = cache (router s) /\
  metrics (router s') = metrics (router s) /\
  trace s' = trace s /\
  n_reply s' = n_reply s /\
  n_clock s' = n_clock s /\
  (forall k, is_Some (circuit_states (router s) !! k) ->
             is_Some (circuit_states (router s') !! k)) /\
  (forall k, k <> n ->
             circuit_states (router s') !! k = circuit_states (router s) !! k).
Proof.
  unfold reset_done. destruct (bool_decide (st = CLOSED)); simpl.
  - repeat split; auto.
  - repeat split; auto.
    + intros k Hk. apply insert_keeps_keys, Hk.
    + intros k Hk. apply lookup_insert_ne. congruence.
Qed.

Lemma attempt_sent_trace (e : EndpointConfig) (s : Sys) :
  trace (attempt_sent e s) = trace s ++ protocol_events e.
Proof.
  unfold attempt_sent, protocol_events.
  destruct (protocol_event e); simpl; [reflexivity | rewrite app_nil_r; reflexivity].
Qed.

Lemma attempt_failed_facts (e : EndpointConfig) (t0 : Q) (attempts : Z)
    (st : circuit) (m : Metrics) (s : Sys) :
  metrics (router s) !! name e = Some m ->
  let s' := attempt_failed w e t0 attempts st m s in
  config (router s') = config (router s) /\
  cache (router s') = cache (router s) /\
  trace s' = trace s ++ protocol_events e
               ++ backoff_events (retry_config (config (router s))) (attempts + 1) /\
  (wf (router s) -> wf (router s')) /\
  (metrics_inv (metrics (router s)) -> metrics_inv (metrics (router s'))) /\
  (forall k, k <> name e ->
             circuit_states (router s') !! k = circuit_states (router s) !! k).
Proof.
  intros Hm. unfold attempt_failed. cbv zeta.
  set (s2 := upd_router _ (tick_clock (attempt_sent e s))).
  destruct (failure_handled_facts (name e) st s2)
    as (Hcfg & Hcache & Hmet & Htr & _ & Hkeys & Hother).
  set (s3 := failure_handled w (name e) st s2) in *.
  assert (config (router s2) = config (router s)) as Hcfg2
    by (unfold s2; simpl; rewrite attempt_sent_router; reflexivity).
  assert (trace s2 = trace s ++ protocol_events e) as Htr2
    by (unfold s2; simpl; apply attempt_sent_trace).
  assert (metrics (router s2)
          = <[name e := bump_metrics m
                          (clock w (n_clock (attempt_sent e s)) - t0) false]>
              (metrics (router s))) as Hm2
    by (unfold s2; simpl; rewrite attempt_sent_router; reflexivity).
  assert (circuit_states (router s2) = circuit_states (router s)) as Hcs2
    by (unfold s2; simpl; rewrite attempt_sent_router; reflexivity).
  assert (cache (router s2) = cache (router s)) as Hcache2
    by (unfold s2; simpl; rewrite attempt_sent_router; reflexivity).
  assert (config (router s3) = config (router s)) as Hcfg3 by congruence.
  assert (forall s4, router s4 = router s3 ->
            (wf (router s) -> wf (router s4)) /\
            (metrics_inv (metrics (router s)) -> metrics_inv (metrics (router s4))) /\
            (forall k, k <> name e ->
               circuit_states (router s4) !! k = circuit_states (router s) !! k))
    as Hrest.
  { intros s4 ->. split; [|split].
    - intros Hwf. eapply wf_same_shape; [exact Hwf | exact Hcfg3 | |].
      + intros k Hk. apply Hkeys. rewrite Hcs2. exact Hk.
      + intros k Hk. rewrite Hmet, Hm2. apply insert_keeps_keys, Hk.
    - intros Hinv. rewrite Hmet, Hm2. apply metrics_inv_insert; assumption.
    - intros k Hk. rewrite (Hother k Hk), Hcs2. reflexivity. }
  unfold backoff_events. rewrite Hcfg3.
  destruct (attempts + 1 <? _); simpl.
  - split; [exact Hcfg3|]. split; [congruence|].
    split; [rewrite Htr, Htr2, <- app_assoc; reflexivity|].
    apply Hrest. reflexivity.
  - split; [exact Hcfg3|]. split; [congruence|].
    split; [rewrite Htr, Htr2, app_nil_r; reflexivity|].
    apply Hrest. reflexivity.
Qed.

Lemma attempt_succeeded_facts (key : string) (e : EndpointConfig) (t0 : Q)
    (resp : value) (st : circuit) (m : Metrics) (s : Sys) :
  metrics (router s) !! name e = Some m ->
  is_Some (protocol_event e) ->
  let s' := attempt_succeeded w key e t0 resp st m s in
  config (router s') = config (router s) /\
  (exists t, cache (router s')
             = <[key := {| timestamp := t; response := resp |}]> (cache (router s))) /\
  trace s' = trace s ++ protocol_events e /\
  n_reply s' = S (n_reply s) /\
  (wf (router s) -> wf (router s')) /\
  (metrics_inv (metrics (router s)) -> metrics_inv (metrics (router s'))).
Proof.
  intros Hm [ev Hev]. unfold attempt_succeeded. cbv zeta.
  set (s2 := upd_router _ (tick_clock (attempt_sent e s))).
  destruct (reset_done_facts (name e) st s2)
    as (Hcfg & Hcache & Hmet & Htr & Hnr & _ & Hkeys & _).
  set (s3 := reset_done (name e) st s2) in *.
  assert (config (router s2) = config (router s)) as Hcfg2
    by (unfold s2; simpl; rewrite attempt_sent_router; reflexivity).
  assert (trace s2 = trace s ++ protocol_events e) as Htr2
    by (unfold s2; simpl; apply attempt_sent_trace).
  assert (metrics (router s2)
          = <[name e := bump_metrics m
                          (clock w (n_clock (attempt_sent e s)) - t0) true]>
              (metrics (router s))) as Hm2
    by (unfold s2; simpl; rewrite attempt_sent_router; reflexivity).
  assert (circuit_states (router s2) = circuit_states (router s)) as Hcs2
    by (unfold s2; simpl; rewrite attempt_sent_router; reflexivity).
  assert (cache (router s2) = cache (router s)) as Hcache2
    by (unfold s2; simpl; rewrite attempt_sent_router; reflexivity).
  assert (n_reply s2 = S (n_reply s)) as Hnr2
    by (unfold s2, attempt_sent; rewrite Hev; reflexivity).
  simpl. split; [congruence|].
  split; [eexists; rewrite Hcache, Hcache2; reflexivity|].
  split; [congruence|]. split; [congruence|]. split.
  - intros Hwf. eapply wf_same_shape; [exact Hwf | simpl; congruence | |]; simpl.
    + intros k Hk. apply Hkeys. rewrite Hcs2. exact Hk.
    + intros k Hk. rewrite Hmet, Hm2. apply insert_keeps_keys, Hk.
  - intros Hinv. rewrite Hmet, Hm2. apply metrics_inv_insert; assumption.
Qed.

End PostStates.

(** ** The dispatch loop *)

Section Loop.

Variable w : World.

Lemma has_entries_lookup (r : AIModelRouter) (e : EndpointConfig) :
  has_entries r -> e ∈ endpoints (config r) ->
  exists st m, circuit_states r !! name e = Some st /\ metrics r !! name e = Some m.
Proof.
  unfold has_entries. rewrite Forall_forall. intros Hwf He.
  destruct (Hwf e He) as [[st Hst] [m Hm]]. eauto.
Qed.

Lemma wf_lookup (r : AIModelRouter) (e : EndpointConfig) :
  wf r -> e ∈ endpoints (config r) ->
  exists st m, circuit_states r !! name e = Some st /\ metrics r !! name e = Some m.
Proof. intros [Hwf _]. apply has_entries_lookup, Hwf. Qed.

Lemma wf_keys (r : AIModelRouter) :
  wf r ->
  Forall (fun e => is_Some (circuit_states r !! name e)) (endpoints (config r)).
Proof. intros [Hwf _]. apply has_entries_keys, Hwf. Qed.

Lemma wf_float_ok (r : AIModelRouter) (ex : list string) :
  wf r -> float_ok (sum_weights (candidates r ex)) = true.
Proof. intros (_ & Hw & _). apply candidates_float_ok, Hw. Qed.

Lemma wf_backoff_ok (r : AIModelRouter) (attempts : Z) :
  wf r -> 0 <= attempts ->
  backoff_ok (retry_config (config r)) (attempts + 1) = true.
Proof.
  intros (_ & _ & Hb) Hpos. unfold backoff_ok.
  destruct (Z.ltb_spec (attempts + 1) (max_attempts (retry_config (config r))))
    as [Hlt|Hge]; [|reflexivity].
  simpl. apply Hb. lia.
Qed.

Lemma preferred_endpoint_in (r : AIModelRouter) (attempts : Z)
    (md : option (gmap string value)) (e : EndpointConfig) :
  preferred_endpoint r attempts md = Some e -> e ∈ endpoints (config r).
Proof.
  unfold preferred_endpoint. destruct md as [m|]; [|discriminate].
  destruct (_ && _); [|discriminate].
  destruct (m !! "endpoint_pref"%string); [|discriminate].
  intros H. apply find_some in H as [H _]. apply list_elem_of_In, H.
Qed.

(** Choosing the endpoint of an iteration changes nothing but the
    position in the random stream; the only exception it can raise is the
    [OverflowError] of the draw. *)
Lemma pick_endpoint_outcome (attempts : Z) (md : option (gmap string value))
    (tried : list string) (s : Sys) :
  has_entries (router s) ->
  exists o s1,
    pick_endpoint w attempts md tried s = (o, s1) /\
    o = match preferred_endpoint (router s) attempts md with
        | Some e => Return (Some e)
        | None => select_outcome (router s) tried (entropy w (n_entropy s))
        end /\
    router s1 = router s /\ trace s1 = trace s /\
    n_reply s1 = n_reply s /\ n_clock s1 = n_clock s /\ n_probe s1 = n_probe s /\
    (o = Raise OverflowError \/
     exists oe, o = Return oe /\
                forall e, oe = Some e -> e ∈ endpoints (config (router s))).
Proof.
  intros Hwf. unfold pick_endpoint. monad_unfold.
  destruct (preferred_endpoint (router s) attempts md) as [e|] eqn:Hpref.
  - exists (Return (Some e)), s. repeat split; auto.
    right. exists (Some e). split; [reflexivity|].
    intros e' [= <-]. eapply preferred_endpoint_in, Hpref.
  - rewrite (select_endpoint_outcome w tried s (has_entries_keys _ Hwf)).
    eexists _, _. split; [reflexivity|]. split; [reflexivity|].
    assert (forall e, select_pure (router s) tried (entropy w (n_entropy s)) = Some e ->
                      e ∈ endpoints (config (router s))) as Hin.
    { intros e He. apply select_pure_in, candidates_spec in He. apply He. }
    assert (select_outcome (router s) tried (entropy w (n_entropy s))
              = Raise OverflowError \/
            exists oe, select_outcome (router s) tried (entropy w (n_entropy s))
                         = Return oe /\
                       forall e, oe = Some e -> e ∈ endpoints (config (router s)))
      as Hout.
    { unfold select_outcome. destruct (float_ok _); [right | left; reflexivity].
      eexists. split; [reflexivity | exact Hin]. }
    destruct (candidates (router s) tried); repeat split; auto.
Qed.

(** Choosing the endpoint of an iteration never raises on a well-formed
    router and changes nothing but the position in the random stream. *)
Lemma pick_endpoint_run (attempts : Z) (md : option (gmap string value))
    (tried : list string) (s : Sys) :
  wf (router s) ->
  exists oe s1,
    pick_endpoint w attempts md tried s = (Return oe, s1) /\
    oe = match preferred_endpoint (router s) attempts md with
         | Some e => Some e
         | None => select_pure (router s) tried (entropy w (n_entropy s))
         end /\
    router s1 = router s /\ trace s1 = trace s /\
    n_reply s1 = n_reply s /\ n_clock s1 = n_clock s /\ n_probe s1 = n_probe s /\
    (forall e, oe = Some e -> e ∈ endpoints (config (router s))).
Proof.
  intros Hwf. unfold pick_endpoint. monad_unfold.
  destruct (preferred_endpoint (router s) attempts md) as [e|] eqn:Hpref.
  - exists (Some e), s. repeat split; auto.
    intros e' [= <-]. eapply preferred_endpoint_in, Hpref.
  - rewrite (select_endpoint_run w tried s (wf_keys _ Hwf) (wf_float_ok _ _ Hwf)).
    eexists _, _. split; [reflexivity|]. split; [reflexivity|].
    assert (forall e, select_pure (router s) tried (entropy w (n_entropy s)) = Some e ->
                      e ∈ endpoints (config (router s))) as Hin.
    { intros e He. apply select_pure_in, candidates_spec in He. apply He. }
    destruct (candidates (router s) tried); repeat split; auto.
Qed.

(** One iteration of the loop, by cases on what the environment does. *)
Lemma dispatch_loop_step (fuel : nat) (key data : string)
    (md : option (gmap string value)) (attempts : Z) (tried : list string)
    (s s1 : Sys) (oe : option EndpointConfig) :
  attempts < max_attempts (retry_config (config (router s))) ->
  pick_endpoint w attempts md tried s = (Return oe, s1) ->
  router s1 = router s ->
  match oe with
  | None =>
      dispatch_loop w (S fuel) key data md attempts tried s
        = (Return error_unavailable, s1)
  | Some e =>
      forall st m,
        circuit_states (router s) !! name e = Some st ->
        metrics (router s) !! name e = Some m ->
        let t0 := clock w (n_clock s1) in
        let s2 := tick_clock s1 in
        match protocol_event e, reply w (n_reply s1) with
        | Some _, Some resp =>
            dispatch_loop w (S fuel) key data md attempts tried s
              = (Return resp, attempt_succeeded w key e t0 resp st m s2)
        | _, _ =>
            if backoff_ok (retry_config (config (router s))) (attempts + 1)
            then
              dispatch_loop w (S fuel) key data md attempts tried s
                = dispatch_loop w fuel key data md (attempts + 1)
                    (tried ++ [name e]) (attempt_failed w e t0 attempts st m s2)
            else
              dispatch_loop w (S fuel) key data md attempts tried s
                = (Raise OverflowError, attempt_recorded w e t0 st m s2)
        end
  end.
Proof.
  intros Hlt Hpick Hr.
  apply Z.ltb_lt in Hlt.
  destruct oe as [e|].
  - intros st m Hst Hm t0 s2.
    assert (config (router (attempt_recorded w e t0 st m s2)) = config (router s))
      as Hcfg by (rewrite attempt_recorded_config; unfold s2; simpl; rewrite Hr;
                  reflexivity).
    assert (dispatch_loop w (S fuel) key data md attempts tried s
            = try_except
                (dispatch_try w key e data md t0)
                (fun _ => bind (dispatch_except w e t0 attempts)
                            (fun a => dispatch_loop w fuel key data md a
                                        (tried ++ [name e])))
                s2) as Hunfold.
    { simpl. unfold bind at 1, get_router. rewrite Hlt.
      unfold bind at 1. rewrite Hpick.
      unfold bind at 1, time_time. reflexivity. }
    rewrite Hunfold. unfold try_except.
    assert (circuit_states (router s2) !! name e = Some st) as Hst2
      by (unfold s2; simpl; rewrite Hr; exact Hst).
    assert (metrics (router s2) !! name e = Some m) as Hm2
      by (unfold s2; simpl; rewrite Hr; exact Hm).
    assert (n_reply s2 = n_reply s1) as Hnr by reflexivity.
    destruct (protocol_event e) as [ev|] eqn:Hev.
    + destruct (reply w (n_reply s1)) as [resp|] eqn:Hreply.
      * rewrite (dispatch_try_ok w key e data md t0 s2 st m resp Hst2 Hm2);
          [reflexivity | rewrite Hev; eauto | rewrite Hnr; exact Hreply].
      * destruct (dispatch_try_fail w key e data md t0 s2 st Hst2) as [x Hx];
          [right; rewrite Hnr; exact Hreply|].
        rewrite Hx. unfold bind.
        rewrite (dispatch_except_outcome w e t0 attempts s2 st m Hst2 Hm2), Hcfg.
        destruct (backoff_ok _ _); reflexivity.
    + destruct (dispatch_try_fail w key e data md t0 s2 st Hst2) as [x Hx];
        [left; exact Hev|].
      rewrite Hx. unfold bind.
      rewrite (dispatch_except_outcome w e t0 attempts s2 st m Hst2 Hm2), Hcfg.
      destruct (backoff_ok _ _); reflexivity.
  - simpl. unfold bind at 1, get_router. rewrite Hlt.
    unfold bind at 1. rewrite Hpick. reflexivity.
Qed.

Lemma verdict_cons_trace (rc : RetryConfig) (attempts : Z) (e : EndpointConfig)
    (vd : verdict) :
  verdict_trace rc attempts (verdict_cons e vd)
    = protocol_events e ++ backoff_events rc (attempts + 1)
        ++ verdict_trace rc (attempts + 1) vd.
Proof.
  unfold verdict_trace. destruct vd; simpl; rewrite <- !app_assoc; reflexivity.
Qed.

Lemma loop_post_cons (key : string) (attempts : Z) (s s3 s' : Sys)
    (e : EndpointConfig) (vd : verdict) :
  attempts < max_attempts (retry_config (config (router s))) ->
  e ∈ endpoints (config (router s)) ->
  config (router s3) = config (router s) ->
  cache (router s3) = cache (router s) ->
  (metrics_inv (metrics (router s)) -> metrics_inv (metrics (router s3))) ->
  trace s3 = trace s ++ protocol_events e
               ++ backoff_events (retry_config (config (router s))) (attempts + 1) ->
  loop_post w key (attempts + 1) s3 s' vd ->
  loop_post w key attempts s s' (verdict_cons e vd).
Proof.
  intros Hlt Hin Hcfg Hcache Hminv Htr (Hwf & Hcfg' & Hminv' & Htr' & Hall & Hvd).
  unfold loop_post in *. cbv zeta in *. rewrite Hcfg in *.
  split; [exact Hwf|]. split; [congruence|]. split; [auto|].
  split.
  { rewrite Htr', Htr, verdict_cons_trace, <- !app_assoc. reflexivity. }
  split.
  { destruct vd; simpl in *; constructor; assumption. }
  destruct vd as [failed e' resp | failed | failed]; simpl verdict_cons; cbv iota.
  - destruct Hvd as (Hn & [t Ht] & He' & Hp & Hrep).
    split; [simpl length; lia|]. split; [exists t; congruence|]. auto.
  - destruct Hvd as (Hn & Hc). split; [simpl length; lia | congruence].
  - destruct Hvd as (Hn & Hc). split; [simpl length; lia | congruence].
Qed.

(** Every run of the loop from a well-formed state returns (it neither
    raises nor runs out of fuel) and is summarised by a verdict. *)
Lemma dispatch_loop_spec (key data : string) (md : option (gmap string value))
    (fuel : nat) :
  forall (attempts : Z) (tried : list string) (s : Sys),
    wf (router s) ->
    0 <= attempts ->
    (Z.to_nat (max_attempts (retry_config (config (router s))) - attempts) < fuel)%nat ->
    exists vd s',
      dispatch_loop w fuel key data md attempts tried s
        = (Return (verdict_value vd), s') /\
      loop_post w key attempts s s' vd.
Proof.
  induction fuel as [|fuel IH]; intros attempts tried s Hwf Hpos Hfuel; [lia|].
  destruct (Z.ltb_spec attempts (max_attempts (retry_config (config (router s)))))
    as [Hlt|Hge].
  - destruct (pick_endpoint_run attempts md tried s Hwf)
      as (oe & s1 & Hpick & _ & Hr & Htr & Hnr & Hnc & _ & Hin).
    pose proof (dispatch_loop_step fuel key data md attempts tried s s1 oe
                  Hlt Hpick Hr) as Hstep.
    destruct oe as [e|].
    + pose proof (Hin e eq_refl) as He.
      destruct (wf_lookup _ e Hwf He) as (st & m & Hst & Hm).
      specialize (Hstep st m Hst Hm). cbv zeta in Hstep.
      rewrite (wf_backoff_ok _ attempts Hwf Hpos) in Hstep.
      set (t0 := clock w (n_clock s1)) in *.
      set (s2 := tick_clock s1) in *.
      assert (router s2 = router s) as Hr2 by (unfold s2; simpl; exact Hr).
      assert (metrics (router s2) !! name e = Some m) as Hm2
        by (rewrite Hr2; exact Hm).
      assert (trace s2 = trace s) as Htr2 by (unfold s2; simpl; exact Htr).
      assert (exists vd s', dispatch_loop w fuel key data md (attempts + 1)
                              (tried ++ [name e])
                              (attempt_failed w e t0 attempts st m s2)
                            = (Return (verdict_value vd), s') /\
                            loop_post w key attempts s s' vd) as Hfail.
      { destruct (attempt_failed_facts w e t0 attempts st m s2 Hm2)
          as (Hcfg3 & Hcache3 & Htr3 & Hwf3 & Hminv3 & _).
        rewrite Hr2 in *.
        destruct (IH (attempts + 1) (tried ++ [name e])
                     (attempt_failed w e t0 attempts st m s2))
          as (vd & s' & Hrun & Hpost).
        - apply Hwf3, Hwf.
        - lia.
        - rewrite Hcfg3. lia.
        - exists (verdict_cons e vd), s'. split.
          + rewrite Hrun. destruct vd; reflexivity.
          + eapply loop_post_cons; eauto. rewrite Htr3, Htr2. reflexivity. }
      destruct (protocol_event e) as [ev|] eqn:Hev.
      * destruct (reply w (n_reply s1)) as [resp|] eqn:Hreply.
        -- exists (Served [] e resp), (attempt_succeeded w key e t0 resp st m s2).
           split; [exact Hstep|].
           destruct (attempt_succeeded_facts w key e t0 resp st m s2 Hm2)
             as (Hcfg3 & Hcache3 & Htr3 & Hnr3 & Hwf3 & Hminv3);
             [rewrite Hev; eauto|].
           rewrite Hr2 in *. unfold loop_post. cbv zeta.
           split; [auto|]. split; [exact Hcfg3|]. split; [exact Hminv3|].
           split; [rewrite Htr3, Htr2; reflexivity|].
           split; [constructor|].
           split; [simpl; lia|]. split; [exact Hcache3|].
           split; [exact He|]. split; [rewrite Hev; eauto|].
           exists (n_reply s1). split; [exact Hnr3 | exact Hreply].
        -- destruct Hfail as (vd & s' & Hrun & Hpost).
           exists vd, s'. split; [rewrite Hstep; exact Hrun | exact Hpost].
      * destruct Hfail as (vd & s' & Hrun & Hpost).
        exists vd, s'. split; [rewrite Hstep; exact Hrun | exact Hpost].
    + exists (Unavailable []), s1. split; [exact Hstep|].
      unfold loop_post. cbv zeta. rewrite Hr.
      split; [exact Hwf|]. split; [reflexivity|]. split; [auto|].
      split; [rewrite Htr, app_nil_r; reflexivity|].
      split; [constructor|]. split; [simpl; lia | reflexivity].
  - exists (Exhausted []), s. split.
    + simpl. unfold bind at 1, get_router.
      apply Z.ltb_ge in Hge. rewrite Hge. reflexivity.
    + unfold loop_post. cbv zeta.
      split; [exact Hwf|]. split; [reflexivity|]. split; [auto|].
      split; [rewrite app_nil_r; reflexivity|].
      split; [constructor|]. split; [simpl; lia | reflexivity].
Qed.

End Loop.

(** ** The health sweep *)

Section Health.

Variable w : World.

Lemma check_endpoint_health_run (e : EndpointConfig) (s : Sys) :
  _check_endpoint_health w e s =
    (Return (probe_healthy w e s),
     if probe_supported e then tick_probe (log_event (EvProbe (name e)) s) else s).
Proof.
  unfold _check_endpoint_health, probe_healthy, probe_supported.
  destruct (_ || _); reflexivity.
Qed.

Lemma health_check_endpoint_run (e : EndpointConfig) (s : Sys) (st : circuit) :
  circuit_states (router s) !! name e = Some st ->
  health_check_endpoint w e s = (Return tt, health_checked w e st s).
Proof.
  intros Hst.
  unfold health_check_endpoint, health_checked, probe_due, promoted, recovery_due.
  unfold bind at 1, get_router. unfold bind at 1, dict_get. rewrite Hst.
  unfold ret at 1. unfold bind at 1.
  destruct st.
  - (* CLOSED *)
    change (bool_decide (CLOSED = OPEN)) with false.
    change (bool_decide (CLOSED = HALF_OPEN)) with false.
    cbv iota. simpl andb. simpl orb. cbv iota.
    unfold ret at 1. unfold bind at 1, get_router. unfold bind at 1, dict_get.
    rewrite Hst. reflexivity.
  - (* OPEN *)
    change (bool_decide (OPEN = OPEN)) with true.
    change (bool_decide (OPEN = HALF_OPEN)) with false.
    cbv iota. simpl andb. simpl orb.
    unfold bind at 1, time_time.
    destruct (negb (Qle_bool _ _)) eqn:Hdue.
    + unfold modify_router at 1. unfold bind at 1, get_router.
      unfold bind at 1, dict_get.
      cbn [circuit_states router upd_router with_circuit_states tick_clock].
      rewrite lookup_insert_eq.
      unfold ret at 1.
      change (bool_decide (HALF_OPEN = HALF_OPEN)) with true. cbv iota.
      unfold bind at 1. rewrite check_endpoint_health_run.
      unfold probed.
      destruct (probe_healthy w e _) eqn:Hh.
      * rewrite (reset_circuit_run _ _ HALF_OPEN); [reflexivity|].
        destruct (probe_supported e); simpl; apply lookup_insert_eq.
      * rewrite trip_circuit_run. reflexivity.
    + unfold ret at 1. unfold bind at 1, get_router. unfold bind at 1, dict_get.
      cbn [circuit_states router tick_clock]. rewrite Hst. reflexivity.
  - (* HALF_OPEN *)
    change (bool_decide (HALF_OPEN = OPEN)) with false.
    change (bool_decide (HALF_OPEN = HALF_OPEN)) with true.
    cbv iota. simpl andb. simpl orb. cbv iota.
    unfold ret at 1. unfold bind at 1, get_router. unfold bind at 1, dict_get.
    rewrite Hst. unfold ret at 1.
    change (bool_decide (HALF_OPEN = HALF_OPEN)) with true. cbv iota.
    unfold bind at 1. rewrite check_endpoint_health_run.
    unfold probed.
    destruct (probe_healthy w e s) eqn:Hh.
    + rewrite (reset_circuit_run _ _ HALF_OPEN); [reflexivity|].
      destruct (probe_supported e); simpl; exact Hst.
    + rewrite trip_circuit_run. reflexivity.
Qed.

Lemma promoted_facts (e : EndpointConfig) (st : circuit) (s : Sys) :
  circuit_states (router s) !! name e = Some st ->
  let s' := promoted w e st s in
  config (router s') = config (router s) /\
  cache (router s') = cache (router s) /\
  metrics (router s') = metrics (router s) /\
  failure_counts (router s') = failure_counts (router s) /\
  last_failure_time (router s') = last_failure_time (router s) /\
  trace s' = trace s /\
  circuit_states (router s') !! name e
    = Some (if recovery_due w e st s then HALF_OPEN else st) /\
  (forall k, is_Some (circuit_states (router s) !! k) ->
             is_Some (circuit_states (router s') !! k)) /\
  (forall k, k <> name e ->
             circuit_states (router s') !! k = circuit_states (router s) !! k).
Proof.
  intros Hst. unfold promoted.
  destruct (bool_decide (st = OPEN)) eqn:Hopen.
  - destruct (recovery_due w e st s) eqn:Hdue; simpl.
    + repeat split; auto.
      * apply lookup_insert_eq.
      * intros k Hk. apply insert_keeps_keys, Hk.
      * intros k Hk. apply lookup_insert_ne. congruence.
    + repeat split; auto.
  - assert (recovery_due w e st s = false) as ->
      by (unfold recovery_due; rewrite Hopen; reflexivity).
    repeat split; auto.
Qed.

Lemma probed_facts (e : EndpointConfig) (s : Sys) :
  circuit_states (router s) !! name e = Some HALF_OPEN ->
  let s' := probed w e s in
  config (router s') = config (router s) /\
  cache (router s') = cache (router s) /\
  metrics (router s') = metrics (router s) /\
  trace s' = trace s ++ (if probe_supported e then [EvProbe (name e)] else []) /\
  (if probe_healthy w e s then
     circuit_states (router s') !! name e = Some CLOSED /\
     failure_counts (router s') !! name e = Some 0 /\
     last_failure_time (router s') = last_failure_time (router s)
   else
     circuit_states (router s') !! name e = Some OPEN /\
     last_failure_time (router s') !! name e = Some (clock w (n_clock s)) /\
     failure_counts (router s') = failure_counts (router s)) /\
  (forall k, is_Some (circuit_states (router s) !! k) ->
             is_Some (circuit_states (router s') !! k)) /\
  (forall k, k <> name e -> same_entry k (router s') (router s)).
Proof.
  intros Hst. unfold probed. cbv zeta.
  set (s1 := if probe_supported e then _ else s).
  assert (router s1 = router s) as Hr
    by (unfold s1; destruct (probe_supported e); reflexivity).
  assert (n_clock s1 = n_clock s) as Hc
    by (unfold s1; destruct (probe_supported e); reflexivity).
  assert (trace s1 = trace s ++ (if probe_supported e then [EvProbe (name e)] else []))
    as Ht
    by (unfold s1; destruct (probe_supported e); simpl;
        [reflexivity | rewrite app_nil_r; reflexivity]).
  destruct (probe_healthy w e s).
  - unfold reset_done.
    change (bool_decide (HALF_OPEN = CLOSED)) with false. cbv iota. simpl.
    rewrite Hr. rewrite !lookup_insert_eq.
    repeat split; auto.
    + intros k Hk. apply insert_keeps_keys, Hk.
    + simpl. apply lookup_insert_ne. congruence.
    + simpl. apply lookup_insert_ne. congruence.
  - unfold tripped. simpl. rewrite Hr, Hc. rewrite !lookup_insert_eq.
    repeat split; auto.
    + intros k Hk. apply insert_keeps_keys, Hk.
    + simpl. apply lookup_insert_ne. congruence.
    + simpl. apply lookup_insert_ne. congruence.
Qed.

Lemma probe_due_promoted (e : EndpointConfig) (st : circuit) (s : Sys) :
  probe_due w e st s = true ->
  (if recovery_due w e st s then HALF_OPEN else st) = HALF_OPEN.
Proof.
  unfold probe_due. destruct (recovery_due w e st s); [reflexivity|].
  rewrite orb_false_r. intros H. apply bool_decide_eq_true in H. exact H.
Qed.

(** One iteration of the sweep: its outcome for the endpoint visited and
    the frame around it. *)
Lemma health_checked_facts (e : EndpointConfig) (st : circuit) (s : Sys) :
  circuit_states (router s) !! name e = Some st ->
  let s' := health_checked w e st s in
  health_outcome w e st s s' /\
  config (router s') = config (router s) /\
  cache (router s') = cache (router s) /\
  metrics (router s') = metrics (router s) /\
  (forall k, is_Some (circuit_states (router s) !! k) ->
             is_Some (circuit_states (router s') !! k)) /\
  (forall k, k <> name e -> same_entry k (router s') (router s)).
Proof.
  intros Hst. unfold health_checked, health_outcome.
  destruct (promoted_facts e st s Hst)
    as (Hcfg & Hcache & Hmet & Hfc & Hlft & Htr & Hcs & Hkeys & Hother).
  destruct (probe_due w e st s) eqn:Hdue.
  - rewrite (probe_due_promoted e st s Hdue) in Hcs.
    destruct (probed_facts e (promoted w e st s) Hcs)
      as (Hcfg' & Hcache' & Hmet' & Htr' & Hout & Hkeys' & Hother').
    split.
    { split; [exact Hcs|].
      split; [rewrite Htr', Htr; reflexivity|].
      destruct (probe_healthy w e (promoted w e st s)).
      - destruct Hout as (H1 & H2 & H3). rewrite H3, Hlft. auto.
      - destruct Hout as (H1 & H2 & H3). rewrite H3, Hfc. auto. }
    split; [congruence|]. split; [congruence|]. split; [congruence|].
    split; [auto|].
    intros k Hk. destruct (Hother' k Hk) as (H1 & H2 & H3).
    unfold same_entry. rewrite H1, H2, H3, Hfc, Hlft. auto.
  - split.
    { split; [exact Htr|].
      unfold same_entry. rewrite Hfc, Hlft, Hcs, Hst.
      unfold probe_due in Hdue. apply orb_false_iff in Hdue as [_ ->].
      auto. }
    split; [exact Hcfg|]. split; [exact Hcache|]. split; [exact Hmet|].
    split; [exact Hkeys|].
    intros k Hk. unfold same_entry. rewrite Hfc, Hlft, (Hother k Hk). auto.
Qed.

Lemma same_entry_refl (n : string) (a : AIModelRouter) : same_entry n a a.
Proof. unfold same_entry. auto. Qed.

Lemma same_entry_trans (n : string) (a b c : AIModelRouter) :
  same_entry n a b -> same_entry n b c -> same_entry n a c.
Proof. unfold same_entry. intros (H1 & H2 & H3) (H4 & H5 & H6). repeat split; congruence. Qed.

Lemma same_entry_sym (n : string) (a b : AIModelRouter) :
  same_entry n a b -> same_entry n b a.
Proof. unfold same_entry. intros (H1 & H2 & H3). auto. Qed.

Lemma sweep_state_cons (e : EndpointConfig) (l : list EndpointConfig) (s : Sys)
    (st : circuit) :
  circuit_states (router s) !! name e = Some st ->
  sweep_state w (e :: l) s = sweep_state w l (health_checked w e st s).
Proof. intros Hst. unfold sweep_state. simpl. rewrite Hst. reflexivity. Qed.

Lemma health_sweep_run (l : list EndpointConfig) :
  forall s,
    Forall (fun e => is_Some (circuit_states (router s) !! name e)) l ->
    health_sweep w l s = (Return tt, sweep_state w l s) /\
    config (router (sweep_state w l s)) = config (router s) /\
    cache (router (sweep_state w l s)) = cache (router s) /\
    metrics (router (sweep_state w l s)) = metrics (router s) /\
    (forall k, is_Some (circuit_states (router s) !! k) ->
               is_Some (circuit_states (router (sweep_state w l s)) !! k)) /\
    (forall k, k ∉ map name l ->
               same_entry k (router (sweep_state w l s)) (router s)).
Proof.
  induction l as [|e l IH]; intros s Hkeys.
  - split; [reflexivity|]. repeat split; auto.
  - inversion Hkeys as [|? ? [st Hst] Hrest]; subst.
    rewrite (sweep_state_cons e l s st Hst).
    destruct (health_checked_facts e st s Hst)
      as (_ & Hcfg & Hcache & Hmet & Hk & Hother).
    destruct (IH (health_checked w e st s)) as (Hrun & Hcfg' & Hcache' & Hmet' & Hk' & Hother').
    { eapply Forall_impl; [exact Hrest|]. intros x Hx. apply Hk, Hx. }
    split.
    { simpl. unfold bind. rewrite (health_check_endpoint_run e s st Hst).
      exact Hrun. }
    split; [congruence|]. split; [congruence|]. split; [congruence|].
    split; [auto|].
    intros k Hk0. simpl in Hk0. rewrite not_elem_of_cons in Hk0. destruct Hk0 as [Hne Hnin].
    eapply same_entry_trans; [apply Hother', Hnin | apply Hother, Hne].
Qed.

Lemma sweep_state_outcome (l : list EndpointConfig) :
  forall s,
    Forall (fun e => is_Some (circuit_states (router s) !! name e)) l ->
    NoDup (map name l) ->
    forall e, e ∈ l ->
      exists st sb sa,
        circuit_states (router s) !! name e = Some st /\
        same_entry (name e) (router sb) (router s) /\
        health_check_endpoint w e sb = (Return tt, sa) /\
        health_outcome w e st sb sa /\
        same_entry (name e) (router (sweep_state w l s)) (router sa).
Proof.
  induction l as [|e0 l IH]; intros s Hkeys Hnd e He; [inversion He|].
  inversion Hkeys as [|? ? [st0 Hst0] Hrest]; subst.
  simpl in Hnd. apply NoDup_cons in Hnd as [Hnin Hnd].
  rewrite (sweep_state_cons e0 l s st0 Hst0).
  destruct (health_checked_facts e0 st0 s Hst0)
    as (Hout & _ & _ & _ & Hk & Hother).
  assert (Forall (fun x => is_Some (circuit_states
                                      (router (health_checked w e0 st0 s)) !! name x)) l)
    as Hkeys1
    by (eapply Forall_impl; [exact Hrest|]; intros x Hx; apply Hk, Hx).
  apply elem_of_cons in He as [->|He].
  - exists st0, s, (health_checked w e0 st0 s).
    split; [exact Hst0|]. split; [apply same_entry_refl|].
    split; [apply health_check_endpoint_run, Hst0|].
    split; [exact Hout|].
    apply (health_sweep_run l _ Hkeys1). exact Hnin.
  - assert (name e <> name e0) as Hne.
    { intros Heq. apply Hnin. rewrite <- Heq.
      apply list_elem_of_fmap_2. exact He. }
    destruct (IH _ Hkeys1 Hnd e He) as (st & sb & sa & Hst & Hsb & Hrun & Ho & Hsa).
    destruct (Hother (name e) Hne) as (Hcs & _).
    exists st, sb, sa.
    split; [rewrite <- Hcs; exact Hst|].
    split; [eapply same_entry_trans; [exact Hsb | apply Hother, Hne]|].
    auto.
Qed.

Lemma health_report_run (r : AIModelRouter) (l : list EndpointConfig) :
  forall (acc : gmap string HealthStatus) (s : Sys),
    Forall (fun e => is_Some (circuit_states r !! name e)) l ->
    exists rep,
      health_report r l acc s = (Return rep, s) /\
      forall k, rep !! k = if decide (k ∈ map name l) then report_of r k
                           else acc !! k.
Proof.
  induction l as [|e l IH]; intros acc s Hkeys.
  - exists acc. split; [reflexivity|]. intros k.
    destruct (decide (k ∈ map name [])) as [H|_]; [inversion H | reflexivity].
  - inversion Hkeys as [|? ? [st Hst] Hrest]; subst.
    destruct (IH (<[name e := {| state := st;
                                 failures := dd_int (failure_counts r) (name e) |}]> acc)
                 s Hrest) as (rep & Hrun & Hrep).
    exists rep. split.
    { simpl. unfold bind at 1, dict_get. rewrite Hst. exact Hrun. }
    intros k. rewrite Hrep. simpl map.
    destruct (decide (k ∈ map name l)) as [Hin|Hnin].
    + rewrite decide_True by (apply elem_of_cons; auto). reflexivity.
    + destruct (decide (k = name e)) as [->|Hne].
      * rewrite decide_True by (apply elem_of_cons; auto).
        rewrite lookup_insert_eq. unfold report_of. rewrite Hst. reflexivity.
      * rewrite decide_False by (rewrite elem_of_cons; tauto).
        apply lookup_insert_ne. congruence.
Qed.

(** The sweep on a well-formed router: it returns and touches only the
    circuit breaker. *)
Lemma health_check_entries (s : Sys) :
  has_entries (router s) ->
  exists report,
    health_check w s
      = (Return report, sweep_state w (endpoints (config (router s))) s) /\
    let s' := sweep_state w (endpoints (config (router s))) s in
    has_entries (router s') /\
    config (router s') = config (router s) /\
    cache (router s') = cache (router s) /\
    metrics (router s') = metrics (router s) /\
    forall k, report !! k
              = if decide (k ∈ map name (endpoints (config (router s))))
                then report_of (router s') k else None.
Proof.
  intros Hwf.
  pose proof (has_entries_keys _ Hwf) as Hkeys.
  destruct (health_sweep_run (endpoints (config (router s))) s Hkeys)
    as (Hrun & Hcfg & Hcache & Hmet & Hk & _).
  cbv zeta.
  set (s' := sweep_state w (endpoints (config (router s))) s) in *.
  assert (has_entries (router s')) as Hwf'.
  { eapply has_entries_same_shape; [exact Hwf | exact Hcfg | exact Hk |].
    intros k. rewrite Hmet. auto. }
  destruct (health_report_run (router s') (endpoints (config (router s'))) ∅ s'
              (has_entries_keys _ Hwf')) as (rep & Hrep & Hlook).
  exists rep. split.
  { unfold health_check. unfold bind at 1, get_router. unfold bind at 1.
    rewrite Hrun. unfold bind at 1, get_router. exact Hrep. }
  split; [exact Hwf'|].
  split; [exact Hcfg|]. split; [exact Hcache|]. split; [exact Hmet|].
  intros k. rewrite Hlook, Hcfg.
  destruct (decide _); [reflexivity | apply lookup_empty].
Qed.

Lemma health_check_run (s : Sys) :
  wf (router s) ->
  exists report,
    health_check w s
      = (Return report, sweep_state w (endpoints (config (router s))) s) /\
    let s' := sweep_state w (endpoints (config (router s))) s in
    wf (router s') /\
    config (router s') = config (router s) /\
    cache (router s') = cache (router s) /\
    metrics (router s') = metrics (router s) /\
    forall k, report !! k
              = if decide (k ∈ map name (endpoints (config (router s))))
                then report_of (router s') k else None.
Proof.
  intros [Hent Hrange].
  destruct (health_check_entries s Hent)
    as (rep & Hrun & Hent' & Hcfg & Hcache & Hmet & Hlook).
  exists rep. split; [exact Hrun|]. cbv zeta.
  split; [split; [exact Hent' | rewrite Hcfg; exact Hrange]|].
  auto.
Qed.

(** C6. A [health_check] sweep on a router that has the entries of its
    endpoints, with unique endpoint names, never raises.  For every endpoint, the iteration that
    visits it starts from a state [sb] in which the endpoint's entries
    are those before the sweep; if the endpoint is OPEN and
    [now - last_failure_time > recovery_timeout] it is promoted to
    HALF_OPEN; an endpoint that is then HALF_OPEN is probed and ends
    CLOSED with failures reset (probe success) or OPEN with
    [last_failure_time] refreshed (probe failure); any other endpoint is
    left alone; the rest of the sweep does not touch its entries.  The
    call returns the map from each endpoint name to its state and failure
    count after the sweep. *)
Theorem health_check_spec (s : Sys) :
  has_entries (router s) ->
  NoDup (map name (endpoints (config (router s)))) ->
  exists report s',
    health_check w s = (Return report, s') /\
    s' = sweep_state w (endpoints (config (router s))) s /\
    has_entries (router s') /\
    config (router s') = config (router s) /\
    cache (router s') = cache (router s) /\
    metrics (router s') = metrics (router s) /\
    (forall e, e ∈ endpoints (config (router s)) ->
       exists st',
         circuit_states (router s') !! name e = Some st' /\
         report !! name e
           = Some {| state := st';
                     failures := dd_int (failure_counts (router s')) (name e) |}) /\
    (forall k, k ∉ map name (endpoints (config (router s))) -> report !! k = None) /\
    (forall e, e ∈ endpoints (config (router s)) ->
       exists st sb sa,
         circuit_states (router s) !! name e = Some st /\
         same_entry (name e) (router sb) (router s) /\
         health_check_endpoint w e sb = (Return tt, sa) /\
         health_outcome w e st sb sa /\
         same_entry (name e) (router s') (router sa)).
Proof.
  intros Hwf Hnd.
  destruct (health_check_entries s Hwf)
    as (rep & Hrun & Hwf' & Hcfg & Hcache & Hmet & Hlook).
  set (s' := sweep_state w (endpoints (config (router s))) s) in *.
  exists rep, s'. split; [exact Hrun|].
  split; [reflexivity|]. split; [exact Hwf'|].
  split; [exact Hcfg|]. split; [exact Hcache|]. split; [exact Hmet|].
  split; [|split].
  - intros e He.
    destruct (has_entries_lookup _ e Hwf') as (st' & _ & Hst' & _);
      [rewrite Hcfg; exact He|].
    exists st'. split; [exact Hst'|].
    rewrite Hlook, decide_True by (apply list_elem_of_fmap_2; exact He).
    unfold report_of. rewrite Hst'. reflexivity.
  - intros k Hnin. rewrite Hlook, decide_False by exact Hnin. reflexivity.
  - intros e He.
    apply (sweep_state_outcome _ s (has_entries_keys _ Hwf) Hnd e He).
Qed.

End Health.

(** ** Whole calls *)

Section Calls.

Variable sha256_hexdigest : string -> string.
Variable str_sorted_items : gmap string value -> string.
Variable w : World.

Local Abbreviation infer := (inference sha256_hexdigest str_sorted_items w).
Local Abbreviation key_of := (_get_cache_key sha256_hexdigest str_sorted_items).
Local Abbreviation call_run := (run_call sha256_hexdigest str_sorted_items w).
Local Abbreviation calls_run := (run_calls sha256_hexdigest str_sorted_items w).

Lemma inference_hit (model_type data : string) (md : option (gmap string value))
    (s : Sys) (entry : CacheEntry) :
  cache (router s) !! key_of model_type data md = Some entry ->
  infer model_type data md s = (Return (response entry), s).
Proof.
  intros Hhit. unfold inference. unfold bind, get_router.
  rewrite Hhit. reflexivity.
Qed.

Lemma inference_miss (model_type data : string) (md : option (gmap string value))
    (s : Sys) :
  wf (router s) ->
  cache (router s) !! key_of model_type data md = None ->
  exists vd s',
    infer model_type data md s = (Return (verdict_value vd), s') /\
    loop_post w (key_of model_type data md) 0 s s' vd.
Proof.
  intros Hwf Hmiss.
  destruct (dispatch_loop_spec w (key_of model_type data md) data md
              (S (Z.to_nat (max_attempts (retry_config (config (router s))))))
              0 [] s Hwf) as (vd & s' & Hrun & Hpost).
  { lia. }
  { rewrite Z.sub_0_r. lia. }
  exists vd, s'. split; [|exact Hpost].
  unfold inference. unfold bind, get_router. rewrite Hmiss. exact Hrun.
Qed.

Lemma stable_refl (s : Sys) : wf (router s) -> stable s s.
Proof. intros Hwf. unfold stable. auto. Qed.

Lemma stable_trans (a b c : Sys) : stable a b -> stable b c -> stable a c.
Proof.
  unfold stable. intros (H1 & H2 & H3 & H4) (H5 & H6 & H7 & H8).
  split; [exact H5|]. split; [congruence|]. split; [auto|].
  etrans; eassumption.
Qed.

Lemma inference_stable (model_type data : string)
    (md : option (gmap string value)) (s : Sys) :
  wf (router s) ->
  exists v, fst (infer model_type data md s) = Return v /\
            stable s (snd (infer model_type data md s)).
Proof.
  intros Hwf.
  destruct (cache (router s) !! key_of model_type data md)
    as [entry|] eqn:Hc.
  - rewrite (inference_hit _ _ _ _ entry Hc). simpl.
    eexists. split; [reflexivity | apply stable_refl, Hwf].
  - destruct (inference_miss model_type data md s Hwf Hc)
      as (vd & s' & Hrun & Hwf' & Hcfg & Hminv & _ & _ & Hvd).
    rewrite Hrun. simpl. eexists. split; [reflexivity|].
    unfold stable. split; [exact Hwf'|]. split; [exact Hcfg|].
    split; [exact Hminv|].
    destruct vd as [failed e resp | failed | failed].
    + destruct Hvd as (_ & [t Ht] & _). rewrite Ht.
      apply insert_subseteq, Hc.
    + destruct Hvd as (_ & ->). reflexivity.
    + destruct Hvd as (_ & ->). reflexivity.
Qed.

Lemma run_call_stable (c : call) (s : Sys) :
  wf (router s) -> stable s (call_run c s).
Proof.
  intros Hwf. destruct c as [model_type data md|]; simpl.
  - destruct (inference_stable model_type data md s Hwf) as (_ & _ & H). exact H.
  - destruct (health_check_run w s Hwf) as (rep & Hrun & Hwf' & Hcfg & Hcache & Hmet & _).
    rewrite Hrun. simpl. unfold stable.
    split; [exact Hwf'|]. split; [exact Hcfg|].
    split; [rewrite Hmet; auto|]. rewrite Hcache. reflexivity.
Qed.

Lemma run_calls_stable (calls : list call) :
  forall s, wf (router s) -> stable s (calls_run calls s).
Proof.
  induction calls as [|c calls IH]; intros s Hwf.
  - apply stable_refl, Hwf.
  - pose proof (run_call_stable c s Hwf) as Hc.
    eapply stable_trans; [exact Hc|].
    apply IH. apply Hc.
Qed.

Lemma metrics_inv_init (cfg : AIModelRouterConfig) :
  metrics_inv (metrics (init cfg)).
Proof.
  unfold init. simpl.
  assert (forall (l : list EndpointConfig) (d : gmap string Metrics),
            metrics_inv d ->
            metrics_inv
              (foldl (fun d e =>
                        <[name e := {| request_count := 0; success_count := 0;
                                       error_count := 0; total_latency := 0%Q;
                                       average_latency := 0%Q |}]> d) d l))
    as Hfold.
  { induction l as [|e l IH]; intros d Hd; simpl; [exact Hd|].
    apply IH. apply map_Forall_insert_2; [|exact Hd].
    unfold metrics_ok. simpl. split; [reflexivity | lia]. }
  apply Hfold. apply map_Forall_empty.
Qed.

End Calls.

(** ** A router with a single endpoint and a transport that always fails *)

Section SingleEndpoint.

Variable w : World.
Hypothesis always_failing : forall n, reply w n = None.





End SingleEndpoint.

Lemma after_two_failures_wf : wf (router after_two_failures).
Proof. apply run_calls_stable, wf_init, single_config_range. Qed.

Lemma after_two_failures_nodup :
  NoDup (map name (endpoints (config (router after_two_failures)))).
Proof. vm_compute. repeat constructor. inversion 1. Qed.

Lemma sweep_later_closed :
  circuit_states
    (router (sweep_state world_later
               (endpoints (config (router after_two_failures)))
               after_two_failures)) !! "only"%string = Some CLOSED.
Proof. vm_compute. reflexivity. Qed.

Lemma health_check_spec_witness :
  exists report s',
    health_check world_later after_two_failures = (Return report, s') /\
    circuit_states (router s') !! "only"%string = Some CLOSED.
Proof.
  destruct (health_check_spec world_later after_two_failures
              (proj1 after_two_failures_wf) after_two_failures_nodup)
    as (report & s' & Hrun & Hs' & _).
  exists report, s'. split; [exact Hrun|].
  rewrite Hs'. exact sweep_later_closed.
Defined.

(** ** Claims about whole calls *)

Section RetryScenario.

Variable w : World.

Lemma preferred_endpoint_later (r : AIModelRouter) (attempts : Z)
    (md : option (gmap string value)) :
  attempts <> 0 -> preferred_endpoint r attempts md = None.
Proof.
  intros Hne. unfold preferred_endpoint. destruct md as [m|]; [|reflexivity].
  destruct (Z.eqb_spec attempts 0); [contradiction | reflexivity].
Qed.




End RetryScenario.

Section CallClaims.

Variable sha256_hexdigest : string -> string.
Variable str_sorted_items : gmap string value -> string.
Variable w : World.

Local Abbreviation infer := (inference sha256_hexdigest str_sorted_items w).
Local Abbreviation key_of := (_get_cache_key sha256_hexdigest str_sorted_items).
Local Abbreviation call_run := (run_call sha256_hexdigest str_sorted_items w).
Local Abbreviation calls_run := (run_calls sha256_hexdigest str_sorted_items w).

(** C7. A call whose fingerprint is in the cache returns the cached
    response verbatim and leaves the whole system state as it was: no
    transport event, no clock reading, no freshness check.  A call that
    misses the cache writes an entry exactly when it ends with a provider
    response, and then every later call with the same
    [(model_type, data, metadata)], after any sequence of other calls,
    returns that response from the cache; a call that ends with one of
    the two error results leaves the cache untouched. *)
Theorem cache_spec (model_type data : string) (md : option (gmap string value))
    (s : Sys) :
  wf (router s) ->
  let key := key_of model_type data md in
  (forall entry,
     cache (router s) !! key = Some entry ->
     infer model_type data md s = (Return (response entry), s)) /\
  (cache (router s) !! key = None ->
   exists vd s1,
     infer model_type data md s = (Return (verdict_value vd), s1) /\
     match vd with
     | Served _ _ resp =>
         (exists n, n_reply s1 = S n /\ reply w n = Some resp) /\
         (exists t, cache (router s1)
                    = <[key := {| timestamp := t; response := resp |}]>
                        (cache (router s))) /\
         forall calls,
           let s2 := calls_run calls s1 in
           infer model_type data md s2 = (Return resp, s2)
     | Unavailable _ | Exhausted _ =>
         cache (router s1) = cache (router s)
     end).
Proof.
  intros Hwf key. split.
  - intros entry Hhit. apply inference_hit, Hhit.
  - intros Hmiss.
    destruct (inference_miss sha256_hexdigest str_sorted_items w
                model_type data md s Hwf Hmiss)
      as (vd & s1 & Hrun & Hwf1 & _ & _ & _ & _ & Hvd).
    exists vd, s1. split; [exact Hrun|].
    destruct vd as [failed e resp | failed | failed].
    + destruct Hvd as (_ & [t Ht] & _ & _ & Hrep).
      split; [exact Hrep|]. split; [exists t; exact Ht|].
      intros calls s2.
      destruct (run_calls_stable sha256_hexdigest str_sorted_items w calls s1 Hwf1)
        as (_ & _ & _ & Hsub).
      assert (cache (router s2) !! key
              = Some {| timestamp := t; response := resp |}) as Hhit.
      { eapply lookup_weaken; [|exact Hsub]. rewrite Ht. apply lookup_insert_eq. }
      apply (inference_hit sha256_hexdigest str_sorted_items w
               model_type data md s2 _ Hhit).
    + apply Hvd.
    + apply Hvd.
Qed.





End CallClaims.

Lemma cache_spec_witness :
  exists vd s1,
    run_inference world_up "stt" "payload" None (boot single_config)
      = (Return (verdict_value vd), s1).
Proof.
  destruct (cache_spec (fun x => x) (fun _ => EmptyString) world_up
              "stt" "payload" None (boot single_config) (wf_init single_config single_config_range))
    as [_ Hmiss].
  destruct (Hmiss (lookup_empty _)) as (vd & s1 & Hrun & _).
  exists vd, s1. exact Hrun.
Defined.




(** * Further properties of the router *)

(** ** The loop relation *)

Section LoopRun.

Variable w : World.

(** Every run of the code's loop from a well-formed state is a
    derivation of [loop_run]. *)
Lemma dispatch_loop_runs (key data : string) (md : option (gmap string value))
    (fuel : nat) :
  forall (attempts : Z) (tried : list string) (s : Sys),
    wf (router s) ->
    0 <= attempts ->
    (Z.to_nat (max_attempts (retry_config (config (router s))) - attempts) < fuel)%nat ->
    exists vd s',
      dispatch_loop w fuel key data md attempts tried s
        = (Return (verdict_value vd), s') /\
      loop_run w key md attempts tried s vd s'.
Proof.
  induction fuel as [|fuel IH]; intros attempts tried s Hwf Hpos Hfuel; [lia|].
  destruct (Z.ltb_spec attempts (max_attempts (retry_config (config (router s)))))
    as [Hlt|Hge].
  - destruct (pick_endpoint_run w attempts md tried s Hwf)
      as (oe & s1 & Hpick & _ & Hr & _ & _ & _ & _ & Hin).
    pose proof (dispatch_loop_step w fuel key data md attempts tried s s1 oe
                  Hlt Hpick Hr) as Hstep.
    destruct oe as [e|].
    + destruct (wf_lookup _ e Hwf (Hin e eq_refl)) as (st & m & Hst & Hm).
      specialize (Hstep st m Hst Hm). cbv zeta in Hstep.
      rewrite (wf_backoff_ok _ attempts Hwf Hpos) in Hstep.
      assert (protocol_event e = None \/ reply w (n_reply s1) = None ->
              exists vd s',
                dispatch_loop w (S fuel) key data md attempts tried s
                  = (Return (verdict_value vd), s') /\
                loop_run w key md attempts tried s vd s') as Hfail.
      { intros Hbad.
        assert (metrics (router (tick_clock s1)) !! name e = Some m) as Hm2
          by (simpl; rewrite Hr; exact Hm).
        destruct (attempt_failed_facts w e (clock w (n_clock s1)) attempts st m
                    (tick_clock s1) Hm2) as (Hcfg3 & _ & _ & Hwf3 & _ & _).
        simpl router in Hcfg3, Hwf3. rewrite Hr in Hcfg3, Hwf3.
        destruct (IH (attempts + 1) (tried ++ [name e])
                     (attempt_failed w e (clock w (n_clock s1)) attempts st m
                        (tick_clock s1)))
          as (vd & s' & Hrun & Hrel); [auto | lia | rewrite Hcfg3; lia|].
        exists (verdict_cons e vd), s'. split.
        - destruct Hbad as [Hp|Hrp].
          + rewrite Hp in Hstep. rewrite Hstep, Hrun. destruct vd; reflexivity.
          + rewrite Hrp in Hstep.
            assert (dispatch_loop w (S fuel) key data md attempts tried s
                    = dispatch_loop w fuel key data md (attempts + 1)
                        (tried ++ [name e])
                        (attempt_failed w e (clock w (n_clock s1)) attempts st m
                           (tick_clock s1))) as ->
              by (destruct (protocol_event e); exact Hstep).
            rewrite Hrun. destruct vd; reflexivity.
        - eapply loop_failed; eauto. }
      destruct (protocol_event e) as [ev|] eqn:Hev; [|apply Hfail; auto].
      destruct (reply w (n_reply s1)) as [resp|] eqn:Hreply; [|apply Hfail; auto].
      eexists (Served [] e resp), _. split; [exact Hstep|].
      eapply loop_served; eauto.
    + exists (Unavailable []), s1. split; [exact Hstep|].
      apply loop_unavailable; assumption.
  - exists (Exhausted []), s. split.
    + simpl. unfold bind at 1, get_router.
      apply Z.ltb_ge in Hge. rewrite Hge. reflexivity.
    + apply loop_exhausted, Hge.
Qed.

End LoopRun.

Section LoopRunFacts.

Variable w : World.

Lemma pick_endpoint_inv (attempts : Z) (md : option (gmap string value))
    (tried : list string) (s s1 : Sys) (oe : option EndpointConfig) :
  wf (router s) ->
  pick_endpoint w attempts md tried s = (Return oe, s1) ->
  router s1 = router s /\ trace s1 = trace s /\
  n_reply s1 = n_reply s /\ n_clock s1 = n_clock s /\ n_probe s1 = n_probe s /\
  oe = match preferred_endpoint (router s) attempts md with
       | Some e => Some e
       | None => select_pure (router s) tried (entropy w (n_entropy s))
       end /\
  (forall e, oe = Some e -> e ∈ endpoints (config (router s))).
Proof.
  intros Hwf Hpick.
  destruct (pick_endpoint_run w attempts md tried s Hwf)
    as (oe' & s1' & Hpick' & Hoe & Hr & Htr & Hnr & Hnc & Hnp & Hin).
  rewrite Hpick in Hpick'. injection Hpick' as -> ->. auto 10.
Qed.

(** The endpoint of an iteration is outside the tried-list, except that
    the preference of the first iteration is taken as it is. *)
Lemma pick_endpoint_fresh (attempts : Z) (md : option (gmap string value))
    (tried : list string) (s s1 : Sys) (e : EndpointConfig) :
  wf (router s) ->
  pick_endpoint w attempts md tried s = (Return (Some e), s1) ->
  preferred_endpoint (router s) attempts md = Some e \/
  (preferred_endpoint (router s) attempts md = None /\
   (name e ∉ tried) /\
   (exists st, circuit_states (router s) !! name e = Some st /\ st <> OPEN)).
Proof.
  intros Hwf Hpick.
  destruct (pick_endpoint_inv _ _ _ _ _ _ Hwf Hpick) as (_ & _ & _ & _ & _ & Hoe & _).
  destruct (preferred_endpoint (router s) attempts md) as [p|].
  - left. congruence.
  - right. split; [reflexivity|]. symmetry in Hoe.
    apply select_pure_in, candidates_spec in Hoe.
    destruct Hoe as (_ & Hst & Hex). auto.
Qed.

Lemma preferred_endpoint_first (r : AIModelRouter) (attempts : Z)
    (md : option (gmap string value)) (e : EndpointConfig) :
  preferred_endpoint r attempts md = Some e -> attempts = 0.
Proof.
  intros H. destruct (Z.eq_dec attempts 0) as [|Hne]; [assumption|].
  rewrite (preferred_endpoint_later r attempts md Hne) in H. discriminate.
Qed.

(** Frames: an attempt on [e] touches no other endpoint's circuit entries. *)
Lemma failure_handled_frame (n : string) (st : circuit) (s : Sys) (k : string) :
  k <> n ->
  same_entry k (router (failure_handled w n st s)) (router s).
Proof.
  intros Hk. unfold failure_handled, same_entry. destruct st; cbv zeta.
  - destruct (_ <=? _); simpl; rewrite ?lookup_insert_ne by congruence; auto.
  - auto.
  - simpl. rewrite ?lookup_insert_ne by congruence. auto.
Qed.

Lemma reset_done_frame (n : string) (st : circuit) (s : Sys) (k : string) :
  k <> n ->
  same_entry k (router (reset_done n st s)) (router s).
Proof.
  intros Hk. unfold reset_done, same_entry.
  destruct (bool_decide (st = CLOSED)); simpl;
    rewrite ?lookup_insert_ne by congruence; auto.
Qed.

Lemma reset_done_lft (n : string) (st : circuit) (s : Sys) :
  last_failure_time (router (reset_done n st s)) = last_failure_time (router s).
Proof. unfold reset_done. destruct (bool_decide (st = CLOSED)); reflexivity. Qed.

Lemma attempt_failed_router (e : EndpointConfig) (t0 : Q) (attempts : Z)
    (st : circuit) (m : Metrics) (s : Sys) :
  router (attempt_failed w e t0 attempts st m s)
    = router (failure_handled w (name e) st
                (upd_router
                   (with_metrics
                      (fun d => <[name e := bump_metrics m
                                    (clock w (n_clock (attempt_sent e s)) - t0) false]> d))
                   (tick_clock (attempt_sent e s)))).
Proof.
  unfold attempt_failed. cbv zeta. destruct (_ <? _); reflexivity.
Qed.

Lemma attempt_failed_frame (e : EndpointConfig) (t0 : Q) (attempts : Z)
    (st : circuit) (m : Metrics) (s : Sys) (k : string) :
  k <> name e ->
  same_entry k (router (attempt_failed w e t0 attempts st m s)) (router s) /\
  metrics (router (attempt_failed w e t0 attempts st m s)) !! k
    = metrics (router s) !! k.
Proof.
  intros Hk. rewrite attempt_failed_router. split.
  - eapply same_entry_trans; [apply failure_handled_frame, Hk|].
    unfold same_entry. simpl. rewrite attempt_sent_router. auto.
  - destruct (failure_handled_facts w (name e) st
                (upd_router
                   (with_metrics
                      (fun d => <[name e := bump_metrics m
                                    (clock w (n_clock (attempt_sent e s)) - t0) false]> d))
                   (tick_clock (attempt_sent e s)))) as (_ & _ & -> & _).
    simpl. rewrite attempt_sent_router. apply lookup_insert_ne. congruence.
Qed.

Lemma attempt_failed_metrics (e : EndpointConfig) (t0 : Q) (attempts : Z)
    (st : circuit) (m : Metrics) (s : Sys) :
  metrics (router (attempt_failed w e t0 attempts st m s)) !! name e
    = Some (bump_metrics m (clock w (n_clock (attempt_sent e s)) - t0) false).
Proof.
  rewrite attempt_failed_router.
  destruct (failure_handled_facts w (name e) st
              (upd_router
                 (with_metrics
                    (fun d => <[name e := bump_metrics m
                                  (clock w (n_clock (attempt_sent e s)) - t0) false]> d))
                 (tick_clock (attempt_sent e s)))) as (_ & _ & -> & _).
  simpl. apply lookup_insert_eq.
Qed.

Lemma attempt_succeeded_frame (key : string) (e : EndpointConfig) (t0 : Q)
    (resp : value) (st : circuit) (m : Metrics) (s : Sys) (k : string) :
  k <> name e ->
  same_entry k (router (attempt_succeeded w key e t0 resp st m s)) (router s) /\
  metrics (router (attempt_succeeded w key e t0 resp st m s)) !! k
    = metrics (router s) !! k.
Proof.
  intros Hk. unfold attempt_succeeded. cbv zeta.
  set (s2 := upd_router _ (tick_clock (attempt_sent e s))).
  destruct (reset_done_facts (name e) st s2) as (_ & _ & Hmet & _).
  pose proof (reset_done_frame (name e) st s2 k Hk) as Hfr.
  split.
  - eapply same_entry_trans; [exact Hfr|].
    unfold same_entry, s2. simpl. rewrite attempt_sent_router. auto.
  - simpl. rewrite Hmet. unfold s2. simpl. rewrite attempt_sent_router.
    apply lookup_insert_ne. congruence.
Qed.

Lemma attempt_succeeded_metrics (key : string) (e : EndpointConfig) (t0 : Q)
    (resp : value) (st : circuit) (m : Metrics) (s : Sys) :
  metrics (router (attempt_succeeded w key e t0 resp st m s)) !! name e
    = Some (bump_metrics m (clock w (n_clock (attempt_sent e s)) - t0) true).
Proof.
  unfold attempt_succeeded. cbv zeta.
  set (s2 := upd_router _ (tick_clock (attempt_sent e s))).
  destruct (reset_done_facts (name e) st s2) as (_ & _ & Hmet & _).
  simpl. rewrite Hmet. unfold s2. simpl. apply lookup_insert_eq.
Qed.

(** Basic facts of a run: the configuration, well-formedness, the trace
    and where the attempted endpoints come from. *)
Lemma loop_run_facts (key : string) (md : option (gmap string value))
    (attempts : Z) (tried : list string) (s s' : Sys) (vd : verdict) :
  loop_run w key md attempts tried s vd s' ->
  wf (router s) ->
  wf (router s') /\
  config (router s') = config (router s) /\
  trace s' = trace s ++ verdict_trace (retry_config (config (router s))) attempts vd /\
  n_probe s' = n_probe s /\
  Forall (fun e => e ∈ endpoints (config (router s))) (attempted vd).
Proof.
  induction 1 as [attempts tried s Hge
                 | attempts tried s s1 Hwf Hlt Hpick
                 | attempts tried s s1 e st m ev resp Hwf Hlt Hpick Hst Hm Hev Hrep
                 | attempts tried s s1 e st m vd s' Hwf Hlt Hpick Hst Hm Hbad Hrun IH];
    intros Hwf0.
  - split; [exact Hwf0|]. split; [reflexivity|].
    split; [rewrite app_nil_r; reflexivity|]. split; [reflexivity | constructor].
  - destruct (pick_endpoint_inv _ _ _ _ _ _ Hwf Hpick)
      as (Hr & Htr & _ & _ & Hnp & _ & _).
    rewrite Hr. split; [exact Hwf0|]. split; [reflexivity|].
    split; [rewrite Htr, app_nil_r; reflexivity|]. split; [exact Hnp | constructor].
  - destruct (pick_endpoint_inv _ _ _ _ _ _ Hwf Hpick)
      as (Hr & Htr & _ & _ & Hnp & _ & Hin).
    assert (metrics (router (tick_clock s1)) !! name e = Some m) as Hm2
      by (simpl; rewrite Hr; exact Hm).
    destruct (attempt_succeeded_facts w key e (clock w (n_clock s1)) resp st m
                (tick_clock s1) Hm2) as (Hcfg & _ & Htr' & _ & Hwf' & _);
      [rewrite Hev; eauto|].
    change (router (tick_clock s1)) with (router s1) in Hcfg, Hwf'.
    change (trace (tick_clock s1)) with (trace s1) in Htr'.
    rewrite Hr in Hcfg, Hwf'.
    split; [auto|]. split; [exact Hcfg|].
    split; [rewrite Htr', Htr; reflexivity|].
    split.
    + unfold attempt_succeeded, reset_done, attempt_sent. rewrite Hev.
      destruct (bool_decide (st = CLOSED)); simpl; exact Hnp.
    + repeat constructor. apply Hin. reflexivity.
  - destruct (pick_endpoint_inv _ _ _ _ _ _ Hwf Hpick)
      as (Hr & Htr & _ & _ & Hnp & _ & Hin).
    assert (metrics (router (tick_clock s1)) !! name e = Some m) as Hm2
      by (simpl; rewrite Hr; exact Hm).
    destruct (attempt_failed_facts w e (clock w (n_clock s1)) attempts st m
                (tick_clock s1) Hm2) as (Hcfg & _ & Htr' & Hwf' & _ & _).
    change (router (tick_clock s1)) with (router s1) in Hcfg, Hwf', Htr'.
    change (trace (tick_clock s1)) with (trace s1) in Htr'.
    rewrite Hr in Hcfg, Hwf', Htr'.
    destruct (IH (Hwf' Hwf)) as (Hwf'' & Hcfg'' & Htr'' & Hnp'' & Hall).
    rewrite Hcfg in Hcfg'', Htr'', Hall.
    split; [exact Hwf''|]. split; [exact Hcfg''|].
    split.
    { rewrite Htr'', Htr', Htr, verdict_cons_trace, <- !app_assoc. reflexivity. }
    split.
    { rewrite Hnp''. unfold attempt_failed. cbv zeta.
      set (s2 := upd_router _ _).
      assert (n_probe s2 = n_probe s) as Hs2.
      { unfold s2, attempt_sent. destruct (protocol_event e); simpl; exact Hnp. }
      assert (n_probe (failure_handled w (name e) st s2) = n_probe s2) as Hfh.
      { unfold failure_handled. destruct st; cbv zeta;
          [destruct (_ <=? _)| |]; reflexivity. }
      destruct (_ <? _); simpl; congruence. }
    assert (attempted (verdict_cons e vd) = e :: attempted vd) as ->
      by (destruct vd; reflexivity).
    constructor; [apply Hin; reflexivity | exact Hall].
Qed.

End LoopRunFacts.

Section LoopRunProperties.

Variable w : World.

Lemma attempted_cons (e : EndpointConfig) (vd : verdict) :
  attempted (verdict_cons e vd) = e :: attempted vd.
Proof. destruct vd; reflexivity. Qed.

Lemma failed_cons (e : EndpointConfig) (vd : verdict) :
  verdict_failed (verdict_cons e vd) = e :: verdict_failed vd.
Proof. destruct vd; reflexivity. Qed.

(** No endpoint name is attempted twice within one run of the loop. *)
Lemma loop_run_distinct (key : string) (md : option (gmap string value))
    (attempts : Z) (tried : list string) (s s' : Sys) (vd : verdict) :
  loop_run w key md attempts tried s vd s' ->
  0 <= attempts ->
  (attempts = 0 -> tried = []) ->
  NoDup (map name (attempted vd)) /\
  Forall (fun e => name e ∉ tried) (attempted vd).
Proof.
  induction 1 as [attempts tried s Hge
                 | attempts tried s s1 Hwf Hlt Hpick
                 | attempts tried s s1 e st m ev resp Hwf Hlt Hpick Hst Hm Hev Hrep
                 | attempts tried s s1 e st m vd s' Hwf Hlt Hpick Hst Hm Hbad Hrun IH];
    intros Hpos Hfirst.
  - split; constructor.
  - split; constructor.
  - assert (name e ∉ tried) as Hfresh.
    { destruct (pick_endpoint_fresh w _ _ _ _ _ _ Hwf Hpick) as [Hp|(_ & Hf & _)];
        [|exact Hf].
      rewrite (Hfirst (preferred_endpoint_first _ _ _ _ Hp)). apply not_elem_of_nil. }
    split.
    + simpl. apply NoDup_singleton.
    + repeat constructor. exact Hfresh.
  - assert (name e ∉ tried) as Hfresh.
    { destruct (pick_endpoint_fresh w _ _ _ _ _ _ Hwf Hpick) as [Hp|(_ & Hf & _)];
        [|exact Hf].
      rewrite (Hfirst (preferred_endpoint_first _ _ _ _ Hp)). apply not_elem_of_nil. }
    destruct IH as [Hnd Hall]; [lia | intros; lia|].
    rewrite attempted_cons. rewrite Forall_forall in Hall. split.
    + simpl. apply NoDup_cons. split; [|exact Hnd].
      intros Hin. apply list_elem_of_fmap in Hin as (x & Hx & Hxin).
      apply (Hall x Hxin). rewrite <- Hx. apply elem_of_app. right.
      apply list_elem_of_singleton. reflexivity.
    + constructor; [exact Hfresh|].
      apply Forall_forall. intros x Hx Hin. apply (Hall x Hx).
      apply elem_of_app. left. exact Hin.
Qed.

(** Without a preference, a run never dispatches to an OPEN endpoint and
    leaves the entries of every OPEN endpoint alone. *)
Lemma loop_run_open_untouched (key : string) (md : option (gmap string value))
    (attempts : Z) (tried : list string) (s s' : Sys) (vd : verdict) :
  loop_run w key md attempts tried s vd s' ->
  0 <= attempts ->
  preferred_endpoint (router s) attempts md = None ->
  forall n,
    circuit_states (router s) !! n = Some OPEN ->
    same_entry n (router s') (router s) /\
    Forall (fun e => name e <> n) (attempted vd).
Proof.
  induction 1 as [attempts tried s Hge
                 | attempts tried s s1 Hwf Hlt Hpick
                 | attempts tried s s1 e st m ev resp Hwf Hlt Hpick Hst Hm Hev Hrep
                 | attempts tried s s1 e st m vd s' Hwf Hlt Hpick Hst Hm Hbad Hrun IH];
    intros Hpos Hnopref n Hopen.
  - split; [apply same_entry_refl | constructor].
  - destruct (pick_endpoint_inv w _ _ _ _ _ _ Hwf Hpick) as (Hr & _).
    rewrite Hr. split; [apply same_entry_refl | constructor].
  - destruct (pick_endpoint_inv w _ _ _ _ _ _ Hwf Hpick) as (Hr & _).
    assert (name e <> n) as Hne.
    { destruct (pick_endpoint_fresh w _ _ _ _ _ _ Hwf Hpick)
        as [Hp|(_ & _ & st' & Hst' & Hno)]; [congruence|].
      intros Heq. rewrite Heq, Hopen in Hst'. congruence. }
    split; [|repeat constructor; exact Hne].
    destruct (attempt_succeeded_frame w key e (clock w (n_clock s1)) resp st m
                (tick_clock s1) n ltac:(congruence)) as [Hfr _].
    change (router (tick_clock s1)) with (router s1) in Hfr.
    rewrite Hr in Hfr. exact Hfr.
  - destruct (pick_endpoint_inv w _ _ _ _ _ _ Hwf Hpick) as (Hr & _).
    assert (name e <> n) as Hne.
    { destruct (pick_endpoint_fresh w _ _ _ _ _ _ Hwf Hpick)
        as [Hp|(_ & _ & st' & Hst' & Hno)]; [congruence|].
      intros Heq. rewrite Heq, Hopen in Hst'. congruence. }
    destruct (attempt_failed_frame w e (clock w (n_clock s1)) attempts st m
                (tick_clock s1) n ltac:(congruence)) as [Hfr _].
    change (router (tick_clock s1)) with (router s1) in Hfr.
    rewrite Hr in Hfr.
    assert (attempts + 1 <> 0) as Hnz by lia.
    assert (0 <= attempts + 1) as Hpos' by lia.
    destruct (IH Hpos' (preferred_endpoint_later _ _ md Hnz) n)
      as [Hsame Hall].
    { destruct Hfr as (-> & _). exact Hopen. }
    rewrite attempted_cons.
    split; [eapply same_entry_trans; eassumption|].
    constructor; assumption.
Qed.

Lemma bump_metrics_counts (m : Metrics) (latency : Q) (success : bool) :
  request_count (bump_metrics m latency success) = request_count m + 1 /\
  success_count (bump_metrics m latency success)
    = success_count m + (if success then 1 else 0) /\
  error_count (bump_metrics m latency success)
    = error_count m + (if success then 0 else 1) /\
  total_latency (bump_metrics m latency success)
    = (total_latency m + latency)%Q.
Proof.
  unfold bump_metrics. cbv zeta. simpl.
  destruct (0 <? request_count m + 1); destruct success; simpl;
    repeat split; lia.
Qed.

Lemma hits_cons (k : string) (e : EndpointConfig) (l : list EndpointConfig) :
  hits k (e :: l) = (if bool_decide (name e = k) then 1 else 0) + hits k l.
Proof.
  unfold hits. simpl. destruct (bool_decide (name e = k)); simpl length; lia.
Qed.

(** Per call and per endpoint, the counters move by the number of
    attempts made on that endpoint. *)
Lemma loop_run_metrics (key : string) (md : option (gmap string value))
    (attempts : Z) (tried : list string) (s s' : Sys) (vd : verdict) :
  loop_run w key md attempts tried s vd s' ->
  forall k m,
    metrics (router s) !! k = Some m ->
    exists m',
      metrics (router s') !! k = Some m' /\
      request_count m' = request_count m + hits k (attempted vd) /\
      error_count m' = error_count m + hits k (verdict_failed vd) /\
      success_count m'
        = success_count m + (hits k (attempted vd) - hits k (verdict_failed vd)).
Proof.
  induction 1 as [attempts tried s Hge
                 | attempts tried s s1 Hwf Hlt Hpick
                 | attempts tried s s1 e st m ev resp Hwf Hlt Hpick Hst Hm Hev Hrep
                 | attempts tried s s1 e st m vd s' Hwf Hlt Hpick Hst Hm Hbad Hrun IH];
    intros k m0 Hk.
  - exists m0. unfold hits. simpl. repeat split; [exact Hk | lia..].
  - destruct (pick_endpoint_inv w _ _ _ _ _ _ Hwf Hpick) as (Hr & _).
    rewrite Hr. exists m0. unfold hits. simpl. repeat split; [exact Hk | lia..].
  - destruct (pick_endpoint_inv w _ _ _ _ _ _ Hwf Hpick) as (Hr & _).
    unfold attempted. simpl verdict_failed. simpl app.
    rewrite hits_cons. change (hits k []) with 0.
    destruct (decide (name e = k)) as [<-|Hne].
    + rewrite Hm in Hk. injection Hk as <-.
      rewrite attempt_succeeded_metrics. eexists. split; [reflexivity|].
      destruct (bump_metrics_counts m
                  (clock w (n_clock (attempt_sent e (tick_clock s1)))
                   - clock w (n_clock s1)) true) as (H1 & H2 & H3 & _).
      rewrite bool_decide_eq_true_2 by reflexivity. lia.
    + destruct (attempt_succeeded_frame w key e (clock w (n_clock s1)) resp st m
                  (tick_clock s1) k ltac:(congruence)) as [_ Hfr].
      change (router (tick_clock s1)) with (router s1) in Hfr.
      rewrite Hr in Hfr. rewrite Hfr.
      exists m0. rewrite bool_decide_eq_false_2 by exact Hne.
      repeat split; [exact Hk | lia..].
  - destruct (pick_endpoint_inv w _ _ _ _ _ _ Hwf Hpick) as (Hr & _).
    rewrite attempted_cons, failed_cons, !hits_cons.
    destruct (decide (name e = k)) as [<-|Hne].
    + rewrite Hm in Hk. injection Hk as <-.
      destruct (IH (name e) _ (attempt_failed_metrics w e (clock w (n_clock s1))
                                 attempts st m (tick_clock s1)))
        as (m' & Hm' & H1 & H2 & H3).
      destruct (bump_metrics_counts m
                  (clock w (n_clock (attempt_sent e (tick_clock s1)))
                   - clock w (n_clock s1)) false) as (B1 & B2 & B3 & _).
      exists m'. rewrite bool_decide_eq_true_2 by reflexivity.
      split; [exact Hm'|]. lia.
    + destruct (attempt_failed_frame w e (clock w (n_clock s1)) attempts st m
                  (tick_clock s1) k ltac:(congruence)) as [_ Hfr].
      change (router (tick_clock s1)) with (router s1) in Hfr.
      rewrite Hr in Hfr.
      destruct (IH k m0) as (m' & Hm' & H1 & H2 & H3); [rewrite Hfr; exact Hk|].
      exists m'. rewrite bool_decide_eq_false_2 by exact Hne.
      split; [exact Hm'|]. lia.
Qed.

End LoopRunProperties.

Section LoopRunCounting.

Variable w : World.

Lemma loop_run_lengths (key : string) (md : option (gmap string value))
    (attempts : Z) (tried : list string) (s s' : Sys) (vd : verdict) :
  loop_run w key md attempts tried s vd s' ->
  let mx := max_attempts (retry_config (config (router s))) in
  match vd with
  | Exhausted failed => Z.of_nat (length failed) = Z.max 0 (mx - attempts)
  | _ => attempts + Z.of_nat (length (verdict_failed vd)) < mx
  end.
Proof.
  induction 1 as [attempts tried s Hge
                 | attempts tried s s1 Hwf Hlt Hpick
                 | attempts tried s s1 e st m ev resp Hwf Hlt Hpick Hst Hm Hev Hrep
                 | attempts tried s s1 e st m vd s' Hwf Hlt Hpick Hst Hm Hbad Hrun IH];
    cbv zeta in *.
  - simpl. lia.
  - simpl. lia.
  - simpl. lia.
  - destruct (pick_endpoint_inv w _ _ _ _ _ _ Hwf Hpick) as (Hr & _).
    assert (metrics (router (tick_clock s1)) !! name e = Some m) as Hm2
      by (simpl; rewrite Hr; exact Hm).
    destruct (attempt_failed_facts w e (clock w (n_clock s1)) attempts st m
                (tick_clock s1) Hm2) as (Hcfg & _).
    change (router (tick_clock s1)) with (router s1) in Hcfg.
    rewrite Hr in Hcfg. rewrite Hcfg in IH.
    destruct vd; simpl in *; lia.
Qed.

Lemma count_sleeps_app (a b : list event) :
  count_sleeps (a ++ b) = (count_sleeps a + count_sleeps b)%nat.
Proof. unfold count_sleeps. rewrite List.filter_app, length_app. reflexivity. Qed.

Lemma count_sleeps_protocol (e : EndpointConfig) :
  count_sleeps (protocol_events e) = 0%nat.
Proof.
  unfold protocol_events, protocol_event.
  destruct (bool_decide _); [reflexivity|].
  destruct (bool_decide _); reflexivity.
Qed.

(** In a run of failed attempts the sleeps are those of the failures
    after which attempts remain. *)
Lemma count_sleeps_failed (rc : RetryConfig) (failed : list EndpointConfig) :
  forall attempts,
    Z.of_nat (count_sleeps (failed_trace rc attempts failed))
      = Z.max 0 (Z.min (Z.of_nat (length failed)) (max_attempts rc - 1 - attempts)).
Proof.
  induction failed as [|e l IH]; intros attempts.
  - change (count_sleeps (failed_trace rc attempts [])) with 0%nat.
    change (length (@nil EndpointConfig)) with 0%nat. lia.
  - simpl failed_trace. rewrite !count_sleeps_app, count_sleeps_protocol.
    rewrite !Nat2Z.inj_add, IH. unfold backoff_events.
    destruct (Z.ltb_spec (attempts + 1) (max_attempts rc)); simpl length;
      change (count_sleeps [EvSleep _]) with 1%nat;
      change (count_sleeps []) with 0%nat; lia.
Qed.

Lemma count_sleeps_verdict (rc : RetryConfig) (attempts : Z) (vd : verdict) :
  Z.of_nat (count_sleeps (verdict_trace rc attempts vd))
    = Z.max 0 (Z.min (Z.of_nat (length (verdict_failed vd)))
                     (max_attempts rc - 1 - attempts)).
Proof.
  unfold verdict_trace. rewrite count_sleeps_app, Nat2Z.inj_add, count_sleeps_failed.
  assert (count_sleeps match vd with
                       | Served _ e _ => protocol_events e
                       | _ => []
                       end = 0%nat) as ->
    by (destruct vd; [apply count_sleeps_protocol | reflexivity | reflexivity]).
  lia.
Qed.

Lemma protocol_events_dispatch (names : list string) (e : EndpointConfig) :
  name e ∈ names -> Forall (dispatch_event names) (protocol_events e).
Proof.
  intros Hin. unfold protocol_events, protocol_event.
  destruct (bool_decide _); [repeat constructor; exact Hin|].
  destruct (bool_decide _); repeat constructor; exact Hin.
Qed.

Lemma failed_trace_dispatch (names : list string) (rc : RetryConfig)
    (failed : list EndpointConfig) :
  Forall (fun e => name e ∈ names) failed ->
  forall attempts, Forall (dispatch_event names) (failed_trace rc attempts failed).
Proof.
  induction 1 as [|e l He _ IH]; intros attempts; [constructor|].
  simpl. apply Forall_app. split; [apply protocol_events_dispatch, He|].
  apply Forall_app. split; [|apply IH].
  unfold backoff_events. destruct (_ <? _); repeat constructor.
Qed.

Lemma verdict_trace_dispatch (names : list string) (rc : RetryConfig)
    (attempts : Z) (vd : verdict) :
  Forall (fun e => name e ∈ names) (attempted vd) ->
  Forall (dispatch_event names) (verdict_trace rc attempts vd).
Proof.
  unfold attempted, verdict_trace. intros H. apply Forall_app in H as [Hf Hs].
  apply Forall_app. split; [apply failed_trace_dispatch, Hf|].
  destruct vd; try constructor.
  inversion Hs; subst. apply protocol_events_dispatch. assumption.
Qed.

(** Transport events name the endpoint attempted. *)
Lemma verdict_trace_names (rc : RetryConfig) (attempts : Z) (vd : verdict)
    (n : string) :
  Forall (fun e => name e <> n) (attempted vd) ->
  Forall (fun ev => event_endpoint ev <> Some n) (verdict_trace rc attempts vd).
Proof.
  assert (forall e, name e <> n ->
            Forall (fun ev => event_endpoint ev <> Some n) (protocol_events e)) as Hp.
  { intros e He. unfold protocol_events, protocol_event.
    destruct (bool_decide _); [repeat constructor; simpl; congruence|].
    destruct (bool_decide _); repeat constructor; simpl; congruence. }
  unfold attempted, verdict_trace. intros H. apply Forall_app in H as [Hf Hs].
  apply Forall_app. split.
  - clear Hs. revert attempts. induction Hf as [|e l He _ IH]; intros attempts;
      [constructor|].
    simpl. apply Forall_app. split; [apply Hp, He|].
    apply Forall_app. split; [|apply IH].
    unfold backoff_events. destruct (_ <? _); repeat constructor. discriminate.
  - destruct vd; try constructor. inversion Hs; subst. apply Hp. assumption.
Qed.

Lemma hits_le_one (k : string) (l : list EndpointConfig) :
  NoDup (map name l) -> 0 <= hits k l <= 1.
Proof.
  induction l as [|e l IH]; intros Hnd; [unfold hits; simpl; lia|].
  simpl in Hnd. apply NoDup_cons in Hnd as [Hnin Hnd].
  rewrite hits_cons. specialize (IH Hnd).
  destruct (bool_decide_reflect (name e = k)) as [<-|]; [|lia].
  assert (hits (name e) l = 0) as ->; [|lia].
  unfold hits.
  assert (List.filter (fun x => bool_decide (name x = name e)) l = []) as ->;
    [|reflexivity].
  clear IH Hnd. induction l as [|x l IHl]; [reflexivity|].
  simpl in *. apply not_elem_of_cons in Hnin as [Hne Hnin].
  rewrite bool_decide_eq_false_2 by congruence. apply IHl, Hnin.
Qed.

Lemma distinct_names_length (l k : list EndpointConfig) :
  NoDup (map name l) ->
  Forall (fun e => e ∈ k) l ->
  (length l <= length k)%nat.
Proof.
  intros Hnd Hall.
  rewrite <- (length_map name l), <- (length_map name k).
  apply submseteq_length, NoDup_submseteq; [exact Hnd|].
  intros x Hx. apply list_elem_of_fmap in Hx as (e & -> & He).
  rewrite Forall_forall in Hall. apply list_elem_of_fmap_2, Hall, He.
Qed.

End LoopRunCounting.

(** ** Invariants of the router object

    A property of the router object that the elementary updates keep is
    kept by every [inference] and [health_check] call. *)

Section InvariantHealth.

Variable w : World.
Variable I : AIModelRouter -> Prop.

Hypothesis I_failure :
  forall n st s,
    I (router s) -> circuit_states (router s) !! n = Some st ->
    I (router (failure_handled w n st s)).
Hypothesis I_reset :
  forall n st s,
    I (router s) -> circuit_states (router s) !! n = Some st ->
    I (router (reset_done n st s)).
Hypothesis I_promote :
  forall r n,
    I r -> circuit_states r !! n = Some OPEN ->
    I (with_circuit_states (fun d => <[n := HALF_OPEN]> d) r).

(** One iteration of the sweep is a promotion followed by a reset or a
    trip. *)
Lemma promote_then_probe (e : EndpointConfig) (st : circuit) (s : Sys) :
  I (router s) ->
  circuit_states (router s) !! name e = Some st ->
  I (router (health_checked w e st s)).
Proof.
  intros HI Hst.
  destruct (promoted_facts w e st s Hst) as (_ & _ & _ & _ & _ & _ & Hcs & _).
  assert (I (router (promoted w e st s))) as HIp.
  { unfold promoted. destruct (bool_decide_reflect (st = OPEN)) as [->|]; [|exact HI].
    destruct (recovery_due w e OPEN s); [|exact HI].
    simpl. apply I_promote; assumption. }
  unfold health_checked. destruct (probe_due w e st s) eqn:Hdue; [|exact HIp].
  rewrite (probe_due_promoted w e st s Hdue) in Hcs.
  unfold probed. cbv zeta.
  set (s1 := if probe_supported e then _ else promoted w e st s).
  assert (router s1 = router (promoted w e st s)) as Hr
    by (unfold s1; destruct (probe_supported e); reflexivity).
  destruct (probe_healthy w e (promoted w e st s)).
  - apply I_reset; rewrite Hr; assumption.
  - change (tripped w (name e) s1)
      with (failure_handled w (name e) HALF_OPEN s1).
    apply I_failure; rewrite Hr; assumption.
Qed.

End InvariantHealth.

Section InvariantSteps.

Variable w : World.
Variable I : AIModelRouter -> Prop.

Hypothesis I_metrics :
  forall r n m latency success,
    I r -> metrics r !! n = Some m ->
    I (with_metrics (fun d => <[n := bump_metrics m latency success]> d) r).
Hypothesis I_cache :
  forall r k v, I r -> I (with_cache (fun d => <[k := v]> d) r).
Hypothesis I_failure :
  forall n st s,
    I (router s) -> circuit_states (router s) !! n = Some st ->
    I (router (failure_handled w n st s)).
Hypothesis I_reset :
  forall n st s,
    I (router s) -> circuit_states (router s) !! n = Some st ->
    I (router (reset_done n st s)).

Lemma invariant_attempt_recorded (e : EndpointConfig) (t0 : Q)
    (st : circuit) (m : Metrics) (s : Sys) :
  I (router s) ->
  circuit_states (router s) !! name e = Some st ->
  metrics (router s) !! name e = Some m ->
  I (router (attempt_recorded w e t0 st m s)).
Proof.
  intros HI Hst Hm. unfold attempt_recorded. cbv zeta. apply I_failure.
  - simpl. rewrite attempt_sent_router. apply I_metrics; assumption.
  - simpl. rewrite attempt_sent_router. exact Hst.
Qed.

Lemma invariant_attempt_failed (e : EndpointConfig) (t0 : Q) (attempts : Z)
    (st : circuit) (m : Metrics) (s : Sys) :
  I (router s) ->
  circuit_states (router s) !! name e = Some st ->
  metrics (router s) !! name e = Some m ->
  I (router (attempt_failed w e t0 attempts st m s)).
Proof.
  intros HI Hst Hm. rewrite attempt_failed_router. apply I_failure.
  - simpl. rewrite attempt_sent_router. apply I_metrics; assumption.
  - simpl. rewrite attempt_sent_router. exact Hst.
Qed.

Lemma invariant_attempt_succeeded (key : string) (e : EndpointConfig) (t0 : Q)
    (resp : value) (st : circuit) (m : Metrics) (s : Sys) :
  I (router s) ->
  circuit_states (router s) !! name e = Some st ->
  metrics (router s) !! name e = Some m ->
  I (router (attempt_succeeded w key e t0 resp st m s)).
Proof.
  intros HI Hst Hm. unfold attempt_succeeded. cbv zeta. simpl.
  apply I_cache. apply I_reset.
  - simpl. rewrite attempt_sent_router. apply I_metrics; assumption.
  - simpl. rewrite attempt_sent_router. exact Hst.
Qed.

End InvariantSteps.

(** The entries of the configured endpoints are such a property. *)
Section Entries.

Variable w : World.

Lemma entries_metrics (r : AIModelRouter) (n : string) (m : Metrics)
    (latency : Q) (success : bool) :
  has_entries r -> metrics r !! n = Some m ->
  has_entries (with_metrics (fun d => <[n := bump_metrics m latency success]> d) r).
Proof.
  intros H _. eapply has_entries_same_shape; [exact H | reflexivity | auto |].
  intros k Hk. simpl. apply insert_keeps_keys, Hk.
Qed.

Lemma entries_cache (r : AIModelRouter) (k : string) (v : CacheEntry) :
  has_entries r -> has_entries (with_cache (fun d => <[k := v]> d) r).
Proof. intros H. exact H. Qed.

Lemma entries_failure (n : string) (st : circuit) (s : Sys) :
  has_entries (router s) ->
  circuit_states (router s) !! n = Some st ->
  has_entries (router (failure_handled w n st s)).
Proof.
  intros H _.
  destruct (failure_handled_facts w n st s) as (Hcfg & _ & Hmet & _ & _ & Hk & _).
  eapply has_entries_same_shape; [exact H | exact Hcfg | exact Hk |].
  intros k. rewrite Hmet. auto.
Qed.

Lemma entries_reset (n : string) (st : circuit) (s : Sys) :
  has_entries (router s) ->
  circuit_states (router s) !! n = Some st ->
  has_entries (router (reset_done n st s)).
Proof.
  intros H _.
  destruct (reset_done_facts n st s) as (Hcfg & _ & Hmet & _ & _ & _ & Hk & _).
  eapply has_entries_same_shape; [exact H | exact Hcfg | exact Hk |].
  intros k. rewrite Hmet. auto.
Qed.

Lemma entries_health (e : EndpointConfig) (st : circuit) (s : Sys) :
  has_entries (router s) ->
  circuit_states (router s) !! name e = Some st ->
  has_entries (router (health_checked w e st s)).
Proof.
  intros H Hst.
  destruct (health_checked_facts w e st s Hst) as (_ & Hcfg & _ & Hmet & Hk & _).
  eapply has_entries_same_shape; [exact H | exact Hcfg | exact Hk |].
  intros k. rewrite Hmet. auto.
Qed.

End Entries.

Section Invariant.

Variable sha256_hexdigest : string -> string.
Variable str_sorted_items : gmap string value -> string.
Variable w : World.
Variable I : AIModelRouter -> Prop.

Hypothesis I_metrics :
  forall r n m latency success,
    I r -> metrics r !! n = Some m ->
    I (with_metrics (fun d => <[n := bump_metrics m latency success]> d) r).
Hypothesis I_cache :
  forall r k v, I r -> I (with_cache (fun d => <[k := v]> d) r).
Hypothesis I_failure :
  forall n st s,
    I (router s) -> circuit_states (router s) !! n = Some st ->
    I (router (failure_handled w n st s)).
Hypothesis I_reset :
  forall n st s,
    I (router s) -> circuit_states (router s) !! n = Some st ->
    I (router (reset_done n st s)).
Hypothesis I_health :
  forall e st s,
    I (router s) -> circuit_states (router s) !! name e = Some st ->
    I (router (health_checked w e st s)).

(** The loop keeps the property however it ends: with a result, or with
    the [OverflowError] of a draw or of a backoff power. *)
Lemma invariant_dispatch_loop (key data : string)
    (md : option (gmap string value)) (fuel : nat) :
  forall (attempts : Z) (tried : list string) (s : Sys),
    has_entries (router s) -> I (router s) ->
    I (router (snd (dispatch_loop w fuel key data md attempts tried s))) /\
    has_entries (router (snd (dispatch_loop w fuel key data md attempts tried s))).
Proof.
  induction fuel as [|fuel IH]; intros attempts tried s Hent HI; [simpl; auto|].
  destruct (Z.ltb_spec attempts (max_attempts (retry_config (config (router s)))))
    as [Hlt|Hge].
  2:{ assert (dispatch_loop w (S fuel) key data md attempts tried s
              = (Return error_retries, s)) as ->.
      { simpl. unfold bind at 1, get_router.
        apply Z.ltb_ge in Hge. rewrite Hge. reflexivity. }
      simpl. auto. }
  destruct (pick_endpoint_outcome w attempts md tried s Hent)
    as (o & s1 & Hpick & _ & Hr & _ & _ & _ & _ & [-> | (oe & -> & Hin)]).
  - assert (dispatch_loop w (S fuel) key data md attempts tried s
            = (Raise OverflowError, s1)) as ->.
    { simpl. unfold bind at 1, get_router.
      apply Z.ltb_lt in Hlt. rewrite Hlt.
      unfold bind at 1. rewrite Hpick. reflexivity. }
    simpl. rewrite Hr. auto.
  - pose proof (dispatch_loop_step w fuel key data md attempts tried s s1 oe
                  Hlt Hpick Hr) as Hstep.
    destruct oe as [e|]; [|rewrite Hstep; simpl; rewrite Hr; auto].
    destruct (has_entries_lookup _ e Hent (Hin e eq_refl)) as (st & m & Hst & Hm).
    specialize (Hstep st m Hst Hm). cbv zeta in Hstep.
    set (t0 := clock w (n_clock s1)) in *.
    set (s2 := tick_clock s1) in *.
    assert (router s2 = router s) as Hr2 by exact Hr.
    assert (I (router s2)) as HI2 by (rewrite Hr2; exact HI).
    assert (has_entries (router s2)) as Hent2 by (rewrite Hr2; exact Hent).
    assert (circuit_states (router s2) !! name e = Some st) as Hst2
      by (rewrite Hr2; exact Hst).
    assert (metrics (router s2) !! name e = Some m) as Hm2
      by (rewrite Hr2; exact Hm).
    assert (dispatch_loop w (S fuel) key data md attempts tried s
              = dispatch_loop w fuel key data md (attempts + 1)
                  (tried ++ [name e]) (attempt_failed w e t0 attempts st m s2) \/
            dispatch_loop w (S fuel) key data md attempts tried s
              = (Raise OverflowError, attempt_recorded w e t0 st m s2) ->
            I (router (snd (dispatch_loop w (S fuel) key data md attempts tried s))) /\
            has_entries
              (router (snd (dispatch_loop w (S fuel) key data md attempts tried s))))
      as Hfail.
    { intros [-> | ->].
      - apply IH.
        + apply (invariant_attempt_failed w has_entries
                   entries_metrics (entries_failure w)); assumption.
        + apply (invariant_attempt_failed w I I_metrics I_failure); assumption.
      - simpl. split.
        + apply (invariant_attempt_recorded w I I_metrics I_failure); assumption.
        + apply (invariant_attempt_recorded w has_entries
                   entries_metrics (entries_failure w)); assumption. }
    destruct (protocol_event e) as [ev|].
    + destruct (reply w (n_reply s1)) as [resp|].
      * rewrite Hstep. simpl. split.
        -- apply (invariant_attempt_succeeded w I I_metrics I_cache I_reset);
             assumption.
        -- apply (invariant_attempt_succeeded w has_entries
                    entries_metrics entries_cache entries_reset); assumption.
      * apply Hfail. destruct (backoff_ok _ _); auto.
    + apply Hfail. destruct (backoff_ok _ _); auto.
Qed.

Lemma invariant_sweep (l : list EndpointConfig) :
  forall s, I (router s) -> I (router (sweep_state w l s)).
Proof.
  induction l as [|e l IH]; intros s HI; [exact HI|].
  unfold sweep_state. simpl. fold (sweep_state w l).
  destruct (circuit_states (router s) !! name e) as [st|] eqn:Hst.
  - apply IH, (I_health e st); assumption.
  - apply IH, HI.
Qed.

Lemma invariant_run_call (c : call) (s : Sys) :
  has_entries (router s) -> I (router s) ->
  I (router (run_call sha256_hexdigest str_sorted_items w c s)) /\
  has_entries (router (run_call sha256_hexdigest str_sorted_items w c s)).
Proof.
  intros Hent HI. destruct c as [model_type data md|]; simpl.
  - destruct (cache (router s)
                !! _get_cache_key sha256_hexdigest str_sorted_items model_type data md)
      as [entry|] eqn:Hc.
    + rewrite (inference_hit _ _ _ _ _ _ _ entry Hc). auto.
    + assert (inference sha256_hexdigest str_sorted_items w model_type data md s
              = dispatch_loop w
                  (S (Z.to_nat (max_attempts (retry_config (config (router s))))))
                  (_get_cache_key sha256_hexdigest str_sorted_items model_type data md)
                  data md 0 [] s) as ->.
      { unfold inference. unfold bind, get_router. rewrite Hc. reflexivity. }
      apply invariant_dispatch_loop; assumption.
  - destruct (health_check_entries w s Hent) as (rep & -> & Hent' & _).
    simpl. split; [apply invariant_sweep, HI | exact Hent'].
Qed.

Lemma invariant_run_calls (calls : list call) :
  forall s,
    has_entries (router s) -> I (router s) ->
    I (router (run_calls sha256_hexdigest str_sorted_items w calls s)).
Proof.
  induction calls as [|c calls IH]; intros s Hent HI; [exact HI|].
  simpl. destruct (invariant_run_call c s Hent HI) as [HI' Hent'].
  apply IH; assumption.
Qed.

End Invariant.

(** ** The metrics invariants *)

Section MetricsClaim.

Variable sha256_hexdigest : string -> string.
Variable str_sorted_items : gmap string value -> string.
Variable w : World.

Local Abbreviation calls_run := (run_calls sha256_hexdigest str_sorted_items w).

(** C4. After any sequence of [inference] and [health_check] calls on a
    freshly constructed router, [get_metrics] returns the live metrics
    map, and every entry of it satisfies
    [request_count = success_count + error_count] and, when
    [request_count > 0], [average_latency = total_latency / request_count].
    Moreover every single [_update_metrics], successful or failed and in
    any state, keeps both invariants, so any interleaving of
    metric-recording operations does. *)
Theorem metrics_invariants (cfg : AIModelRouterConfig) (calls : list call) :
  let s := calls_run calls (boot cfg) in
  (exists snapshot,
     get_metrics s = (Return snapshot, s) /\
     snapshot = metrics (router s) /\
     forall n m, snapshot !! n = Some m ->
       request_count m = success_count m + error_count m /\
       (0 < request_count m ->
        average_latency m = (total_latency m / inject_Z (request_count m))%Q)) /\
  (forall s0 n latency success,
     metrics_inv (metrics (router s0)) ->
     metrics_inv (metrics (router (snd (_update_metrics n latency success s0))))).
Proof.
  cbv zeta. split.
  - exists (metrics (router (calls_run calls (boot cfg)))).
    split; [reflexivity|]. split; [reflexivity|].
    assert (metrics_inv (metrics (router (calls_run calls (boot cfg))))) as Hinv.
    { apply (invariant_run_calls sha256_hexdigest str_sorted_items w
               (fun r => metrics_inv (metrics r))).
      - intros r n m latency success HI Hm. simpl.
        apply metrics_inv_insert; assumption.
      - intros r k v HI. exact HI.
      - intros n st s HI _.
        destruct (failure_handled_facts w n st s) as (_ & _ & -> & _). exact HI.
      - intros n st s HI _.
        destruct (reset_done_facts n st s) as (_ & _ & -> & _). exact HI.
      - intros e st s HI Hst.
        destruct (health_checked_facts w e st s Hst) as (_ & _ & _ & -> & _).
        exact HI.
      - apply has_entries_init.
      - apply metrics_inv_init. }
    intros n m Hm. apply (Hinv n m Hm).
  - intros s0 n latency success Hinv.
    unfold _update_metrics. monad_unfold.
    destruct (metrics (router s0) !! n) as [m|] eqn:Hm; simpl; [|exact Hinv].
    apply metrics_inv_insert; assumption.
Qed.

End MetricsClaim.

Section ConcreteInvariants.

Variable w : World.

Lemma insert_existing_iff {V} (d : gmap string V) (n : string) (v : V) :
  is_Some (d !! n) ->
  forall k, is_Some (<[n := v]> d !! k) <-> is_Some (d !! k).
Proof.
  intros Hn k. rewrite lookup_insert_is_Some.
  destruct (decide (n = k)) as [<-|]; tauto.
Qed.

Lemma insert_within {V} (d : gmap string V) (n : string) (v : V)
    (names : list string) :
  n ∈ names ->
  (forall k, is_Some (d !! k) -> k ∈ names) ->
  forall k, is_Some (<[n := v]> d !! k) -> k ∈ names.
Proof.
  intros Hn Hd k Hk. apply lookup_insert_is_Some in Hk as [<-|[_ Hk]]; auto.
Qed.

(** *** Shape *)

Lemma shape_circuit_insert (cfg : AIModelRouterConfig) (r : AIModelRouter)
    (n : string) (st : circuit) :
  shape_inv cfg r -> is_Some (circuit_states r !! n) ->
  shape_inv cfg (with_circuit_states (fun d => <[n := st]> d) r).
Proof.
  intros (H1 & H2 & H3 & H4 & H5 & H6) Hn. unfold shape_inv. simpl.
  repeat split; try tauto; try apply H3; try apply H4; auto;
    try (intros Hk; apply H3; apply (insert_existing_iff _ n st Hn); exact Hk);
    try (intros Hk; apply (insert_existing_iff _ n st Hn); apply H3; exact Hk).
Qed.

Lemma shape_counts_insert (cfg : AIModelRouterConfig) (r : AIModelRouter)
    (n : string) (c : Z) :
  shape_inv cfg r -> is_Some (circuit_states r !! n) ->
  shape_inv cfg (with_failure_counts (fun d => <[n := c]> d) r).
Proof.
  intros (H1 & H2 & H3 & H4 & H5 & H6) Hn. unfold shape_inv. simpl.
  split; [exact H1|]. split; [exact H2|]. split; [exact H3|]. split; [exact H4|].
  split; [|exact H6].
  apply insert_within; [apply H3, Hn | exact H5].
Qed.

Lemma shape_lft_insert (cfg : AIModelRouterConfig) (r : AIModelRouter)
    (n : string) (t : Q) :
  shape_inv cfg r -> is_Some (circuit_states r !! n) ->
  shape_inv cfg (with_last_failure_time (fun d => <[n := t]> d) r).
Proof.
  intros (H1 & H2 & H3 & H4 & H5 & H6) Hn. unfold shape_inv. simpl.
  split; [exact H1|]. split; [exact H2|]. split; [exact H3|]. split; [exact H4|].
  split; [exact H5|].
  apply insert_within; [apply H3, Hn | exact H6].
Qed.

Lemma shape_failure (cfg : AIModelRouterConfig) (n : string) (st : circuit)
    (s : Sys) :
  shape_inv cfg (router s) -> circuit_states (router s) !! n = Some st ->
  shape_inv cfg (router (failure_handled w n st s)).
Proof.
  intros HI Hst.
  assert (is_Some (circuit_states (router s) !! n)) as Hn by eauto.
  assert (forall s0, shape_inv cfg (router s0) ->
                     is_Some (circuit_states (router s0) !! n) ->
                     shape_inv cfg (router (tripped w n s0))) as Htrip.
  { intros s0 H0 Hn0. unfold tripped. simpl.
    apply shape_lft_insert; [apply shape_circuit_insert; assumption|].
    simpl. apply insert_keeps_keys, Hn0. }
  unfold failure_handled. destruct st; cbv zeta.
  - destruct (_ <=? _).
    + apply Htrip; simpl; [apply shape_counts_insert; assumption | exact Hn].
    + simpl. apply shape_counts_insert; assumption.
  - exact HI.
  - apply Htrip; assumption.
Qed.

Lemma shape_reset (cfg : AIModelRouterConfig) (n : string) (st : circuit)
    (s : Sys) :
  shape_inv cfg (router s) -> circuit_states (router s) !! n = Some st ->
  shape_inv cfg (router (reset_done n st s)).
Proof.
  intros HI Hst.
  assert (is_Some (circuit_states (router s) !! n)) as Hn by eauto.
  unfold reset_done. destruct (bool_decide (st = CLOSED)); [exact HI|].
  simpl. apply shape_counts_insert; [apply shape_circuit_insert; assumption|].
  simpl. apply insert_keeps_keys, Hn.
Qed.

Lemma shape_metrics (cfg : AIModelRouterConfig) (r : AIModelRouter)
    (n : string) (m m' : Metrics) :
  shape_inv cfg r -> metrics r !! n = Some m ->
  shape_inv cfg (with_metrics (fun d => <[n := m']> d) r).
Proof.
  intros (H1 & H2 & H3 & H4 & H5 & H6) Hm. unfold shape_inv. simpl.
  split; [exact H1|]. split; [exact H2|]. split; [exact H3|].
  split; [|split; assumption].
  intros k. rewrite (insert_existing_iff _ n m' ltac:(eauto)). apply H4.
Qed.

Lemma shape_init (cfg : AIModelRouterConfig) : shape_inv cfg (init cfg).
Proof.
  unfold shape_inv, init. simpl.
  assert (forall (l : list EndpointConfig) (A : Type) (v : EndpointConfig -> A)
                 (d : gmap string A) (k : string),
            is_Some (foldl (fun d e => <[name e := v e]> d) d l !! k)
            <-> is_Some (d !! k) \/ k ∈ map name l) as Hfold.
  { induction l as [|e l IH]; intros A v d k; simpl.
    - split; [auto | intros [H|H]; [exact H | inversion H]].
    - rewrite IH, lookup_insert_is_Some, elem_of_cons.
      destruct (decide (name e = k)) as [<-|]; [tauto|].
      split; [intros [[?|[_ ?]]|?]; auto; congruence | intros [?|[?|?]]; auto]. }
  split; [reflexivity|]. split; [reflexivity|].
  split; [|split; [|split]].
  - intros k. rewrite Hfold, lookup_empty. split; [intros [[? [=]]|?]; auto | auto].
  - intros k. rewrite Hfold, lookup_empty. split; [intros [[? [=]]|?]; auto | auto].
  - intros k. rewrite lookup_empty. intros [? [=]].
  - intros k. rewrite lookup_empty. intros [? [=]].
Qed.

(** *** Recorded failure times *)

Lemma open_recorded_failure (n : string) (st : circuit) (s : Sys) :
  open_recorded (router s) ->
  open_recorded (router (failure_handled w n st s)).
Proof.
  intros HI.
  assert (forall s0, open_recorded (router s0) ->
                     open_recorded (router (tripped w n s0))) as Htrip.
  { intros s0 H0 k stk. unfold tripped. simpl.
    destruct (decide (n = k)) as [<-|Hne].
    - rewrite !lookup_insert_eq. eauto.
    - rewrite !lookup_insert_ne by exact Hne. apply H0. }
  unfold failure_handled. destruct st; cbv zeta.
  - destruct (_ <=? _); [apply Htrip|]; exact HI.
  - exact HI.
  - apply Htrip, HI.
Qed.

Lemma open_recorded_reset (n : string) (st : circuit) (s : Sys) :
  open_recorded (router s) ->
  open_recorded (router (reset_done n st s)).
Proof.
  intros HI. unfold reset_done. destruct (bool_decide (st = CLOSED)); [exact HI|].
  intros k stk. simpl.
  destruct (decide (n = k)) as [<-|Hne].
  - rewrite lookup_insert_eq. intros [= <-]. congruence.
  - rewrite lookup_insert_ne by exact Hne. apply HI.
Qed.

Lemma open_recorded_promote (r : AIModelRouter) (n : string) :
  open_recorded r -> circuit_states r !! n = Some OPEN ->
  open_recorded (with_circuit_states (fun d => <[n := HALF_OPEN]> d) r).
Proof.
  intros HI Hopen k stk. simpl.
  destruct (decide (n = k)) as [<-|Hne].
  - intros _ _. apply (HI n OPEN Hopen). discriminate.
  - rewrite lookup_insert_ne by exact Hne. apply HI.
Qed.

(** *** Bounded failure counts *)

Lemma counts_bounded_failure (n : string) (st : circuit) (s : Sys) :
  counts_bounded (router s) -> circuit_states (router s) !! n = Some st ->
  counts_bounded (router (failure_handled w n st s)).
Proof.
  intros [Hth HI] Hst.
  assert (forall s0, counts_bounded (router s0) ->
                     counts_bounded (router (tripped w n s0))) as Htrip.
  { intros s0 [Hth0 H0]. unfold tripped. split; [exact Hth0|]. intros k. simpl.
    destruct (H0 k) as [Hk1 Hk2]. split; [exact Hk1|].
    destruct (decide (n = k)) as [<-|Hne].
    - rewrite lookup_insert_eq. discriminate.
    - rewrite lookup_insert_ne by exact Hne. exact Hk2. }
  unfold failure_handled. destruct st; cbv zeta.
  - destruct (Z.leb_spec (failure_threshold (circuit_breaker (config (router s))))
                         (dd_int (failure_counts (router s)) n + 1)) as [Hge|Hlt].
    + unfold tripped. split; [exact Hth|]. intros k. simpl.
      destruct (HI k) as [Hk1 Hk2]. destruct (HI n) as [Hn1 _].
      destruct (decide (n = k)) as [<-|Hne].
      * rewrite !lookup_insert_eq. simpl. unfold dd_int in *.
        split; [lia | discriminate].
      * rewrite !lookup_insert_ne by exact Hne. auto.
    + split; [exact Hth|]. intros k. simpl.
      destruct (HI k) as [Hk1 Hk2]. destruct (HI n) as [Hn1 _].
      destruct (decide (n = k)) as [<-|Hne].
      * rewrite lookup_insert_eq. simpl. unfold dd_int in *.
        split; [lia|]. intros _. lia.
      * rewrite lookup_insert_ne by exact Hne. auto.
  - split; [exact Hth | exact HI].
  - apply Htrip. split; [exact Hth | exact HI].
Qed.

Lemma counts_bounded_reset (n : string) (st : circuit) (s : Sys) :
  counts_bounded (router s) ->
  counts_bounded (router (reset_done n st s)).
Proof.
  intros [Hth HI]. unfold reset_done.
  destruct (bool_decide (st = CLOSED)); [split; assumption|].
  split; [exact Hth|]. intros k. simpl.
  destruct (HI k) as [Hk1 Hk2].
  destruct (decide (n = k)) as [<-|Hne].
  - rewrite !lookup_insert_eq. simpl. split; [lia|]. intros _. lia.
  - rewrite !lookup_insert_ne by exact Hne. auto.
Qed.

Lemma counts_bounded_promote (r : AIModelRouter) (n : string) :
  counts_bounded r ->
  counts_bounded (with_circuit_states (fun d => <[n := HALF_OPEN]> d) r).
Proof.
  intros [Hth HI]. split; [exact Hth|]. intros k. simpl.
  destruct (HI k) as [Hk1 Hk2]. split; [exact Hk1|].
  destruct (decide (n = k)) as [<-|Hne].
  - rewrite lookup_insert_eq. discriminate.
  - rewrite lookup_insert_ne by exact Hne. exact Hk2.
Qed.

End ConcreteInvariants.

(** ** Construction, metrics and cache keys *)

Lemma foldl_insert_const {A} (v : A) (l : list EndpointConfig) :
  forall (d : gmap string A) (k : string),
    k ∈ map name l ->
    foldl (fun d e => <[name e := v]> d) d l !! k = Some v.
Proof.
  induction l as [|e l IH]; intros d k Hk; [inversion Hk|].
  simpl in *. destruct (decide (k ∈ map name l)) as [Hin|Hnin]; [apply IH, Hin|].
  apply elem_of_cons in Hk as [->|Hk]; [|contradiction].
  assert (forall (l' : list EndpointConfig) (d' : gmap string A),
            name e ∉ map name l' ->
            foldl (fun d e => <[name e := v]> d) d' l' !! name e = d' !! name e)
    as Hskip.
  { induction l' as [|x l' IHl']; intros d' Hx; [reflexivity|].
    simpl in *. apply not_elem_of_cons in Hx as [Hne Hx].
    rewrite IHl' by exact Hx. apply lookup_insert_ne. congruence. }
  rewrite Hskip by exact Hnin. apply lookup_insert_eq.
Qed.

(** X1. [__init__]: every configured endpoint starts with a CLOSED
    circuit and zeroed metrics, names that are not configured have no
    entry, the failure counts, failure times and cache start empty, and
    [total_weight] is the sum of the configured weights. *)
Theorem init_spec (cfg : AIModelRouterConfig) :
  (forall e, e ∈ endpoints cfg ->
     circuit_states (init cfg) !! name e = Some CLOSED /\
     metrics (init cfg) !! name e = Some zero_metrics) /\
  (forall k, k ∉ map name (endpoints cfg) ->
     circuit_states (init cfg) !! k = None /\ metrics (init cfg) !! k = None) /\
  failure_counts (init cfg) = ∅ /\
  last_failure_time (init cfg) = ∅ /\
  cache (init cfg) = ∅ /\
  config (init cfg) = cfg /\
  total_weight (init cfg) = sum_weights (endpoints cfg).
Proof.
  split; [|split].
  - intros e He. unfold init. simpl.
    split; apply foldl_insert_const, list_elem_of_fmap_2, He.
  - intros k Hk. destruct (shape_init cfg) as (_ & _ & Hcs & Hm & _).
    split.
    + destruct (circuit_states (init cfg) !! k) eqn:H; [|reflexivity].
      exfalso. apply Hk, Hcs. eauto.
    + destruct (metrics (init cfg) !! k) eqn:H; [|reflexivity].
      exfalso. apply Hk, Hm. eauto.
  - repeat split; reflexivity.
Qed.

(** X2. [_update_metrics]: for a name without a metrics entry it raises
    [KeyError] and changes nothing; for a known endpoint it adds one to
    [request_count] and to exactly one of [success_count] and
    [error_count], adds the latency to [total_latency], recomputes
    [average_latency], and touches neither any other endpoint's metrics
    nor anything outside the metrics dict. *)
Theorem update_metrics_spec (n : string) (latency : Q) (success : bool) (s : Sys) :
  match metrics (router s) !! n with
  | None => _update_metrics n latency success s = (Raise (KeyError n), s)
  | Some m =>
      exists s' m',
        _update_metrics n latency success s = (Return tt, s') /\
        metrics (router s') !! n = Some m' /\
        request_count m' = request_count m + 1 /\
        success_count m' = success_count m + (if success then 1 else 0) /\
        error_count m' = error_count m + (if success then 0 else 1) /\
        total_latency m' = (total_latency m + latency)%Q /\
        (0 < request_count m' ->
         average_latency m' = (total_latency m' / inject_Z (request_count m'))%Q) /\
        (forall k, k <> n -> metrics (router s') !! k = metrics (router s) !! k) /\
        circuit_states (router s') = circuit_states (router s) /\
        failure_counts (router s') = failure_counts (router s) /\
        last_failure_time (router s') = last_failure_time (router s) /\
        cache (router s') = cache (router s) /\
        config (router s') = config (router s) /\
        trace s' = trace s /\ n_clock s' = n_clock s
  end.
Proof.
  destruct (metrics (router s) !! n) as [m|] eqn:Hm.
  - rewrite (update_metrics_run n latency success s m Hm).
    destruct (bump_metrics_counts m latency success) as (H1 & H2 & H3 & H4).
    eexists _, (bump_metrics m latency success).
    split; [reflexivity|]. simpl. rewrite lookup_insert_eq.
    split; [reflexivity|]. split; [exact H1|]. split; [exact H2|].
    split; [exact H3|]. split; [exact H4|].
    split.
    { unfold bump_metrics. cbv zeta. simpl.
      destruct (0 <? request_count m + 1) eqn:Hpos; simpl; [reflexivity|].
      apply Z.ltb_ge in Hpos. lia. }
    split; [intros k Hk; apply lookup_insert_ne; congruence|].
    repeat split.
  - unfold _update_metrics. monad_unfold. rewrite Hm. reflexivity.
Qed.

(** X3. The circuit operations on a name that has no circuit entry:
    [_handle_failure] and [_reset_circuit] raise [KeyError] and change
    nothing, whereas [_trip_circuit], which only assigns, creates an OPEN
    entry and a failure time for that name. *)
Theorem circuit_missing_key (w : World) (n : string) (s : Sys) :
  circuit_states (router s) !! n = None ->
  _handle_failure w n s = (Raise (KeyError n), s) /\
  _reset_circuit n s = (Raise (KeyError n), s) /\
  exists s',
    _trip_circuit w n s = (Return tt, s') /\
    circuit_states (router s') !! n = Some OPEN /\
    last_failure_time (router s') !! n = Some (clock w (n_clock s)).
Proof.
  intros Hn. split; [|split].
  - unfold _handle_failure. monad_unfold. rewrite Hn. reflexivity.
  - unfold _reset_circuit. monad_unfold. rewrite Hn. reflexivity.
  - rewrite trip_circuit_run. eexists. split; [reflexivity|].
    unfold tripped. simpl. rewrite !lookup_insert_eq. auto.
Qed.

Lemma circuit_missing_key_witness :
  _handle_failure world_down "nobody" (boot test_config)
    = (Raise (KeyError "nobody"), boot test_config).
Proof.
  apply (circuit_missing_key world_down "nobody" (boot test_config)).
  vm_compute. reflexivity.
Defined.

Lemma append_nil_r (a : string) : (a +:+ EmptyString)%string = a.
Proof.
  induction a as [|c a IH]; [reflexivity|].
  change (String c (a +:+ EmptyString) = String c a). rewrite IH. reflexivity.
Qed.

Section CacheKey.

Variable sha256_hexdigest : string -> string.
Variable str_sorted_items : gmap string value -> string.
Variable w : World.

(** X4. The fingerprint hashes the concatenation of [model_type] and
    [data] with no separator, and ignores metadata that is [None] or
    empty.  Two requests without metadata whose concatenations coincide
    (such as ("ab", "c") and ("a", "bc")) therefore share a cache key:
    once a response is cached for the first, [inference] returns it for
    the second without contacting any endpoint. *)
Theorem cache_key_collision (mt1 d1 mt2 d2 : string)
    (md1 md2 : option (gmap string value)) :
  truthy md1 = false -> truthy md2 = false ->
  (mt1 +:+ d1)%string = (mt2 +:+ d2)%string ->
  _get_cache_key sha256_hexdigest str_sorted_items mt1 d1 md1
    = _get_cache_key sha256_hexdigest str_sorted_items mt2 d2 md2 /\
  forall s entry,
    cache (router s)
      !! _get_cache_key sha256_hexdigest str_sorted_items mt1 d1 md1 = Some entry ->
    inference sha256_hexdigest str_sorted_items w mt2 d2 md2 s
      = (Return (response entry), s).
Proof.
  intros H1 H2 Hcat.
  assert (_get_cache_key sha256_hexdigest str_sorted_items mt1 d1 md1
          = _get_cache_key sha256_hexdigest str_sorted_items mt2 d2 md2) as Hkey.
  { unfold _get_cache_key. rewrite H1, H2.
    destruct md1, md2; cbv beta iota; rewrite !append_nil_r, Hcat; reflexivity. }
  split; [exact Hkey|].
  intros s entry Hc. rewrite Hkey in Hc. apply inference_hit, Hc.
Qed.

End CacheKey.

Lemma cache_key_collision_witness :
  _get_cache_key (fun x => x) (fun _ => EmptyString) "ab" "c" None
    = _get_cache_key (fun x => x) (fun _ => EmptyString) "a" "bc" (Some ∅).
Proof.
  apply (cache_key_collision (fun x => x) (fun _ => EmptyString) world_down
           "ab" "c" "a" "bc" None (Some ∅)); reflexivity.
Defined.

(** ** The weighted walk of the Selector *)

(** X5. The [for] loop of [_select_endpoint] returns the first candidate
    whose cumulative weight reaches the draw.  With non-negative weights
    before it, a candidate [e] (occurring once in the list) is returned
    exactly when the draw is at most the cumulative weight including [e]
    and, unless [e] is the first candidate, above the cumulative weight
    before [e]: the first candidate owns every draw up to its weight
    (the draw 0 included, even when its weight is 0), a later candidate
    the half-open interval that its weight adds. *)
Theorem walk_weights_interval (sel : Q) (l1 l2 : list EndpointConfig)
    (e : EndpointConfig) (cur : Z) :
  Forall (fun x => 0 <= weight x) l1 ->
  e ∉ l1 -> e ∉ l2 ->
  walk_weights sel cur (l1 ++ e :: l2) = Some e <->
  (l1 = [] \/ (inject_Z (cur + sum_weights l1) < sel)%Q) /\
  (sel <= inject_Z (cur + sum_weights l1 + weight e))%Q.
Proof.
  revert cur. induction l1 as [|x l1 IH]; intros cur Hnn Hn1 Hn2.
  - change (sum_weights []) with 0. rewrite Z.add_0_r. simpl.
    destruct (Qle_bool sel (inject_Z (cur + weight e))) eqn:Hb.
    + apply Qle_bool_iff in Hb. split; auto.
    + split.
      * intros Hw. apply walk_weights_in in Hw. contradiction.
      * intros [_ Hhi]. apply Qle_bool_iff in Hhi. congruence.
  - apply Forall_cons in Hnn as [Hx Hl1].
    apply not_elem_of_cons in Hn1 as [Hne Hn1].
    rewrite sum_weights_cons.
    pose proof (sum_weights_nonneg l1 Hl1) as Hs.
    replace (cur + (weight x + sum_weights l1))
      with (cur + weight x + sum_weights l1) by lia.
    simpl.
    destruct (Qle_bool sel (inject_Z (cur + weight x))) eqn:Hb.
    + apply Qle_bool_iff in Hb. split.
      * intros [= Heq]. congruence.
      * intros [[Hnil | Hlo] _]; [discriminate|]. exfalso.
        apply (Qlt_not_le _ _ Hlo). eapply Qle_trans; [exact Hb|].
        rewrite <- Zle_Qle. lia.
    + assert (inject_Z (cur + weight x) < sel)%Q as Hlt.
      { apply Qnot_le_lt. intros Hle. apply Qle_bool_iff in Hle. congruence. }
      rewrite (IH (cur + weight x) Hl1 Hn1 Hn2). split.
      * intros [[-> | Hlo] Hhi]; (split; [right | exact Hhi]); [|exact Hlo].
        change (sum_weights []) with 0. rewrite Z.add_0_r. exact Hlt.
      * intros [[Hnil | Hlo] Hhi]; [discriminate|]. auto.
Qed.

Lemma walk_weights_interval_witness :
  walk_weights (75 # 1) 0 ([stt_primary] ++ stt_backup :: []) = Some stt_backup.
Proof.
  apply (walk_weights_interval (75 # 1) [stt_primary] [] stt_backup 0).
  - constructor; [simpl; lia | constructor].
  - intros H. apply list_elem_of_singleton in H. discriminate.
  - apply not_elem_of_nil.
  - split; [right; vm_compute; reflexivity | vm_compute; discriminate].
Defined.

Section NegativeWeight.

Variable w : World.

(** X6. A sole candidate of negative weight is never selected: the draw
    [uniform(0, weight)] lies above the weight, the walk falls through
    its loop, and the Selector returns [None] although a candidate
    exists; when the weight does not even convert to a float, the draw
    raises [OverflowError] instead. *)
Theorem select_endpoint_negative_weight (ex : list string) (s : Sys)
    (e : EndpointConfig) :
  Forall (fun e => is_Some (circuit_states (router s) !! name e))
         (endpoints (config (router s))) ->
  candidates (router s) ex = [e] ->
  weight e < 0 ->
  _select_endpoint w ex s =
    (if float_ok (weight e) then Return None else Raise OverflowError,
     tick_entropy s).
Proof.
  intros Hkeys Hc Hneg. rewrite (select_endpoint_outcome w ex s Hkeys).
  unfold select_outcome, select_pure. rewrite Hc.
  change (sum_weights [e]) with (0 + weight e). rewrite Z.add_0_l.
  destruct (float_ok (weight e)); [|reflexivity].
  destruct (Z.eqb_spec (weight e) 0) as [Hz|_]; [lia|].
  simpl. rewrite Z.add_0_l.
  destruct (Qle_bool (uniform_value 0 (weight e) (entropy w (n_entropy s)))
                     (inject_Z (weight e))) eqn:Hb; [|reflexivity].
  exfalso. apply Qle_bool_iff in Hb. rewrite uniform_value_0 in Hb.
  destruct (unit_interval_range (entropy w (n_entropy s))) as [H0 H1].
  assert (inject_Z (weight e) < 0)%Q as HW
    by (change 0%Q with (inject_Z 0); rewrite <- Zlt_Qlt; exact Hneg).
  nra.
Qed.

End NegativeWeight.

Lemma negative_config_candidates :
  candidates (router (boot negative_config)) [] = [ep_negative].
Proof. vm_compute. reflexivity. Qed.

Lemma ep_negative_float_ok : float_ok (weight ep_negative) = true.
Proof. vm_compute. reflexivity. Qed.

Lemma select_endpoint_negative_weight_witness :
  _select_endpoint world_down [] (boot negative_config)
    = (Return None, tick_entropy (boot negative_config)).
Proof.
  rewrite (select_endpoint_negative_weight world_down [] (boot negative_config)
             ep_negative).
  - rewrite ep_negative_float_ok. reflexivity.
  - apply has_entries_keys, has_entries_init.
  - exact negative_config_candidates.
  - simpl. lia.
Defined.

(** ** Calls that contact no endpoint *)

Section NoAttempt.

Variable sha256_hexdigest : string -> string.
Variable str_sorted_items : gmap string value -> string.
Variable w : World.

Local Abbreviation infer := (inference sha256_hexdigest str_sorted_items w).
Local Abbreviation key_of := (_get_cache_key sha256_hexdigest str_sorted_items).

Lemma candidates_all_open (r : AIModelRouter) (ex : list string) :
  Forall (fun e => circuit_states r !! name e = Some OPEN) (endpoints (config r)) ->
  candidates r ex = [].
Proof.
  unfold candidates. induction (endpoints (config r)) as [|e l IH]; intros H;
    [reflexivity|].
  apply Forall_cons in H as [He Hl]. simpl.
  unfold is_candidate at 1. rewrite He. simpl. apply IH, Hl.
Qed.

(** X7. With [max_attempts <= 0] the [while] loop of [inference] is never
    entered: a request that is not cached gets the retries-exhausted
    error although no endpoint was tried, and nothing changes. *)
Theorem inference_no_attempts (model_type data : string)
    (md : option (gmap string value)) (s : Sys) :
  max_attempts (retry_config (config (router s))) <= 0 ->
  cache (router s) !! key_of model_type data md = None ->
  infer model_type data md s = (Return error_retries, s).
Proof.
  intros Hmax Hmiss. unfold inference. unfold bind, get_router. rewrite Hmiss.
  cbn [dispatch_loop]. unfold bind, get_router.
  destruct (Z.ltb_spec 0 (max_attempts (retry_config (config (router s)))));
    [lia | reflexivity].
Qed.

(** X8. When every endpoint's circuit is OPEN (or none is configured) and
    the request names no known preferred endpoint, an uncached
    [inference] returns the unavailability error at once: no endpoint is
    contacted, no random number is drawn, no sleep happens, and the
    state is unchanged. *)
Theorem inference_all_open (model_type data : string)
    (md : option (gmap string value)) (s : Sys) :
  0 < max_attempts (retry_config (config (router s))) ->
  cache (router s) !! key_of model_type data md = None ->
  preferred_endpoint (router s) 0 md = None ->
  Forall (fun e => circuit_states (router s) !! name e = Some OPEN)
         (endpoints (config (router s))) ->
  infer model_type data md s = (Return error_unavailable, s).
Proof.
  intros Hmax Hmiss Hpref Hopen.
  unfold inference. unfold bind at 1. unfold get_router at 1. rewrite Hmiss.
  assert (pick_endpoint w 0 md [] s = (Return None, s)) as Hpick.
  { unfold pick_endpoint. unfold bind, get_router. rewrite Hpref.
    rewrite select_endpoint_run.
    - unfold select_pure. rewrite (candidates_all_open _ _ Hopen). reflexivity.
    - eapply Forall_impl; [exact Hopen|]. intros e He. simpl in He. eauto.
    - rewrite (candidates_all_open _ _ Hopen). exact float_ok_0. }
  exact (dispatch_loop_step w _ (key_of model_type data md) data md 0 [] s s None
           Hmax Hpick eq_refl).
Qed.

End NoAttempt.

Lemma boot_cache_miss (cfg : AIModelRouterConfig) (k : string) :
  cache (router (boot cfg)) !! k = None.
Proof. apply lookup_empty. Qed.

Lemma inference_no_attempts_witness :
  run_inference world_down "stt" "payload" None (boot no_attempts_config)
    = (Return error_retries, boot no_attempts_config).
Proof.
  unfold run_inference. apply inference_no_attempts.
  - simpl. lia.
  - apply boot_cache_miss.
Defined.

Lemma after_two_failures_attempts :
  0 < max_attempts (retry_config (config (router after_two_failures))).
Proof. vm_compute. reflexivity. Qed.

Lemma after_two_failures_miss :
  cache (router after_two_failures)
    !! _get_cache_key (fun x => x) (fun _ => EmptyString) "stt" "payload" None = None.
Proof. vm_compute. reflexivity. Qed.

Lemma after_two_failures_open :
  Forall (fun e => circuit_states (router after_two_failures) !! name e = Some OPEN)
         (endpoints (config (router after_two_failures))).
Proof. vm_compute. repeat constructor. Qed.

Lemma inference_all_open_witness :
  run_inference world_down "stt" "payload" None after_two_failures
    = (Return error_unavailable, after_two_failures).
Proof.
  unfold run_inference. apply inference_all_open.
  - exact after_two_failures_attempts.
  - exact after_two_failures_miss.
  - reflexivity.
  - exact after_two_failures_open.
Defined.

(** ** What one call does *)

(** ** How a call can end *)

Section LoopEnds.

Variable w : World.







End LoopEnds.

Section InferenceRuns.

Variable sha256_hexdigest : string -> string.
Variable str_sorted_items : gmap string value -> string.
Variable w : World.

Local Abbreviation infer := (inference sha256_hexdigest str_sorted_items w).
Local Abbreviation key_of := (_get_cache_key sha256_hexdigest str_sorted_items).

Lemma inference_runs (model_type data : string) (md : option (gmap string value))
    (s : Sys) :
  wf (router s) ->
  cache (router s) !! key_of model_type data md = None ->
  exists vd s',
    infer model_type data md s = (Return (verdict_value vd), s') /\
    loop_run w (key_of model_type data md) md 0 [] s vd s'.
Proof.
  intros Hwf Hmiss.
  destruct (dispatch_loop_runs w (key_of model_type data md) data md
              (S (Z.to_nat (max_attempts (retry_config (config (router s))))))
              0 [] s Hwf) as (vd & s' & Hrun & Hrel).
  { lia. }
  { rewrite Z.sub_0_r. lia. }
  exists vd, s'. split; [|exact Hrel].
  unfold inference. unfold bind, get_router. rewrite Hmiss. exact Hrun.
Qed.


Lemma loop_run_untouched (key : string) (md : option (gmap string value))
    (attempts : Z) (tried : list string) (s s' : Sys) (vd : verdict) :
  loop_run w key md attempts tried s vd s' ->
  forall k,
    Forall (fun e => name e <> k) (attempted vd) ->
    same_entry k (router s') (router s) /\
    metrics (router s') !! k = metrics (router s) !! k.
Proof.
  induction 1 as [attempts tried s Hge
                 | attempts tried s s1 Hwf Hlt Hpick
                 | attempts tried s s1 e st m ev resp Hwf Hlt Hpick Hst Hm Hev Hrep
                 | attempts tried s s1 e st m vd s' Hwf Hlt Hpick Hst Hm Hbad Hrun IH];
    intros k Hall.
  - split; [apply same_entry_refl | reflexivity].
  - destruct (pick_endpoint_inv w _ _ _ _ _ _ Hwf Hpick) as (Hr & _).
    rewrite Hr. split; [apply same_entry_refl | reflexivity].
  - destruct (pick_endpoint_inv w _ _ _ _ _ _ Hwf Hpick) as (Hr & _).
    unfold attempted in Hall. simpl in Hall. apply Forall_cons in Hall as [Hne _].
    destruct (attempt_succeeded_frame w key e (clock w (n_clock s1)) resp st m
                (tick_clock s1) k) as [Hfr Hmet]; [congruence|].
    change (router (tick_clock s1)) with (router s1) in Hfr, Hmet.
    rewrite Hr in Hfr, Hmet. split; assumption.
  - destruct (pick_endpoint_inv w _ _ _ _ _ _ Hwf Hpick) as (Hr & _).
    rewrite attempted_cons in Hall. apply Forall_cons in Hall as [Hne Hall].
    destruct (attempt_failed_frame w e (clock w (n_clock s1)) attempts st m
                (tick_clock s1) k) as [Hfr Hmet]; [congruence|].
    change (router (tick_clock s1)) with (router s1) in Hfr, Hmet.
    rewrite Hr in Hfr, Hmet.
    destruct (IH k Hall) as [Hsame Hm'].
    split; [eapply same_entry_trans; eassumption | congruence].
Qed.

(** X9. On a well-formed router (entries for every endpoint, weights and
    backoff powers within the float range, so that no draw and no backoff
    raises [OverflowError]) a call that misses the cache returns and
    contacts every endpoint at most once: the endpoints it attempts are
    configured endpoints with pairwise distinct names, so their number
    is bounded by the number of endpoints as well as by
    [max_attempts]. *)
Theorem inference_attempts_distinct (model_type data : string)
    (md : option (gmap string value)) (s : Sys) :
  wf (router s) ->
  cache (router s) !! key_of model_type data md = None ->
  exists vd s',
    infer model_type data md s = (Return (verdict_value vd), s') /\
    loop_run w (key_of model_type data md) md 0 [] s vd s' /\
    NoDup (map name (attempted vd)) /\
    Forall (fun e => e ∈ endpoints (config (router s))) (attempted vd) /\
    (length (attempted vd) <= length (endpoints (config (router s))))%nat /\
    Z.of_nat (length (attempted vd))
      <= Z.max 0 (max_attempts (retry_config (config (router s)))).
Proof.
  intros Hwf Hmiss.
  destruct (inference_runs model_type data md s Hwf Hmiss) as (vd & s' & Hrun & Hrel).
  exists vd, s'. split; [exact Hrun|]. split; [exact Hrel|].
  destruct (loop_run_distinct w _ _ _ _ _ _ _ Hrel) as [Hnd _]; [lia|auto|].
  destruct (loop_run_facts w _ _ _ _ _ _ _ Hrel Hwf) as (_ & _ & _ & _ & Hin).
  split; [exact Hnd|]. split; [exact Hin|].
  split; [apply distinct_names_length; assumption|].
  pose proof (loop_run_lengths w _ _ _ _ _ _ _ Hrel) as Hlen. cbv zeta in Hlen.
  unfold attempted. rewrite length_app.
  destruct vd as [failed e resp|failed|failed]; simpl in *; lia.
Qed.

(** X10. Without a preferred endpoint, a call never touches an endpoint
    whose circuit is OPEN: the endpoint is not attempted, no event names
    it, and its circuit state, failure count, failure time and metrics
    are the same after the call. *)
Theorem inference_skips_open (model_type data : string)
    (md : option (gmap string value)) (s : Sys) :
  wf (router s) ->
  cache (router s) !! key_of model_type data md = None ->
  preferred_endpoint (router s) 0 md = None ->
  exists vd s',
    infer model_type data md s = (Return (verdict_value vd), s') /\
    loop_run w (key_of model_type data md) md 0 [] s vd s' /\
    trace s' = trace s
                 ++ verdict_trace (retry_config (config (router s))) 0 vd /\
    forall n,
      circuit_states (router s) !! n = Some OPEN ->
      Forall (fun e => name e <> n) (attempted vd) /\
      Forall (fun ev => event_endpoint ev <> Some n)
             (verdict_trace (retry_config (config (router s))) 0 vd) /\
      same_entry n (router s') (router s) /\
      metrics (router s') !! n = metrics (router s) !! n.
Proof.
  intros Hwf Hmiss Hpref.
  destruct (inference_runs model_type data md s Hwf Hmiss) as (vd & s' & Hrun & Hrel).
  exists vd, s'. split; [exact Hrun|]. split; [exact Hrel|].
  destruct (loop_run_facts w _ _ _ _ _ _ _ Hrel Hwf) as (_ & _ & Htr & _).
  split; [exact Htr|].
  intros n Hopen.
  destruct (loop_run_open_untouched w _ _ _ _ _ _ _ Hrel ltac:(lia) Hpref n Hopen)
    as [Hsame Hall].
  split; [exact Hall|].
  split; [apply verdict_trace_names, Hall|].
  split; [exact Hsame|].
  apply (loop_run_untouched _ _ _ _ _ _ _ Hrel n Hall).
Qed.

(** X11. Metrics accounting of one call: an endpoint's [request_count]
    grows by one if the call attempted it and is unchanged otherwise,
    [error_count] grows by one exactly for the failed attempts, and
    [success_count] by one exactly for the endpoint that served; an
    endpoint that was not attempted keeps its metrics and its circuit
    entries. *)
Theorem inference_metrics_accounting (model_type data : string)
    (md : option (gmap string value)) (s : Sys) :
  wf (router s) ->
  cache (router s) !! key_of model_type data md = None ->
  exists vd s',
    infer model_type data md s = (Return (verdict_value vd), s') /\
    loop_run w (key_of model_type data md) md 0 [] s vd s' /\
    (forall k m,
       metrics (router s) !! k = Some m ->
       exists m',
         metrics (router s') !! k = Some m' /\
         0 <= hits k (verdict_failed vd) <= hits k (attempted vd) /\
         hits k (attempted vd) <= 1 /\
         request_count m' = request_count m + hits k (attempted vd) /\
         error_count m' = error_count m + hits k (verdict_failed vd) /\
         success_count m'
           = success_count m + (hits k (attempted vd) - hits k (verdict_failed vd))) /\
    (forall k,
       Forall (fun e => name e <> k) (attempted vd) ->
       same_entry k (router s') (router s) /\
       metrics (router s') !! k = metrics (router s) !! k).
Proof.
  intros Hwf Hmiss.
  destruct (inference_runs model_type data md s Hwf Hmiss) as (vd & s' & Hrun & Hrel).
  exists vd, s'. split; [exact Hrun|]. split; [exact Hrel|].
  split; [|apply (loop_run_untouched _ _ _ _ _ _ _ Hrel)].
  intros k m Hk.
  destruct (loop_run_metrics w _ _ _ _ _ _ _ Hrel k m Hk) as (m' & Hm' & H1 & H2 & H3).
  destruct (loop_run_distinct w _ _ _ _ _ _ _ Hrel) as [Hnd _]; [lia|auto|].
  pose proof (hits_le_one k _ Hnd) as Hle.
  assert (0 <= hits k (verdict_failed vd) <= hits k (attempted vd)) as Hfa.
  { unfold attempted, hits. rewrite List.filter_app, length_app. lia. }
  exists m'. repeat split; try assumption; lia.
Qed.

(** X12. Every failed attempt of a call is followed by exactly one
    backoff sleep, except the attempt that exhausts [max_attempts]: a
    call that is served or finds no endpoint sleeps once per failed
    attempt, a call that runs out of attempts sleeps once less. *)
Theorem inference_sleeps (model_type data : string)
    (md : option (gmap string value)) (s : Sys) :
  wf (router s) ->
  cache (router s) !! key_of model_type data md = None ->
  exists vd s',
    infer model_type data md s = (Return (verdict_value vd), s') /\
    loop_run w (key_of model_type data md) md 0 [] s vd s' /\
    trace s' = trace s
                 ++ verdict_trace (retry_config (config (router s))) 0 vd /\
    Z.of_nat (count_sleeps (verdict_trace (retry_config (config (router s))) 0 vd))
      = match vd with
        | Exhausted failed => Z.max 0 (Z.of_nat (length failed) - 1)
        | _ => Z.of_nat (length (verdict_failed vd))
        end.
Proof.
  intros Hwf Hmiss.
  destruct (inference_runs model_type data md s Hwf Hmiss) as (vd & s' & Hrun & Hrel).
  exists vd, s'. split; [exact Hrun|]. split; [exact Hrel|].
  destruct (loop_run_facts w _ _ _ _ _ _ _ Hrel Hwf) as (_ & _ & Htr & _).
  split; [exact Htr|].
  rewrite count_sleeps_verdict.
  pose proof (loop_run_lengths w _ _ _ _ _ _ _ Hrel) as Hlen. cbv zeta in Hlen.
  destruct vd as [failed e resp|failed|failed]; simpl in *; lia.
Qed.


End InferenceRuns.

(** ** Totality of [inference] *)

Section TotalClaim.

Variable sha256_hexdigest : string -> string.
Variable str_sorted_items : gmap string value -> string.
Variable w : World.

Local Abbreviation infer := (inference sha256_hexdigest str_sorted_items w).
Local Abbreviation key_of := (_get_cache_key sha256_hexdigest str_sorted_items).
Local Abbreviation call_run := (run_call sha256_hexdigest str_sorted_items w).




End TotalClaim.



Lemma inference_attempts_distinct_witness :
  exists vd s',
    run_inference world_down "stt" "payload" None (boot test_config)
      = (Return (verdict_value vd), s') /\
    NoDup (map name (attempted vd)).
Proof.
  destruct (inference_attempts_distinct (fun x => x) (fun _ => EmptyString)
              world_down "stt" "payload" None (boot test_config)
              (wf_init test_config test_config_range) (boot_cache_miss test_config _))
    as (vd & s' & Hrun & _ & Hnd & _).
  exists vd, s'. split; assumption.
Defined.

Lemma inference_skips_open_witness :
  exists vd s',
    run_inference world_down "stt" "payload" None (boot test_config)
      = (Return (verdict_value vd), s') /\
    trace s' = trace (boot test_config)
                 ++ verdict_trace (retry_config test_config) 0 vd.
Proof.
  destruct (inference_skips_open (fun x => x) (fun _ => EmptyString)
              world_down "stt" "payload" None (boot test_config)
              (wf_init test_config test_config_range) (boot_cache_miss test_config _) eq_refl)
    as (vd & s' & Hrun & _ & Htr & _).
  exists vd, s'. split; assumption.
Defined.

Lemma inference_metrics_accounting_witness :
  exists vd s',
    run_inference world_up "stt" "payload" None (boot test_config)
      = (Return (verdict_value vd), s') /\
    forall k,
      Forall (fun e => name e <> k) (attempted vd) ->
      metrics (router s') !! k = metrics (router (boot test_config)) !! k.
Proof.
  destruct (inference_metrics_accounting (fun x => x) (fun _ => EmptyString)
              world_up "stt" "payload" None (boot test_config)
              (wf_init test_config test_config_range) (boot_cache_miss test_config _))
    as (vd & s' & Hrun & _ & _ & Hfr).
  exists vd, s'. split; [exact Hrun|].
  intros k Hk. apply (Hfr k Hk).
Defined.

Lemma inference_sleeps_witness :
  exists vd s',
    run_inference world_down "stt" "payload" None (boot test_config)
      = (Return (verdict_value vd), s') /\
    trace s' = trace (boot test_config)
                 ++ verdict_trace (retry_config test_config) 0 vd.
Proof.
  destruct (inference_sleeps (fun x => x) (fun _ => EmptyString)
              world_down "stt" "payload" None (boot test_config)
              (wf_init test_config test_config_range) (boot_cache_miss test_config _))
    as (vd & s' & Hrun & _ & Htr & _).
  exists vd, s'. split; assumption.
Defined.


(** ** Invariants of the reachable router states *)

Lemma init_circuit_closed (cfg : AIModelRouterConfig) (n : string) (st : circuit) :
  circuit_states (init cfg) !! n = Some st -> st = CLOSED.
Proof.
  unfold init. simpl.
  assert (forall (l : list EndpointConfig) (d : gmap string circuit),
            (forall k v, d !! k = Some v -> v = CLOSED) ->
            forall k v,
              foldl (fun d e => <[name e := CLOSED]> d) d l !! k = Some v ->
              v = CLOSED) as Hfold.
  { induction l as [|e l IH]; intros d Hd k v; simpl; [apply Hd|].
    apply IH. intros k' v'. destruct (decide (name e = k')) as [<-|Hne].
    - rewrite lookup_insert_eq. congruence.
    - rewrite lookup_insert_ne by exact Hne. apply Hd. }
  apply Hfold. intros k v. rewrite lookup_empty. discriminate.
Qed.

Lemma init_closed (cfg : AIModelRouterConfig) :
  Forall (fun e => circuit_states (init cfg) !! name e = Some CLOSED)
         (endpoints cfg).
Proof.
  apply Forall_forall. intros e He. unfold init. simpl.
  apply foldl_insert_const, list_elem_of_fmap_2, He.
Qed.

Section Settled.

Variable w : World.

Lemma settled_tripped (n : string) (s : Sys) :
  settled (router s) -> settled (router (tripped w n s)).
Proof.
  intros H k. unfold tripped. simpl.
  destruct (decide (n = k)) as [<-|Hne].
  - rewrite lookup_insert_eq. discriminate.
  - rewrite lookup_insert_ne by exact Hne. apply H.
Qed.

Lemma settled_failure (n : string) (st : circuit) (s : Sys) :
  settled (router s) -> settled (router (failure_handled w n st s)).
Proof.
  intros H. destruct st; unfold failure_handled; cbv zeta.
  - destruct (_ <=? _); [apply settled_tripped|]; exact H.
  - exact H.
  - apply settled_tripped, H.
Qed.

Lemma settled_reset (n : string) (st : circuit) (s : Sys) :
  settled (router s) -> settled (router (reset_done n st s)).
Proof.
  intros H. unfold reset_done. destruct (bool_decide (st = CLOSED)); [exact H|].
  intros k. simpl. destruct (decide (n = k)) as [<-|Hne].
  - rewrite lookup_insert_eq. discriminate.
  - rewrite lookup_insert_ne by exact Hne. apply H.
Qed.

Lemma settled_health_checked (e : EndpointConfig) (st : circuit) (s : Sys) :
  settled (router s) ->
  circuit_states (router s) !! name e = Some st ->
  settled (router (health_checked w e st s)).
Proof.
  intros HI Hst.
  destruct (promoted_facts w e st s Hst) as (_ & _ & _ & _ & _ & _ & Hcs & _ & Hoth).
  unfold health_checked.
  destruct (probe_due w e st s) eqn:Hdue.
  - rewrite (probe_due_promoted w e st s Hdue) in Hcs.
    destruct (probed_facts w e (promoted w e st s) Hcs)
      as (_ & _ & _ & _ & Hres & _ & Hfr).
    intros k. destruct (decide (k = name e)) as [->|Hk].
    + destruct (probe_healthy w e (promoted w e st s));
        destruct Hres as (-> & _); discriminate.
    + destruct (Hfr k Hk) as (-> & _). rewrite (Hoth k Hk). apply HI.
  - unfold probe_due in Hdue. apply orb_false_iff in Hdue as [_ Hrec].
    rewrite Hrec in Hcs.
    intros k. destruct (decide (k = name e)) as [->|Hk].
    + rewrite Hcs, <- Hst. apply HI.
    + rewrite (Hoth k Hk). apply HI.
Qed.

End Settled.

Section ReachableStates.

Variable sha256_hexdigest : string -> string.
Variable str_sorted_items : gmap string value -> string.
Variable w : World.

Local Abbreviation calls_run := (run_calls sha256_hexdigest str_sorted_items w).

(** X14. After any sequence of [inference] and [health_check] calls on a
    freshly constructed router, the configuration and [total_weight] are
    those of the constructor, [circuit_states] and [metrics] hold exactly
    the configured endpoint names, and [failure_counts] and
    [last_failure_time] hold configured names only: no call adds or
    removes an endpoint entry. *)
Theorem shape_reachable (cfg : AIModelRouterConfig) (calls : list call) :
  shape_inv cfg (router (calls_run calls (boot cfg))).
Proof.
  apply (invariant_run_calls sha256_hexdigest str_sorted_items w (shape_inv cfg)).
  - intros r n m latency success HI Hm. exact (shape_metrics cfg r n m _ HI Hm).
  - intros r k v HI. exact HI.
  - intros n st s. apply shape_failure.
  - intros n st s. apply shape_reset.
  - intros e st s. apply (promote_then_probe w (shape_inv cfg)).
    + intros n st' s'. apply shape_failure.
    + intros n st' s'. apply shape_reset.
    + intros r n HI Hn. apply shape_circuit_insert; [exact HI | eauto].
  - apply has_entries_init.
  - apply shape_init.
Qed.

(** X15. In every state reached from a freshly constructed router, an
    endpoint whose circuit is not CLOSED has a recorded
    [last_failure_time]: the recovery test of [health_check] never falls
    back on the default of the [defaultdict]. *)
Theorem open_recorded_reachable (cfg : AIModelRouterConfig) (calls : list call) :
  open_recorded (router (calls_run calls (boot cfg))).
Proof.
  apply (invariant_run_calls sha256_hexdigest str_sorted_items w open_recorded).
  - intros r n m latency success HI Hm. exact HI.
  - intros r k v HI. exact HI.
  - intros n st s HI _. apply open_recorded_failure, HI.
  - intros n st s HI _. apply open_recorded_reset, HI.
  - intros e st s. apply (promote_then_probe w open_recorded).
    + intros n st' s' HI _. apply open_recorded_failure, HI.
    + intros n st' s' HI _. apply open_recorded_reset, HI.
    + intros r n HI Hn. apply open_recorded_promote; assumption.
  - apply has_entries_init.
  - intros n st Hst Hne. apply init_circuit_closed in Hst. contradiction.
Qed.

(** X16. With a failure threshold of at least 1, in every state reached
    from a freshly constructed router the failure counts are
    non-negative and the count of an endpoint whose circuit is CLOSED is
    below the threshold. *)
Theorem counts_bounded_reachable (cfg : AIModelRouterConfig) (calls : list call) :
  1 <= failure_threshold (circuit_breaker cfg) ->
  counts_bounded (router (calls_run calls (boot cfg))).
Proof.
  intros Hth.
  apply (invariant_run_calls sha256_hexdigest str_sorted_items w counts_bounded).
  - intros r n m latency success HI Hm. exact HI.
  - intros r k v HI. exact HI.
  - intros n st s. apply counts_bounded_failure.
  - intros n st s HI _. apply counts_bounded_reset, HI.
  - intros e st s. apply (promote_then_probe w counts_bounded).
    + intros n st' s'. apply counts_bounded_failure.
    + intros n st' s' HI _. apply counts_bounded_reset, HI.
    + intros r n HI _. apply counts_bounded_promote, HI.
  - apply has_entries_init.
  - split; [exact Hth|]. intros n. unfold dd_int. simpl.
    rewrite lookup_empty. simpl. split; [lia | intros _; lia].
Qed.

(** X17. HALF_OPEN is transient: in every state reached from a freshly
    constructed router by calls that run one after the other, no circuit
    is HALF_OPEN.  [health_check] resolves a circuit it promotes to
    CLOSED or OPEN in the same iteration, and [inference] never creates
    one, so neither the half-open branch of [_handle_failure] nor the
    half-open log line of [inference] is reached between calls. *)
Theorem settled_reachable (cfg : AIModelRouterConfig) (calls : list call) :
  settled (router (calls_run calls (boot cfg))).
Proof.
  apply (invariant_run_calls sha256_hexdigest str_sorted_items w settled).
  - intros r n m latency success HI Hm. exact HI.
  - intros r k v HI. exact HI.
  - intros n st s HI _. apply settled_failure, HI.
  - intros n st s HI _. apply settled_reset, HI.
  - intros e st s. apply settled_health_checked.
  - apply has_entries_init.
  - intros n Hn. apply init_circuit_closed in Hn. discriminate.
Qed.

End ReachableStates.

Lemma counts_bounded_reachable_witness :
  counts_bounded
    (router (run_calls (fun x => x) (fun _ => EmptyString) world_down
               [CallInference "stt" "payload" None; CallHealthCheck]
               (boot test_config))).
Proof.
  apply (counts_bounded_reachable (fun x => x) (fun _ => EmptyString) world_down
           test_config).
  simpl. lia.
Defined.

(** ** The health sweep *)

Section HealthSweep.

Variable w : World.

Lemma health_checked_closed (e : EndpointConfig) (s : Sys) :
  health_checked w e CLOSED s = s.
Proof.
  unfold health_checked, probe_due, recovery_due, promoted.
  rewrite !bool_decide_eq_false_2 by discriminate. reflexivity.
Qed.

Lemma sweep_all_closed (l : list EndpointConfig) :
  forall s,
    Forall (fun e => circuit_states (router s) !! name e = Some CLOSED) l ->
    sweep_state w l s = s.
Proof.
  induction l as [|e l IH]; intros s Hc; [reflexivity|].
  apply Forall_cons in Hc as [He Hl].
  rewrite (sweep_state_cons w e l s CLOSED He), health_checked_closed.
  apply IH, Hl.
Qed.

(** X18. When every configured endpoint's circuit is CLOSED,
    [health_check] reads no clock and sends no probe; the circuit
    states, the failure times, the metrics, the cache and the
    configuration are unchanged, and every failure count reads as before
    (the report's read of the [failure_counts] defaultdict can create
    explicit 0 entries, which is all that can change in the router
    object).  It returns for every configured endpoint the state CLOSED
    with its current failure count. *)
Theorem health_check_all_closed (s : Sys) :
  Forall (fun e => circuit_states (router s) !! name e = Some CLOSED)
         (endpoints (config (router s))) ->
  exists report s',
    health_check w s = (Return report, s') /\
    circuit_states (router s') = circuit_states (router s) /\
    last_failure_time (router s') = last_failure_time (router s) /\
    (forall k, dd_int (failure_counts (router s')) k
               = dd_int (failure_counts (router s)) k) /\
    metrics (router s') = metrics (router s) /\
    cache (router s') = cache (router s) /\
    config (router s') = config (router s) /\
    n_clock s' = n_clock s /\ n_probe s' = n_probe s /\
    n_reply s' = n_reply s /\ n_entropy s' = n_entropy s /\
    trace s' = trace s /\
    forall k,
      report !! k
        = if decide (k ∈ map name (endpoints (config (router s))))
          then Some {| state := CLOSED;
                       failures := dd_int (failure_counts (router s)) k |}
          else None.
Proof.
  intros Hc.
  assert (Forall (fun e => is_Some (circuit_states (router s) !! name e))
                 (endpoints (config (router s)))) as Hkeys.
  { eapply Forall_impl; [exact Hc|]. intros e He. simpl in He. eauto. }
  destruct (health_sweep_run w (endpoints (config (router s))) s Hkeys) as (Hrun & _).
  rewrite (sweep_all_closed _ s Hc) in Hrun.
  destruct (health_report_run (router s) (endpoints (config (router s))) ∅ s Hkeys)
    as (rep & Hrep & Hlook).
  exists rep, s. split.
  { unfold health_check. unfold bind at 1, get_router. unfold bind at 1.
    rewrite Hrun. unfold bind at 1, get_router. exact Hrep. }
  do 11 (split; [reflexivity|]).
  intros k. rewrite Hlook.
  destruct (decide _) as [Hin|]; [|apply lookup_empty].
  unfold report_of. apply list_elem_of_fmap in Hin as (e & -> & He).
  rewrite Forall_forall in Hc. rewrite (Hc e He). reflexivity.
Qed.

Lemma reset_done_io (n : string) (st : circuit) (s : Sys) :
  n_reply (reset_done n st s) = n_reply s /\
  n_entropy (reset_done n st s) = n_entropy s /\
  trace (reset_done n st s) = trace s.
Proof.
  unfold reset_done. destruct (bool_decide (st = CLOSED)); repeat split; reflexivity.
Qed.

Lemma tripped_io (n : string) (s : Sys) :
  n_reply (tripped w n s) = n_reply s /\
  n_entropy (tripped w n s) = n_entropy s /\
  trace (tripped w n s) = trace s.
Proof. unfold tripped. repeat split; reflexivity. Qed.

Lemma probed_io (e : EndpointConfig) (s : Sys) :
  n_reply (probed w e s) = n_reply s /\
  n_entropy (probed w e s) = n_entropy s /\
  trace (probed w e s)
    = trace s ++ (if probe_supported e then [EvProbe (name e)] else []).
Proof.
  unfold probed. cbv zeta.
  set (s1 := if probe_supported e then _ else s).
  assert (n_reply s1 = n_reply s /\ n_entropy s1 = n_entropy s /\
          trace s1 = trace s ++ (if probe_supported e then [EvProbe (name e)] else []))
    as (H1 & H2 & H3).
  { unfold s1. destruct (probe_supported e); repeat split; try reflexivity.
    symmetry. apply app_nil_r. }
  destruct (probe_healthy w e s).
  - destruct (reset_done_io (name e) HALF_OPEN s1) as (-> & -> & ->). auto.
  - destruct (tripped_io (name e) s1) as (-> & -> & ->). auto.
Qed.

Lemma health_checked_io (e : EndpointConfig) (st : circuit) (s : Sys) :
  n_reply (health_checked w e st s) = n_reply s /\
  n_entropy (health_checked w e st s) = n_entropy s /\
  exists evs,
    trace (health_checked w e st s) = trace s ++ evs /\
    Forall (probe_event [name e]) evs /\ (length evs <= 1)%nat.
Proof.
  assert (n_reply (promoted w e st s) = n_reply s /\
          n_entropy (promoted w e st s) = n_entropy s /\
          trace (promoted w e st s) = trace s) as (P1 & P2 & P3).
  { unfold promoted.
    destruct (bool_decide (st = OPEN)); [destruct (recovery_due w e st s)|];
      repeat split; reflexivity. }
  unfold health_checked. destruct (probe_due w e st s).
  - destruct (probed_io e (promoted w e st s)) as (-> & -> & ->).
    split; [exact P1|]. split; [exact P2|]. rewrite P3.
    eexists. split; [reflexivity|].
    destruct (probe_supported e); simpl; split; try lia; repeat constructor.
  - split; [exact P1|]. split; [exact P2|]. rewrite P3.
    exists []. rewrite app_nil_r. simpl. repeat split; [constructor | lia].
Qed.

Lemma probe_event_mono (a b : list string) (ev : event) :
  (forall n, n ∈ a -> n ∈ b) -> probe_event a ev -> probe_event b ev.
Proof. intros H. destruct ev; simpl; auto. Qed.

Lemma sweep_state_io (l : list EndpointConfig) :
  forall s,
    n_reply (sweep_state w l s) = n_reply s /\
    n_entropy (sweep_state w l s) = n_entropy s /\
    exists evs,
      trace (sweep_state w l s) = trace s ++ evs /\
      Forall (probe_event (map name l)) evs /\ (length evs <= length l)%nat.
Proof.
  induction l as [|e l IH]; intros s.
  - split; [reflexivity|]. split; [reflexivity|].
    exists []. simpl. rewrite app_nil_r. repeat split; [constructor | lia].
  - pose (s1 := match circuit_states (router s) !! name e with
                | Some st => health_checked w e st s
                | None => s
                end).
    assert (sweep_state w (e :: l) s = sweep_state w l s1) as -> by reflexivity.
    assert (n_reply s1 = n_reply s /\ n_entropy s1 = n_entropy s /\
            exists evs, trace s1 = trace s ++ evs /\
                        Forall (probe_event [name e]) evs /\ (length evs <= 1)%nat)
      as (H1 & H2 & evs1 & H3 & H4 & H5).
    { unfold s1. destruct (circuit_states (router s) !! name e) as [st|];
        [apply health_checked_io|].
      split; [reflexivity|]. split; [reflexivity|].
      exists []. simpl. rewrite app_nil_r. repeat split; [constructor | lia]. }
    destruct (IH s1) as (I1 & I2 & evs2 & I3 & I4 & I5).
    split; [congruence|]. split; [congruence|].
    exists (evs1 ++ evs2).
    split; [rewrite I3, H3; symmetry; apply app_assoc|].
    split.
    + apply Forall_app. split.
      * eapply Forall_impl; [exact H4|]. intros ev. apply probe_event_mono.
        intros n Hn. apply list_elem_of_singleton in Hn as ->.
        simpl. apply elem_of_cons. auto.
      * eapply Forall_impl; [exact I4|]. intros ev. apply probe_event_mono.
        intros n Hn. simpl. apply elem_of_cons. auto.
    + rewrite length_app. simpl. lia.
Qed.

(** X19. [health_check] on a router that has the entries of its
    endpoints never raises; the only
    events it adds are health probes of configured endpoints, at most
    one per configured endpoint; it consumes no transport reply and no
    random draw, never sleeps, and leaves the metrics and the cache
    alone. *)
Theorem health_check_events (s : Sys) :
  has_entries (router s) ->
  exists report s' evs,
    health_check w s = (Return report, s') /\
    trace s' = trace s ++ evs /\
    Forall (probe_event (map name (endpoints (config (router s))))) evs /\
    (length evs <= length (endpoints (config (router s))))%nat /\
    n_reply s' = n_reply s /\
    n_entropy s' = n_entropy s /\
    metrics (router s') = metrics (router s) /\
    cache (router s') = cache (router s).
Proof.
  intros Hwf.
  destruct (health_check_entries w s Hwf)
    as (rep & Hrun & _ & _ & Hcache & Hmet & _).
  destruct (sweep_state_io (endpoints (config (router s))) s)
    as (H1 & H2 & evs & H3 & H4 & H5).
  exists rep, (sweep_state w (endpoints (config (router s))) s), evs.
  repeat split; assumption.
Qed.

Lemma unsupported_event (e : EndpointConfig) :
  type e <> "http"%string -> type e <> "websocket"%string ->
  protocol_event e = None /\ probe_supported e = false.
Proof.
  intros H1 H2. unfold protocol_event, probe_supported.
  rewrite !bool_decide_eq_false_2 by assumption. auto.
Qed.

(** X20. An endpoint whose [type] is neither "http" nor "websocket" is
    never contacted: dispatching to it raises [ValueError] before any
    I/O, leaving the state unchanged, and its health probe reports
    unhealthy without touching the network. *)
Theorem unsupported_protocol (e : EndpointConfig) (data : string)
    (md : option (gmap string value)) (s : Sys) :
  type e <> "http"%string -> type e <> "websocket"%string ->
  transport_call w e data md s = (Raise ValueError, s) /\
  _check_endpoint_health w e s = (Return false, s) /\
  forall key t0 st,
    circuit_states (router s) !! name e = Some st ->
    dispatch_try w key e data md t0 s = (Raise ValueError, s).
Proof.
  intros H1 H2. destruct (unsupported_event e H1 H2) as [Hev Hps].
  assert (transport_call w e data md s = (Raise ValueError, s)) as Ht.
  { rewrite transport_call_run, Hev. unfold attempt_sent. rewrite Hev. reflexivity. }
  split; [exact Ht|]. split.
  - rewrite check_endpoint_health_run. unfold probe_healthy. rewrite Hps. reflexivity.
  - intros key t0 st Hst. unfold dispatch_try.
    unfold bind at 1, get_router. unfold bind at 1, dict_get. rewrite Hst.
    unfold ret at 1. unfold bind at 1. rewrite Ht. reflexivity.
Qed.

(** X21. [health_check] cannot close the circuit of an endpoint with an
    unsupported protocol: whenever its circuit is OPEN or HALF_OPEN, the
    endpoint's iteration of the sweep leaves it OPEN. *)
Theorem unsupported_stays_open (e : EndpointConfig) (st : circuit) (s : Sys) :
  type e <> "http"%string -> type e <> "websocket"%string ->
  circuit_states (router s) !! name e = Some st ->
  st <> CLOSED ->
  exists s',
    health_check_endpoint w e s = (Return tt, s') /\
    circuit_states (router s') !! name e = Some OPEN.
Proof.
  intros H1 H2 Hst Hne. destruct (unsupported_event e H1 H2) as [_ Hps].
  rewrite (health_check_endpoint_run w e s st Hst).
  eexists. split; [reflexivity|].
  destruct (promoted_facts w e st s Hst) as (_ & _ & _ & _ & _ & _ & Hcs & _).
  unfold health_checked.
  destruct (probe_due w e st s) eqn:Hdue.
  - rewrite (probe_due_promoted w e st s Hdue) in Hcs.
    destruct (probed_facts w e (promoted w e st s) Hcs) as (_ & _ & _ & _ & Hres & _).
    unfold probe_healthy in Hres. rewrite Hps in Hres. simpl in Hres.
    destruct Hres as (H & _). exact H.
  - unfold probe_due in Hdue. apply orb_false_iff in Hdue as [Hhalf Hrec].
    rewrite Hrec in Hcs. rewrite Hcs.
    apply bool_decide_eq_false in Hhalf. destruct st; congruence.
Qed.

End HealthSweep.

Lemma health_check_all_closed_witness :
  exists report s',
    health_check world_down (boot test_config) = (Return report, s') /\
    circuit_states (router s') = circuit_states (router (boot test_config)) /\
    trace s' = trace (boot test_config).
Proof.
  destruct (health_check_all_closed world_down (boot test_config)
              (init_closed test_config))
    as (report & s' & Hrun & Hcs & _ & _ & _ & _ & _ & _ & _ & _ & _ & Htr & _).
  exists report, s'. repeat split; assumption.
Defined.

Lemma health_check_events_witness :
  exists report s' evs,
    health_check world_down (boot test_config) = (Return report, s') /\
    trace s' = trace (boot test_config) ++ evs /\
    Forall (probe_event (map name (endpoints test_config))) evs.
Proof.
  destruct (health_check_events world_down (boot test_config)
              (has_entries_init test_config))
    as (report & s' & evs & Hrun & Htr & Hev & _).
  exists report, s', evs. repeat split; assumption.
Defined.

Lemma ep_grpc_not_http : type ep_grpc <> "http"%string.
Proof. discriminate. Qed.

Lemma ep_grpc_not_websocket : type ep_grpc <> "websocket"%string.
Proof. discriminate. Qed.

Lemma unsupported_protocol_witness :
  transport_call world_up ep_grpc "payload" None (boot grpc_config)
    = (Raise ValueError, boot grpc_config).
Proof.
  apply (unsupported_protocol world_up ep_grpc "payload" None (boot grpc_config)
           ep_grpc_not_http ep_grpc_not_websocket).
Defined.

Lemma grpc_tripped_open :
  circuit_states (router grpc_tripped) !! name ep_grpc = Some OPEN.
Proof. vm_compute. reflexivity. Qed.

Lemma unsupported_stays_open_witness :
  exists s',
    health_check_endpoint world_later ep_grpc grpc_tripped = (Return tt, s') /\
    circuit_states (router s') !! name ep_grpc = Some OPEN.
Proof.
  apply (unsupported_stays_open world_later ep_grpc OPEN grpc_tripped
           ep_grpc_not_http ep_grpc_not_websocket grpc_tripped_open).
  discriminate.
Defined.
